(** * routingv8: response model, ErrorCodes decoding and the Routes call

    A shallow embedding of [routingv8/response.go] and of the [Routes]
    method of [RoutingService], together with the part of Go's
    [encoding/json], [strconv] and [net/url] behaviour that the code
    relies on.

    Conventions.
    - A Go [string] and a Go [[]byte] are Rocq [string]s (sequences of
      8-bit characters).
    - A Go [int] is a 64-bit signed integer, an [int32] a 32-bit one; both
      are carried as [Z] together with their range predicate.
    - A Go slice is [option (list A)]: [None] is the nil slice, [Some []]
      an empty non-nil slice.  Capacity is not tracked.
    - A Go [(value, error)] result is a sum, a nil [error] is [None]. *)

From Stdlib Require Import Floats.PrimFloat.
From Stdlib Require Import ZArith Ascii String List Lia.
From Stdlib Require Floats.FloatOps Floats.SpecFloat.
From Stdlib Require Numbers.Cyclic.Int63.Uint63.
From stdpp Require Import base tactics option list strings gmap.

Open Scope string_scope.
Open Scope list_scope.
Open Scope Z_scope.

Local Set Warnings "-register-all".

(** ** Characters and strings *)

Definition byte_of (c : ascii) : Z := Z.of_N (N_of_ascii c).

Definition between (lo hi : Z) (c : ascii) : bool :=
  (lo <=? byte_of c) && (byte_of c <=? hi).

(** The double quote character, code 34. *)
Definition dquote : ascii := "034"%char.

Definition isDigit (c : ascii) : bool := between 48 57 c.

(** Space, tab, carriage return and line feed: [isSpace] of
    encoding/json's scanner. *)
Definition isSpace (c : ascii) : bool :=
  (byte_of c =? 32) || (byte_of c =? 9) || (byte_of c =? 13) || (byte_of c =? 10).

Fixpoint str_map (f : ascii -> ascii) (s : string) : string :=
  match s with
  | EmptyString => EmptyString
  | String c tl => String (f c) (str_map f tl)
  end.

(** JSON texts are written below with ['] standing for the double quote. *)
Definition js (s : string) : string :=
  str_map (fun c => if (byte_of c =? 39) then dquote else c) s.

(** ** JSON values

    A number keeps its literal text, as encoding/json does until the
    target type is known. *)

Inductive json : Type :=
| JNull
| JBool (b : bool)
| JNum (lit : string)
| JStr (s : string)
| JArr (xs : list json)
| JObj (kvs : list (string * json)).

Inductive token : Type :=
| TLBrack | TRBrack | TLBrace | TRBrace | TComma | TColon
| TNull | TTrue | TFalse
| TNum (lit : string)
| TStr (s : string).

(** *** Numbers

    An optional minus sign, then 0 or a digit 1-9 followed by digits, then
    an optional fraction (a dot and at least one digit), then an optional
    exponent (e or E, an optional sign, at least one digit). *)

Fixpoint take_digits (s : string) : string * string :=
  match s with
  | String c tl =>
      if isDigit c then let '(d, r) := take_digits tl in (String c d, r)
      else (EmptyString, s)
  | EmptyString => (EmptyString, EmptyString)
  end.

Definition scan_sign (s : string) : string * string :=
  match s with
  | String c tl => if (byte_of c =? 45) then ("-", tl) else ("", s)
  | EmptyString => ("", s)
  end.

Definition scan_int_part (s : string) : option (string * string) :=
  match s with
  | String c tl =>
      if (byte_of c =? 48) then Some ("0", tl)
      else if between 49 57 c then
        let '(d, r) := take_digits tl in Some (String c d, r)
      else None
  | EmptyString => None
  end.

Definition scan_frac (s : string) : option (string * string) :=
  match s with
  | String c tl =>
      if (byte_of c =? 46) then
        match take_digits tl with
        | (EmptyString, _) => None
        | (d, r) => Some (String c d, r)
        end
      else Some ("", s)
  | EmptyString => Some ("", s)
  end.

Definition scan_exp_sign (s : string) : string * string :=
  match s with
  | String c tl =>
      if (byte_of c =? 43) || (byte_of c =? 45) then (String c "", tl) else ("", s)
  | EmptyString => ("", s)
  end.

Definition scan_exp (s : string) : option (string * string) :=
  match s with
  | String c tl =>
      if (byte_of c =? 101) || (byte_of c =? 69) then
        let '(sg, s1) := scan_exp_sign tl in
        match take_digits s1 with
        | (EmptyString, _) => None
        | (d, r) => Some (String c (sg +:+ d), r)
        end
      else Some ("", s)
  | EmptyString => Some ("", s)
  end.

Definition scan_number (s : string) : option (string * string) :=
  let '(sg, s1) := scan_sign s in
  match scan_int_part s1 with
  | None => None
  | Some (ip, s2) =>
      match scan_frac s2 with
      | None => None
      | Some (fr, s3) =>
          match scan_exp s3 with
          | None => None
          | Some (ex, s4) => Some (sg +:+ ip +:+ fr +:+ ex, s4)
          end
      end
  end.

(** *** Strings *)

Definition hexval (c : ascii) : option Z :=
  if between 48 57 c then Some (byte_of c - 48)
  else if between 97 102 c then Some (byte_of c - 87)
  else if between 65 70 c then Some (byte_of c - 55)
  else None.

Definition chr (z : Z) : ascii := ascii_of_N (Z.to_N z).

(** [utf8.EncodeRune]. *)
Definition EncodeRune (r : Z) : string :=
  if r <? 128 then String (chr r) ""
  else if r <? 2048 then
    String (chr (192 + r / 64)) (String (chr (128 + r mod 64)) "")
  else if r <? 65536 then
    String (chr (224 + r / 4096))
      (String (chr (128 + (r / 64) mod 64)) (String (chr (128 + r mod 64)) ""))
  else
    String (chr (240 + r / 262144))
      (String (chr (128 + (r / 4096) mod 64))
         (String (chr (128 + (r / 64) mod 64)) (String (chr (128 + r mod 64)) ""))).

Definition ReplacementChar : Z := 65533.

(** Four hexadecimal digits, [getu4] without the leading backslash-u. *)
Definition hex4 (s : string) : option (Z * string) :=
  match s with
  | String a (String b (String c (String d tl))) =>
      match hexval a, hexval b, hexval c, hexval d with
      | Some x, Some y, Some z, Some w => Some (((x * 16 + y) * 16 + z) * 16 + w, tl)
      | _, _, _, _ => None
      end
  | _ => None
  end.

Definition isSurrogate (r : Z) : bool := (55296 <=? r) && (r <? 57344).

(** [utf16.DecodeRune]: a high surrogate followed by a low one. *)
Definition DecodeSurrogates (r1 r2 : Z) : Z :=
  if (55296 <=? r1) && (r1 <? 56320) && (56320 <=? r2) && (r2 <? 57344)
  then (r1 - 55296) * 1024 + (r2 - 56320) + 65536
  else ReplacementChar.

(** Length of the well-formed UTF-8 sequence that starts the string, 0 when
    there is none ([utf8.DecodeRune] then yields the replacement rune and
    width 1). *)
Definition utf8_width (s : string) : nat :=
  let cont := between 128 191 in
  match s with
  | String a tl =>
      if byte_of a <? 128 then 1%nat
      else match tl with
      | String b tl2 =>
          if between 194 223 a then (if cont b then 2%nat else 0%nat)
          else match tl2 with
          | String c tl3 =>
              let b_ok3 :=
                if (byte_of a =? 224) then between 160 191 b
                else if (byte_of a =? 237) then between 128 159 b
                else between 225 239 a && cont b in
              if between 224 239 a then (if b_ok3 && cont c then 3%nat else 0%nat)
              else match tl3 with
              | String d _ =>
                  let b_ok4 :=
                    if (byte_of a =? 240) then between 144 191 b
                    else if (byte_of a =? 244) then between 128 143 b
                    else between 241 243 a && cont b in
                  if b_ok4 && cont c && cont d then 4%nat else 0%nat
              | EmptyString => 0%nat
              end
          | EmptyString => 0%nat
          end
      | EmptyString => 0%nat
      end
  | EmptyString => 0%nat
  end.

Definition simple_escape (c : ascii) : option ascii :=
  let b := byte_of c in
  if (b =? 34) || (b =? 92) || (b =? 47) then Some c
  else if b =? 98 then Some (chr 8)
  else if b =? 102 then Some (chr 12)
  else if b =? 110 then Some (chr 10)
  else if b =? 114 then Some (chr 13)
  else if b =? 116 then Some (chr 9)
  else None.

(** The body of a string literal after its opening quote: the unquoted
    contents ([unquoteBytes]) and the input after the closing quote.
    Control characters are refused, escapes are decoded, ill-formed UTF-8
    is replaced by U+FFFD. *)
Fixpoint scan_string (fuel : nat) (s : string) : option (string * string) :=
  match fuel with
  | O => None
  | S f =>
      match s with
      | EmptyString => None
      | String c tl =>
          if byte_of c =? 34 then Some ("", tl)
          else if byte_of c <? 32 then None
          else if byte_of c =? 92 then
            match tl with
            | EmptyString => None
            | String e tl2 =>
                if byte_of e =? 117 then
                  match hex4 tl2 with
                  | None => None
                  | Some (r1, tl3) =>
                      let pair :=
                        if isSurrogate r1 then
                          match tl3 with
                          | String b1 (String b2 tl4) =>
                              if (byte_of b1 =? 92) && (byte_of b2 =? 117) then
                                match hex4 tl4 with
                                | Some (r2, tl5) =>
                                    if DecodeSurrogates r1 r2 =? ReplacementChar
                                    then (ReplacementChar, tl3)
                                    else (DecodeSurrogates r1 r2, tl5)
                                | None => (ReplacementChar, tl3)
                                end
                              else (ReplacementChar, tl3)
                          | _ => (ReplacementChar, tl3)
                          end
                        else (r1, tl3) in
                      match scan_string f (snd pair) with
                      | Some (body, rest) => Some (EncodeRune (fst pair) +:+ body, rest)
                      | None => None
                      end
                  end
                else
                  match simple_escape e with
                  | None => None
                  | Some c' =>
                      match scan_string f tl2 with
                      | Some (body, rest) => Some (String c' body, rest)
                      | None => None
                      end
                  end
            end
          else
            match utf8_width s with
            | O =>
                match scan_string f tl with
                | Some (body, rest) => Some (EncodeRune ReplacementChar +:+ body, rest)
                | None => None
                end
            | w =>
                match scan_string f (String.substring w (String.length s - w) s) with
                | Some (body, rest) => Some (String.substring 0 w s +:+ body, rest)
                | None => None
                end
            end
      end
  end.

(** *** The scanner: bytes to tokens *)

Definition strip_prefix (p s : string) : option string :=
  if String.prefix p s
  then Some (String.substring (String.length p) (String.length s - String.length p) s)
  else None.

Fixpoint lex (fuel : nat) (s : string) : option (list token) :=
  match fuel with
  | O => None
  | S f =>
      match s with
      | EmptyString => Some []
      | String c tl =>
          let b := byte_of c in
          let one (t : token) := option_map (cons t) (lex f tl) in
          if isSpace c then lex f tl
          else if b =? 91 then one TLBrack
          else if b =? 93 then one TRBrack
          else if b =? 123 then one TLBrace
          else if b =? 125 then one TRBrace
          else if b =? 44 then one TComma
          else if b =? 58 then one TColon
          else if b =? 34 then
            match scan_string (S (String.length tl)) tl with
            | Some (body, rest) => option_map (cons (TStr body)) (lex f rest)
            | None => None
            end
          else if (b =? 45) || isDigit c then
            match scan_number s with
            | Some (lit, rest) => option_map (cons (TNum lit)) (lex f rest)
            | None => None
            end
          else
            match strip_prefix "null" s, strip_prefix "true" s, strip_prefix "false" s with
            | Some rest, _, _ => option_map (cons TNull) (lex f rest)
            | _, Some rest, _ => option_map (cons TTrue) (lex f rest)
            | _, _, Some rest => option_map (cons TFalse) (lex f rest)
            | None, None, None => None
            end
      end
  end.

(** *** The grammar: tokens to a value

    [depth] counts the arrays and objects that are open; the scanner
    refuses to open more than [maxNestingDepth] of them. *)

Definition maxNestingDepth : Z := 10000.

Fixpoint parse_value (fuel : nat) (depth : Z) (ts : list token)
  : option (json * list token) :=
  match fuel with
  | O => None
  | S f =>
      match ts with
      | TNull :: r => Some (JNull, r)
      | TTrue :: r => Some (JBool true, r)
      | TFalse :: r => Some (JBool false, r)
      | TNum lit :: r => Some (JNum lit, r)
      | TStr s :: r => Some (JStr s, r)
      | TLBrack :: r =>
          if depth <? maxNestingDepth then
            match r with
            | TRBrack :: r' => Some (JArr [], r')
            | _ =>
                match parse_elems f (depth + 1) r with
                | Some (xs, r') => Some (JArr xs, r')
                | None => None
                end
            end
          else None
      | TLBrace :: r =>
          if depth <? maxNestingDepth then
            match r with
            | TRBrace :: r' => Some (JObj [], r')
            | _ =>
                match parse_members f (depth + 1) r with
                | Some (kvs, r') => Some (JObj kvs, r')
                | None => None
                end
            end
          else None
      | _ => None
      end
  end
with parse_elems (fuel : nat) (depth : Z) (ts : list token)
  : option (list json * list token) :=
  match fuel with
  | O => None
  | S f =>
      match parse_value f depth ts with
      | Some (x, TRBrack :: r) => Some ([x], r)
      | Some (x, TComma :: r) =>
          match parse_elems f depth r with
          | Some (xs, r') => Some (x :: xs, r')
          | None => None
          end
      | _ => None
      end
  end
with parse_members (fuel : nat) (depth : Z) (ts : list token)
  : option (list (string * json) * list token) :=
  match fuel with
  | O => None
  | S f =>
      match ts with
      | TStr k :: TColon :: r =>
          match parse_value f depth r with
          | Some (x, TRBrace :: r') => Some ([(k, x)], r')
          | Some (x, TComma :: r') =>
              match parse_members f depth r' with
              | Some (kvs, r'') => Some ((k, x) :: kvs, r'')
              | None => None
              end
          | _ => None
          end
      | _ => None
      end
  end.

(** [checkValid] followed by the decoder's walk over the text: the whole
    input is one JSON value, surrounded by optional white space.  The
    recursion depth of the grammar is at most twice the number of tokens,
    and the scanner consumes a byte at every step, so the fuel given here
    never runs out. *)
Definition parse (b : string) : option json :=
  match lex (S (String.length b)) b with
  | None => None
  | Some ts =>
      match parse_value (2 * List.length ts + 2) 0 ts with
      | Some (v, []) => Some v
      | _ => None
      end
  end.

(** ** Errors

    A Go [error] value.  [Errorf format args] is the value made by
    [fmt.Errorf(format, args...)]; [SyntaxError] and [UnmarshalTypeError]
    are encoding/json's ([Value] describes the JSON value, [Type_] names
    the Go type; offsets and struct context are left out); [OtherError]
    is an error made by a collaborator. *)

Inductive error : Type :=
| Errorf (format : string) (args : list error)
| SyntaxError
| UnmarshalTypeError (Value : string) (Type_ : string)
| OtherError (msg : string).

(** ** strconv *)

Fixpoint ParseUint_digits (s : string) (acc : Z) : option Z :=
  match s with
  | EmptyString => Some acc
  | String c tl =>
      if isDigit c then ParseUint_digits tl (acc * 10 + (byte_of c - 48)) else None
  end.

(** [strconv.ParseInt(s, 10, bitSize)]; [None] stands for both of its
    errors, [ErrSyntax] and [ErrRange].  The digits are summed without
    wrap-around and compared with the cutoff [2^(bitSize-1)] afterwards,
    which is where Go's loop, stopping at the first overflow of the
    unsigned accumulator, ends up as well. *)
Definition ParseInt (s : string) (bitSize : Z) : option Z :=
  match s with
  | EmptyString => None
  | String c tl =>
      let '(neg, ds) :=
        if byte_of c =? 43 then (false, tl)
        else if byte_of c =? 45 then (true, tl)
        else (false, s) in
      match ds with
      | EmptyString => None
      | _ =>
          match ParseUint_digits ds 0 with
          | None => None
          | Some un =>
              let cutoff := 2 ^ (bitSize - 1) in
              if negb neg && (cutoff <=? un) then None
              else if neg && (cutoff <? un) then None
              else Some (if neg then - un else un)
          end
      end
  end.

Fixpoint formatBits (fuel : nat) (n : Z) (acc : string) : string :=
  match fuel with
  | O => acc
  | S f =>
      let acc' := String (chr (48 + n mod 10)) acc in
      if n <? 10 then acc' else formatBits f (n / 10) acc'
  end.

(** [strconv.FormatInt(i, 10)], which is also how encoding/json writes an
    integer. *)
Definition FormatInt (i : Z) : string :=
  if i <? 0 then String "-" (formatBits (S (Z.to_nat (Z.log2 (- i)))) (- i) "")
  else formatBits (S (Z.to_nat (Z.log2 i))) i "".

(** ** Go values *)

Definition int : Type := Z.
Definition int32 : Type := Z.
Definition float64 : Type := PrimFloat.float.

Definition is_int (n : Z) : Prop := - 2 ^ 63 <= n < 2 ^ 63.
Definition is_int32 (n : Z) : Prop := - 2 ^ 31 <= n < 2 ^ 31.

Definition slice (A : Type) : Type := option (list A).

Definition make {A : Type} : slice A := Some [].

(** The elements a [for ... range] visits. *)
Definition elems {A : Type} (s : slice A) : list A :=
  match s with
  | Some l => l
  | None => []
  end.

Definition len {A : Type} (s : slice A) : Z := Z.of_nat (List.length (elems s)).

Definition append {A : Type} (s : slice A) (x : A) : slice A := Some (elems s ++ [x]).

(** ** The decoder of encoding/json

    [decodeState] carries the first type error met ([d.savedError]):
    decoding goes on after such an error, and the error is reported at the
    end.  An error returned by an [UnmarshalJSON] method aborts the walk
    at once; it is the left summand. *)

Definition savedError : Type := option error.

Definition saveError (err : error) (d : savedError) : savedError :=
  match d with
  | None => Some err
  | Some _ => d
  end.

Definition decoder (A : Type) : Type := json -> A -> savedError -> error + (A * savedError).

(** What encoding/json knows of a Go type: its zero value, its name, the
    way a JSON value is stored into a variable of the type, the way a
    value is written, and [isEmptyValue] (for [omitempty]). *)
Record GoType (A : Type) : Type := MkGoType {
  zero : A;
  type_name : string;
  decode : decoder A;
  encode : A -> error + json;
  isEmptyValue : A -> bool;
}.
Arguments MkGoType {A}.
Arguments zero {A}.
Arguments type_name {A}.
Arguments decode {A}.
Arguments encode {A}.
Arguments isEmptyValue {A}.

(** The [Value] of the [UnmarshalTypeError] raised when a JSON value meets
    a Go type of another kind. *)
Definition kind_of (j : json) : string :=
  match j with
  | JNull => "null"
  | JBool _ => "bool"
  | JNum _ => "number"
  | JStr _ => "string"
  | JArr _ => "array"
  | JObj _ => "object"
  end.

Definition mismatch {A : Type} (name : string) (j : json) (v : A) (d : savedError)
  : error + (A * savedError) :=
  inr (v, saveError (UnmarshalTypeError (kind_of j) name) d).

(** Signed integers of [bits] bits: [literalStore], the number case. *)
Definition decode_int (bits : Z) (name : string) : decoder Z :=
  fun j v d =>
    match j with
    | JNull => inr (v, d)
    | JNum lit =>
        match ParseInt lit 64 with
        | Some n =>
            if (- 2 ^ (bits - 1) <=? n) && (n <? 2 ^ (bits - 1)) then inr (n, d)
            else inr (v, saveError (UnmarshalTypeError ("number " +:+ lit) name) d)
        | None => inr (v, saveError (UnmarshalTypeError ("number " +:+ lit) name) d)
        end
    | _ => mismatch name j v d
    end.

Definition int_t : GoType int :=
  MkGoType 0 "int" (decode_int 64 "int") (fun n => inr (JNum (FormatInt n))) (fun n => n =? 0).

Definition int32_t : GoType int32 :=
  MkGoType 0 "int32" (decode_int 32 "int32") (fun n => inr (JNum (FormatInt n))) (fun n => n =? 0).

Definition decode_string : decoder string :=
  fun j v d =>
    match j with
    | JNull => inr (v, d)
    | JStr s => inr (s, d)
    | _ => mismatch "string" j v d
    end.

Definition string_t : GoType string :=
  MkGoType "" "string" decode_string (fun s => inr (JStr s))
    (fun s => match s with EmptyString => true | _ => false end).

(** Slices: [d.array].  Element [i] is decoded into the element the slice
    already has at [i], or into a zero element when the slice has to grow;
    the slice ends up with as many elements as the array, and an empty
    array gives an empty slice that is not nil.  [null] gives nil. *)
Fixpoint decode_elems {A : Type} (t : GoType A) (xs : list json) (cur : list A)
    (d : savedError) : error + (list A * savedError) :=
  match xs with
  | [] => inr ([], d)
  | x :: xs' =>
      match decode t x (hd (zero t) cur) d with
      | inl err => inl err
      | inr (a, d1) =>
          match decode_elems t xs' (tl cur) d1 with
          | inl err => inl err
          | inr (l, d2) => inr (a :: l, d2)
          end
      end
  end.

Definition decode_slice {A : Type} (t : GoType A) : decoder (slice A) :=
  fun j v d =>
    match j with
    | JNull => inr (None, d)
    | JArr xs =>
        match decode_elems t xs (elems v) d with
        | inl err => inl err
        | inr (l, d') => inr (Some l, d')
        end
    | _ => mismatch ("[]" +:+ type_name t) j v d
    end.

Fixpoint encode_elems {A : Type} (t : GoType A) (l : list A) : error + list json :=
  match l with
  | [] => inr []
  | a :: l' =>
      match encode t a with
      | inl err => inl err
      | inr j =>
          match encode_elems t l' with
          | inl err => inl err
          | inr js => inr (j :: js)
          end
      end
  end.

Definition encode_slice {A : Type} (t : GoType A) (v : slice A) : error + json :=
  match v with
  | None => inr JNull
  | Some l =>
      match encode_elems t l with
      | inl err => inl err
      | inr js => inr (JArr js)
      end
  end.

Definition slice_t {A : Type} (t : GoType A) : GoType (slice A) :=
  MkGoType None ("[]" +:+ type_name t) (decode_slice t) (encode_slice t)
    (fun v => match elems v with [] => true | _ => false end).

(** [d.unmarshal] on a text the scanner has been through: [None] is a
    text [checkValid] refuses. *)
Definition json_Unmarshal_scanned {A : Type} (t : GoType A) (data : option json) (v : A)
  : error + A :=
  match data with
  | None => inl SyntaxError
  | Some j =>
      match decode t j v None with
      | inl err => inl err
      | inr (_, Some err) => inl err
      | inr (v', None) => inr v'
      end
  end.

(** [json.Unmarshal(data, &v)]: the new contents of [v], or the error. *)
Definition json_Unmarshal {A : Type} (t : GoType A) (data : string) (v : A) : error + A :=
  json_Unmarshal_scanned t (parse data) v.

(** [json.Marshal(v)], up to the value written. *)
Definition json_Marshal {A : Type} (t : GoType A) (v : A) : error + json := encode t v.

(** ** Struct tags and field names

    [reflect.StructTag.Lookup]: the tag is a sequence of [key:"value"]
    pairs separated by spaces.  The struct tags of this package contain no
    escape sequence, and a value that has one is not looked into. *)

Fixpoint span (p : ascii -> bool) (s : string) : string * string :=
  match s with
  | String c tl =>
      if p c then let '(a, b) := span p tl in (String c a, b) else (EmptyString, s)
  | EmptyString => (EmptyString, EmptyString)
  end.

Fixpoint quoted_value (s : string) : option (string * string) :=
  match s with
  | EmptyString => None
  | String c tl =>
      if byte_of c =? 34 then Some (EmptyString, tl)
      else if byte_of c =? 92 then
        match tl with
        | String e tl2 =>
            match quoted_value tl2 with
            | Some (v, r) => Some (String c (String e v), r)
            | None => None
            end
        | EmptyString => None
        end
      else
        match quoted_value tl with
        | Some (v, r) => Some (String c v, r)
        | None => None
        end
  end.

Fixpoint str_forallb (p : ascii -> bool) (s : string) : bool :=
  match s with
  | EmptyString => true
  | String c tl => p c && str_forallb p tl
  end.

Definition Unquote (v : string) : option string :=
  if str_forallb (fun c => negb (byte_of c =? 92) && negb (byte_of c =? 10)) v
  then Some v else None.

Fixpoint Lookup_from (fuel : nat) (key tag : string) : option string :=
  match fuel with
  | O => None
  | S f =>
      let '(_, tag1) := span (fun c => byte_of c =? 32) tag in
      let '(name, tag2) :=
        span (fun c => (32 <? byte_of c) && negb (byte_of c =? 58)
                       && negb (byte_of c =? 34) && negb (byte_of c =? 127)) tag1 in
      match name, tag2 with
      | String _ _, String c1 (String c2 tag3) =>
          if (byte_of c1 =? 58) && (byte_of c2 =? 34) then
            match quoted_value tag3 with
            | Some (v, tag4) =>
                if String.eqb key name then Unquote v else Lookup_from f key tag4
            | None => None
            end
          else None
      | _, _ => None
      end
  end.

Definition Lookup (key tag : string) : option string :=
  Lookup_from (S (String.length tag)) key tag.

(** [StructTag.Get]. *)
Definition Get (key tag : string) : string := default "" (Lookup key tag).

(** [strings.Cut(s, ",")]. *)
Fixpoint cut_comma (s : string) : string * string :=
  match s with
  | EmptyString => (EmptyString, EmptyString)
  | String c tl =>
      if byte_of c =? 44 then (EmptyString, tl)
      else let '(a, b) := cut_comma tl in (String c a, b)
  end.

(** [parseTag]: the name and the comma-separated options. *)
Definition parseTag (tag : string) : string * string := cut_comma tag.

Fixpoint Contains_from (fuel : nat) (o optionName : string) : bool :=
  match fuel with
  | O => false
  | S f =>
      match o with
      | EmptyString => false
      | _ =>
          let '(name, rest) := cut_comma o in
          if String.eqb name optionName then true else Contains_from f rest optionName
      end
  end.

(** [tagOptions.Contains]. *)
Definition Contains (o optionName : string) : bool :=
  Contains_from (S (String.length o)) o optionName.

Fixpoint str_existsb (p : ascii -> bool) (s : string) : bool :=
  match s with
  | EmptyString => false
  | String c tl => p c || str_existsb p tl
  end.

(** [isValidTag], on ASCII: letters, digits and the punctuation below. *)
Definition isValidTag (name : string) : bool :=
  match name with
  | EmptyString => false
  | _ =>
      str_forallb
        (fun c =>
           str_existsb (Ascii.eqb c) "!#$%&()*+-./:;<=>?@[]^_{|}~ "
           || between 48 57 c || between 65 90 c || between 97 122 c)
        name
  end.

(** A field of a struct type [S]: its Go name, its tag as written in the
    source, its type, and the access to it in a value of [S]. *)
Record field (S : Type) : Type := Field {
  f_name : string;
  f_tag : string;
  f_type : Type;
  f_t : GoType f_type;
  f_get : S -> f_type;
  f_set : f_type -> S -> S;
}.
Arguments Field {S} f_name f_tag {f_type} f_t f_get f_set.
Arguments f_name {S}.
Arguments f_tag {S}.
Arguments f_type {S}.
Arguments f_t {S}.
Arguments f_get {S}.
Arguments f_set {S}.

(** The name under which encoding/json knows a field ([typeFields]):
    the name given by the [json] key of the tag when there is one and it
    is valid, the Go name otherwise; [None] for a field tagged ["-"]. *)
Definition json_name {S : Type} (f : field S) : option string :=
  let tag := Get "json" (f_tag f) in
  if String.eqb tag "-" then None
  else
    let '(name, _) := parseTag tag in
    let name := if isValidTag name then name else "" in
    Some (match name with EmptyString => f_name f | _ => name end).

Definition omitEmpty {S : Type} (f : field S) : bool :=
  let '(_, opts) := parseTag (Get "json" (f_tag f)) in Contains opts "omitempty".

(** [foldName]: ASCII letters to upper case.  Of the runes outside ASCII
    only the Kelvin sign (folded to K) and the long s (folded to S) can
    meet an ASCII name; the others are left as they are. *)
Fixpoint foldName (s : string) : string :=
  match s with
  | EmptyString => EmptyString
  | String c tl =>
      if between 97 122 c then String (chr (byte_of c - 32)) (foldName tl)
      else
        match tl with
        | String c2 tl2 =>
            if (byte_of c =? 197) && (byte_of c2 =? 191) then String "S" (foldName tl2)
            else
              match tl2 with
              | String c3 tl3 =>
                  if (byte_of c =? 226) && (byte_of c2 =? 132) && (byte_of c3 =? 170)
                  then String "K" (foldName tl3)
                  else String c (foldName tl)
              | EmptyString => String c (foldName tl)
              end
        | EmptyString => String c EmptyString
        end
  end.

Definition exact_match {S : Type} (key : string) (f : field S) : bool :=
  match json_name f with
  | Some n => String.eqb n key
  | None => false
  end.

Definition folded_match {S : Type} (key : string) (f : field S) : bool :=
  match json_name f with
  | Some n => String.eqb (foldName n) (foldName key)
  | None => false
  end.

(** The field an object key selects: the one of that exact name, or else
    one whose name is the same up to case. *)
Definition find_field {S : Type} (fs : list (field S)) (key : string) : option (field S) :=
  match List.find (exact_match key) fs with
  | Some f => Some f
  | None => List.find (folded_match key) fs
  end.

(** [d.object] on a struct: the members are taken in the order of the
    text; a key that selects no field is skipped with its value. *)
Fixpoint decode_members {S : Type} (fs : list (field S)) (kvs : list (string * json))
    (s : S) (d : savedError) : error + (S * savedError) :=
  match kvs with
  | [] => inr (s, d)
  | (k, v) :: rest =>
      match find_field fs k with
      | None => decode_members fs rest s d
      | Some f =>
          match decode (f_t f) v (f_get f s) d with
          | inl err => inl err
          | inr (a, d1) => decode_members fs rest (f_set f a s) d1
          end
      end
  end.

Definition decode_struct {S : Type} (name : string) (fs : list (field S)) : decoder S :=
  fun j s d =>
    match j with
    | JNull => inr (s, d)
    | JObj kvs => decode_members fs kvs s d
    | _ => mismatch name j s d
    end.

(** [structEncoder.encode]: the fields in the order of the declaration,
    each under its name, a field with [omitempty] left out when empty. *)
Fixpoint encode_fields {S : Type} (fs : list (field S)) (s : S)
  : error + list (string * json) :=
  match fs with
  | [] => inr []
  | f :: fs' =>
      match json_name f with
      | None => encode_fields fs' s
      | Some n =>
          if omitEmpty f && isEmptyValue (f_t f) (f_get f s) then encode_fields fs' s
          else
            match encode (f_t f) (f_get f s) with
            | inl err => inl err
            | inr j =>
                match encode_fields fs' s with
                | inl err => inl err
                | inr kvs => inr ((n, j) :: kvs)
                end
            end
      end
  end.

Definition encode_struct {S : Type} (fs : list (field S)) (s : S) : error + json :=
  match encode_fields fs s with
  | inl err => inl err
  | inr kvs => inr (JObj kvs)
  end.

Definition struct_t {S : Type} (name : string) (z : S) (fs : list (field S)) : GoType S :=
  MkGoType z name (decode_struct name fs) (encode_struct fs) (fun _ => false).

(** ** response.go *)

(** [type ErrorCode int] *)
Inductive ErrorCode : Type := mkErrorCode (n : int).

Definition ErrorCode_int (c : ErrorCode) : int := let 'mkErrorCode n := c in n.

(** [type ErrorCodes []ErrorCode] *)
Definition ErrorCodes : Type := slice ErrorCode.

Definition ErrorCodeSuccess : Z := 0.
Definition ErrorCodeDisconnected : Z := 1.
Definition ErrorCodeMatchingFailed : Z := 2.
Definition ErrorCodeParameterViolation : Z := 3.
Definition ErrorCodeUnknown : Z := 99.

(** [func (e *ErrorCodes) UnmarshalJSON(b []byte) error], from the scan of
    [b] on: the new contents of [*e] and the error returned. *)
Definition ErrorCodes_UnmarshalJSON_scanned (b : option json) (e : ErrorCodes)
  : ErrorCodes * option error :=
  let errorCodes : slice int := make in
  match json_Unmarshal_scanned (slice_t int_t) b errorCodes with
  | inl err => (e, Some err)
  | inr errorCodes =>
      let codes : slice ErrorCode := make in
      let codes :=
        fold_left (fun codes errorCode => append codes (mkErrorCode errorCode))
          (elems errorCodes) codes in
      (codes, None)
  end.

Definition ErrorCodes_UnmarshalJSON (b : string) (e : ErrorCodes) : ErrorCodes * option error :=
  ErrorCodes_UnmarshalJSON_scanned (parse b) e.

(** The decoder finds the [Unmarshaler] and calls it on the text of the
    value, whatever the value is, [null] included; the error it returns
    stops the decoding.  That text has been scanned with the enclosing
    one. *)
Definition decode_ErrorCodes : decoder ErrorCodes :=
  fun j e d =>
    match ErrorCodes_UnmarshalJSON_scanned (Some j) e with
    | (_, Some err) => inl err
    | (e', None) => inr (e', d)
    end.

Definition encode_ErrorCode (c : ErrorCode) : error + json :=
  inr (JNum (FormatInt (ErrorCode_int c))).

Definition ErrorCode_t : GoType ErrorCode :=
  MkGoType (mkErrorCode 0) "routingv8.ErrorCode"
    (fun j c d =>
       match decode_int 64 "routingv8.ErrorCode" j (ErrorCode_int c) d with
       | inl err => inl err
       | inr (n, d') => inr (mkErrorCode n, d')
       end)
    encode_ErrorCode
    (fun c => ErrorCode_int c =? 0).

(** [ErrorCodes] has no [MarshalJSON]: it is written as a slice. *)
Definition ErrorCodes_t : GoType ErrorCodes :=
  MkGoType None "routingv8.ErrorCodes" decode_ErrorCodes (encode_slice ErrorCode_t)
    (fun v => match elems v with [] => true | _ => false end).

(** [GeoWaypoint] is declared in another file of the package; [Routes]
    reads its fields [Lat] and [Long]. *)
Record GeoWaypoint : Type := Build_GeoWaypoint {
  GeoWaypoint_Lat : float64;
  GeoWaypoint_Long : float64;
}.

(** [url.Values], a [map[string][]string]. *)
Definition Values : Type := gmap string (list string).

(** [func (v Values) Add(key, value string)]: appends to the values of the key. *)
Definition Values_Add (key value : string) (v : Values) : Values :=
  <[ key := default [] (v !! key) ++ [value] ]> v.

(** [http.MethodGet] *)
Definition http_MethodGet : string := "GET".

(** [shouldEscape] in the mode of a query component: letters, digits and
    [-_.~] are kept. *)
Definition shouldEscape (c : ascii) : bool :=
  negb (between 48 57 c || between 65 90 c || between 97 122 c
        || (byte_of c =? 45) || (byte_of c =? 95) || (byte_of c =? 46) || (byte_of c =? 126)).

Definition upperhex (n : Z) : ascii := if n <? 10 then chr (48 + n) else chr (55 + n).

(** [url.QueryEscape]: a space becomes [+], an escaped byte [%XX]. *)
Fixpoint QueryEscape (s : string) : string :=
  match s with
  | EmptyString => EmptyString
  | String c tl =>
      if byte_of c =? 32 then String "+" (QueryEscape tl)
      else if shouldEscape c then
        String "%" (String (upperhex (byte_of c / 16))
                      (String (upperhex (byte_of c mod 16)) (QueryEscape tl)))
      else String c (QueryEscape tl)
  end.

Fixpoint insert_sorted (p : string * list string) (l : list (string * list string))
  : list (string * list string) :=
  match l with
  | [] => [p]
  | q :: l' => if String.leb (fst p) (fst q) then p :: l else q :: insert_sorted p l'
  end.

(** [func (v Values) Encode() string]: the pairs [key=value], keys sorted,
    joined by [&]. *)
Definition Values_Encode (v : Values) : string :=
  let sorted := foldr insert_sorted [] (map_to_list v) in
  let pairs :=
    flat_map (fun '(k, vs) => map (fun x => QueryEscape k +:+ "=" +:+ QueryEscape x) vs)
      sorted in
  String.concat "&" pairs.

(** ** What the package takes from elsewhere

    [time.Time] and [float64] with the way encoding/json reads and writes
    them; the types [GeoWaypoint] and [RegionDefinition] of the package,
    whose declarations (and so whose wire names) are in other files;
    [fmt]'s verb [%v] on a [float64]; [url.URL] and its [Parse] method;
    [context.Context], the request type of the transport collaborator and
    the state of whatever the collaborator talks to; [TransportMode], its
    [String] method and the two tokens [Routes] refuses, declared in
    another file of the package. *)
Class Env : Type := Build_Env {
  time_Time : Type;
  time_Time_t : GoType time_Time;
  float64_t : GoType float64;
  GeoWaypoint_t : GoType GeoWaypoint;
  RegionDefinition : Type;
  RegionDefinition_t : GoType RegionDefinition;
  Sprint_v : float64 -> string;
  URL : Type;
  URL_Parse : URL -> string -> error + URL;
  context_Context : Type;
  Request : Type;
  World : Type;
  TransportMode : Type;
  TransportMode_String : TransportMode -> string;
  invalid : string;
  unspecified : string;
}.

Section Model.

Context {env : Env}.

(** Summary contains the duration and length info. *)
Record Summary : Type := Build_Summary {
  Summary_Duration : int32;
  Summary_Length : int32;
  Summary_BaseDuration : int32;
}.

Definition Summary_set_Duration (v : int32) (s : Summary) : Summary :=
  Build_Summary v (Summary_Length s) (Summary_BaseDuration s).
Definition Summary_set_Length (v : int32) (s : Summary) : Summary :=
  Build_Summary (Summary_Duration s) v (Summary_BaseDuration s).
Definition Summary_set_BaseDuration (v : int32) (s : Summary) : Summary :=
  Build_Summary (Summary_Duration s) (Summary_Length s) v.

Definition Summary_fields : list (field Summary) :=
  [ Field "Duration" (js "json:'duration'") int32_t Summary_Duration Summary_set_Duration;
    Field "Length" (js "json:'length'") int32_t Summary_Length Summary_set_Length;
    Field "BaseDuration" (js "json:'baseDuration'") int32_t Summary_BaseDuration Summary_set_BaseDuration ].

Definition Summary_zero : Summary :=
  Build_Summary (zero int32_t) (zero int32_t) (zero int32_t).

Definition Summary_t : GoType Summary := struct_t "routingv8.Summary" Summary_zero Summary_fields.

(** Place with lat and long info on where the place is. *)
Record Place : Type := Build_Place {
  Place_Type : string;
  Place_Location : GeoWaypoint;
  Place_OriginalLocation : GeoWaypoint;
}.

Definition Place_set_Type (v : string) (s : Place) : Place :=
  Build_Place v (Place_Location s) (Place_OriginalLocation s).
Definition Place_set_Location (v : GeoWaypoint) (s : Place) : Place :=
  Build_Place (Place_Type s) v (Place_OriginalLocation s).
Definition Place_set_OriginalLocation (v : GeoWaypoint) (s : Place) : Place :=
  Build_Place (Place_Type s) (Place_Location s) v.

Definition Place_fields : list (field Place) :=
  [ Field "Type" (js "json:'type'") string_t Place_Type Place_set_Type;
    Field "Location" (js "json:'location'") GeoWaypoint_t Place_Location Place_set_Location;
    Field "OriginalLocation" (js "json:'originalLocation'") GeoWaypoint_t Place_OriginalLocation Place_set_OriginalLocation ].

Definition Place_zero : Place :=
  Build_Place (zero string_t) (zero GeoWaypoint_t) (zero GeoWaypoint_t).

Definition Place_t : GoType Place := struct_t "routingv8.Place" Place_zero Place_fields.

(** Time and place of a departure or an arrival. *)
Record RoutePlace : Type := Build_RoutePlace {
  RoutePlace_Time : time_Time;
  RoutePlace_Place : Place;
}.

Definition RoutePlace_set_Time (v : time_Time) (s : RoutePlace) : RoutePlace :=
  Build_RoutePlace v (RoutePlace_Place s).
Definition RoutePlace_set_Place (v : Place) (s : RoutePlace) : RoutePlace :=
  Build_RoutePlace (RoutePlace_Time s) v.

Definition RoutePlace_fields : list (field RoutePlace) :=
  [ Field "Time" (js "json:'time'") time_Time_t RoutePlace_Time RoutePlace_set_Time;
    Field "Place" (js "json:'place'") Place_t RoutePlace_Place RoutePlace_set_Place ].

Definition RoutePlace_zero : RoutePlace :=
  Build_RoutePlace (zero time_Time_t) (zero Place_t).

Definition RoutePlace_t : GoType RoutePlace := struct_t "routingv8.RoutePlace" RoutePlace_zero RoutePlace_fields.

(** A span of a section; the commented-out fields of the source are absent. *)
Record Span : Type := Build_Span {
  Span_Offset : int;
  Span_Length : int;
  Span_Duration : int;
  Span_SpeedLimit : float64;
}.

Definition Span_set_Offset (v : int) (s : Span) : Span :=
  Build_Span v (Span_Length s) (Span_Duration s) (Span_SpeedLimit s).
Definition Span_set_Length (v : int) (s : Span) : Span :=
  Build_Span (Span_Offset s) v (Span_Duration s) (Span_SpeedLimit s).
Definition Span_set_Duration (v : int) (s : Span) : Span :=
  Build_Span (Span_Offset s) (Span_Length s) v (Span_SpeedLimit s).
Definition Span_set_SpeedLimit (v : float64) (s : Span) : Span :=
  Build_Span (Span_Offset s) (Span_Length s) (Span_Duration s) v.

Definition Span_fields : list (field Span) :=
  [ Field "Offset" (js "json:'offset'") int_t Span_Offset Span_set_Offset;
    Field "Length" (js "json:'length'") int_t Span_Length Span_set_Length;
    Field "Duration" (js "json:'duration'") int_t Span_Duration Span_set_Duration;
    Field "SpeedLimit" (js "json:'speedLimit,omitempty'") float64_t Span_SpeedLimit Span_set_SpeedLimit ].

Definition Span_zero : Span :=
  Build_Span (zero int_t) (zero int_t) (zero int_t) (zero float64_t).

Definition Span_t : GoType Span := struct_t "routingv8.Span" Span_zero Span_fields.

(** A detail of a notice. *)
Record NoticeDetail : Type := Build_NoticeDetail {
  NoticeDetail_Type : string;
  NoticeDetail_Cause : string;
  NoticeDetail_MaxGrossWeight : int;
}.

Definition NoticeDetail_set_Type (v : string) (s : NoticeDetail) : NoticeDetail :=
  Build_NoticeDetail v (NoticeDetail_Cause s) (NoticeDetail_MaxGrossWeight s).
Definition NoticeDetail_set_Cause (v : string) (s : NoticeDetail) : NoticeDetail :=
  Build_NoticeDetail (NoticeDetail_Type s) v (NoticeDetail_MaxGrossWeight s).
Definition NoticeDetail_set_MaxGrossWeight (v : int) (s : NoticeDetail) : NoticeDetail :=
  Build_NoticeDetail (NoticeDetail_Type s) (NoticeDetail_Cause s) v.

Definition NoticeDetail_fields : list (field NoticeDetail) :=
  [ Field "Type" (js "json:'type'") string_t NoticeDetail_Type NoticeDetail_set_Type;
    Field "Cause" (js "json:'cause'") string_t NoticeDetail_Cause NoticeDetail_set_Cause;
    Field "MaxGrossWeight" (js "json:'maxGrossWeight'") int_t NoticeDetail_MaxGrossWeight NoticeDetail_set_MaxGrossWeight ].

Definition NoticeDetail_zero : NoticeDetail :=
  Build_NoticeDetail (zero string_t) (zero string_t) (zero int_t).

Definition NoticeDetail_t : GoType NoticeDetail := struct_t "routingv8.NoticeDetail" NoticeDetail_zero NoticeDetail_fields.

(** A notice attached to a section.  The tag of [Details] is as in the source. *)
Record Notice : Type := Build_Notice {
  Notice_Title : string;
  Notice_Code : string;
  Notice_Severity : string;
  Notice_Details : slice NoticeDetail;
}.

Definition Notice_set_Title (v : string) (s : Notice) : Notice :=
  Build_Notice v (Notice_Code s) (Notice_Severity s) (Notice_Details s).
Definition Notice_set_Code (v : string) (s : Notice) : Notice :=
  Build_Notice (Notice_Title s) v (Notice_Severity s) (Notice_Details s).
Definition Notice_set_Severity (v : string) (s : Notice) : Notice :=
  Build_Notice (Notice_Title s) (Notice_Code s) v (Notice_Details s).
Definition Notice_set_Details (v : slice NoticeDetail) (s : Notice) : Notice :=
  Build_Notice (Notice_Title s) (Notice_Code s) (Notice_Severity s) v.

Definition Notice_fields : list (field Notice) :=
  [ Field "Title" (js "json:'title'") string_t Notice_Title Notice_set_Title;
    Field "Code" (js "json:'code'") string_t Notice_Code Notice_set_Code;
    Field "Severity" (js "json:'severity'") string_t Notice_Severity Notice_set_Severity;
    Field "Details" (js "jsopn:'details'") (slice_t NoticeDetail_t) Notice_Details Notice_set_Details ].

Definition Notice_zero : Notice :=
  Build_Notice (zero string_t) (zero string_t) (zero string_t) (zero (slice_t NoticeDetail_t)).

Definition Notice_t : GoType Notice := struct_t "routingv8.Notice" Notice_zero Notice_fields.

(** The transport of a section. *)
Record Transport : Type := Build_Transport {
  Transport_Mode : string;
}.

Definition Transport_set_Mode (v : string) (s : Transport) : Transport :=
  Build_Transport v.

Definition Transport_fields : list (field Transport) :=
  [ Field "Mode" (js "json:'mode'") string_t Transport_Mode Transport_set_Mode ].

Definition Transport_zero : Transport :=
  Build_Transport (zero string_t).

Definition Transport_t : GoType Transport := struct_t "routingv8.Transport" Transport_zero Transport_fields.

(** A traffic incident. *)
Record Incident : Type := Build_Incident {
  Incident_Type : string;
  Incident_Criticality : string;
  Incident_ValidFrom : time_Time;
  Incident_ValidUntil : time_Time;
  Incident_Description : string;
}.

Definition Incident_set_Type (v : string) (s : Incident) : Incident :=
  Build_Incident v (Incident_Criticality s) (Incident_ValidFrom s) (Incident_ValidUntil s) (Incident_Description s).
Definition Incident_set_Criticality (v : string) (s : Incident) : Incident :=
  Build_Incident (Incident_Type s) v (Incident_ValidFrom s) (Incident_ValidUntil s) (Incident_Description s).
Definition Incident_set_ValidFrom (v : time_Time) (s : Incident) : Incident :=
  Build_Incident (Incident_Type s) (Incident_Criticality s) v (Incident_ValidUntil s) (Incident_Description s).
Definition Incident_set_ValidUntil (v : time_Time) (s : Incident) : Incident :=
  Build_Incident (Incident_Type s) (Incident_Criticality s) (Incident_ValidFrom s) v (Incident_Description s).
Definition Incident_set_Description (v : string) (s : Incident) : Incident :=
  Build_Incident (Incident_Type s) (Incident_Criticality s) (Incident_ValidFrom s) (Incident_ValidUntil s) v.

Definition Incident_fields : list (field Incident) :=
  [ Field "Type" (js "json:'type'") string_t Incident_Type Incident_set_Type;
    Field "Criticality" (js "json:'criticality'") string_t Incident_Criticality Incident_set_Criticality;
    Field "ValidFrom" (js "json:'validFrom'") time_Time_t Incident_ValidFrom Incident_set_ValidFrom;
    Field "ValidUntil" (js "json:'validUntil'") time_Time_t Incident_ValidUntil Incident_set_ValidUntil;
    Field "Description" (js "json:'description'") string_t Incident_Description Incident_set_Description ].

Definition Incident_zero : Incident :=
  Build_Incident (zero string_t) (zero string_t) (zero time_Time_t) (zero time_Time_t) (zero string_t).

Definition Incident_t : GoType Incident := struct_t "routingv8.Incident" Incident_zero Incident_fields.

(** A price. *)
Record Price : Type := Build_Price {
  Price_Type : string;
  Price_Currency : string;
  Price_Value : float64;
}.

Definition Price_set_Type (v : string) (s : Price) : Price :=
  Build_Price v (Price_Currency s) (Price_Value s).
Definition Price_set_Currency (v : string) (s : Price) : Price :=
  Build_Price (Price_Type s) v (Price_Value s).
Definition Price_set_Value (v : float64) (s : Price) : Price :=
  Build_Price (Price_Type s) (Price_Currency s) v.

Definition Price_fields : list (field Price) :=
  [ Field "Type" (js "json:'type'") string_t Price_Type Price_set_Type;
    Field "Currency" (js "json:'currency'") string_t Price_Currency Price_set_Currency;
    Field "Value" (js "json:'value'") float64_t Price_Value Price_set_Value ].

Definition Price_zero : Price :=
  Build_Price (zero string_t) (zero string_t) (zero float64_t).

Definition Price_t : GoType Price := struct_t "routingv8.Price" Price_zero Price_fields.

(** A fare of a toll. *)
Record Fare : Type := Build_Fare {
  Fare_ID : string;
  Fare_Name : string;
  Fare_Price : Price;
  Fare_ConvertedPrice : Price;
  Fare_Reason : string;
  Fare_PaymentMethods : slice string;
}.

Definition Fare_set_ID (v : string) (s : Fare) : Fare :=
  Build_Fare v (Fare_Name s) (Fare_Price s) (Fare_ConvertedPrice s) (Fare_Reason s) (Fare_PaymentMethods s).
Definition Fare_set_Name (v : string) (s : Fare) : Fare :=
  Build_Fare (Fare_ID s) v (Fare_Price s) (Fare_ConvertedPrice s) (Fare_Reason s) (Fare_PaymentMethods s).
Definition Fare_set_Price (v : Price) (s : Fare) : Fare :=
  Build_Fare (Fare_ID s) (Fare_Name s) v (Fare_ConvertedPrice s) (Fare_Reason s) (Fare_PaymentMethods s).
Definition Fare_set_ConvertedPrice (v : Price) (s : Fare) : Fare :=
  Build_Fare (Fare_ID s) (Fare_Name s) (Fare_Price s) v (Fare_Reason s) (Fare_PaymentMethods s).
Definition Fare_set_Reason (v : string) (s : Fare) : Fare :=
  Build_Fare (Fare_ID s) (Fare_Name s) (Fare_Price s) (Fare_ConvertedPrice s) v (Fare_PaymentMethods s).
Definition Fare_set_PaymentMethods (v : slice string) (s : Fare) : Fare :=
  Build_Fare (Fare_ID s) (Fare_Name s) (Fare_Price s) (Fare_ConvertedPrice s) (Fare_Reason s) v.

Definition Fare_fields : list (field Fare) :=
  [ Field "ID" (js "json:'id'") string_t Fare_ID Fare_set_ID;
    Field "Name" (js "json:'name'") string_t Fare_Name Fare_set_Name;
    Field "Price" (js "json:'price'") Price_t Fare_Price Fare_set_Price;
    Field "ConvertedPrice" (js "json:'convertedPrice'") Price_t Fare_ConvertedPrice Fare_set_ConvertedPrice;
    Field "Reason" (js "json:'reason'") string_t Fare_Reason Fare_set_Reason;
    Field "PaymentMethods" (js "json:'paymentMethods'") (slice_t string_t) Fare_PaymentMethods Fare_set_PaymentMethods ].

Definition Fare_zero : Fare :=
  Build_Fare (zero string_t) (zero string_t) (zero Price_t) (zero Price_t) (zero string_t) (zero (slice_t string_t)).

Definition Fare_t : GoType Fare := struct_t "routingv8.Fare" Fare_zero Fare_fields.

(** Where a toll is collected. *)
Record TollCollectionLocation : Type := Build_TollCollectionLocation {
  TollCollectionLocation_Name : string;
  TollCollectionLocation_Location : GeoWaypoint;
}.

Definition TollCollectionLocation_set_Name (v : string) (s : TollCollectionLocation) : TollCollectionLocation :=
  Build_TollCollectionLocation v (TollCollectionLocation_Location s).
Definition TollCollectionLocation_set_Location (v : GeoWaypoint) (s : TollCollectionLocation) : TollCollectionLocation :=
  Build_TollCollectionLocation (TollCollectionLocation_Name s) v.

Definition TollCollectionLocation_fields : list (field TollCollectionLocation) :=
  [ Field "Name" (js "json:'name'") string_t TollCollectionLocation_Name TollCollectionLocation_set_Name;
    Field "Location" (js "json:'location'") GeoWaypoint_t TollCollectionLocation_Location TollCollectionLocation_set_Location ].

Definition TollCollectionLocation_zero : TollCollectionLocation :=
  Build_TollCollectionLocation (zero string_t) (zero GeoWaypoint_t).

Definition TollCollectionLocation_t : GoType TollCollectionLocation := struct_t "routingv8.TollCollectionLocation" TollCollectionLocation_zero TollCollectionLocation_fields.

(** A toll. *)
Record Toll : Type := Build_Toll {
  Toll_CountryCode : string;
  Toll_TollSystemRef : int;
  Toll_TollSystem : string;
  Toll_Fares : slice Fare;
  Toll_TollCollectionLocations : slice TollCollectionLocation;
}.

Definition Toll_set_CountryCode (v : string) (s : Toll) : Toll :=
  Build_Toll v (Toll_TollSystemRef s) (Toll_TollSystem s) (Toll_Fares s) (Toll_TollCollectionLocations s).
Definition Toll_set_TollSystemRef (v : int) (s : Toll) : Toll :=
  Build_Toll (Toll_CountryCode s) v (Toll_TollSystem s) (Toll_Fares s) (Toll_TollCollectionLocations s).
Definition Toll_set_TollSystem (v : string) (s : Toll) : Toll :=
  Build_Toll (Toll_CountryCode s) (Toll_TollSystemRef s) v (Toll_Fares s) (Toll_TollCollectionLocations s).
Definition Toll_set_Fares (v : slice Fare) (s : Toll) : Toll :=
  Build_Toll (Toll_CountryCode s) (Toll_TollSystemRef s) (Toll_TollSystem s) v (Toll_TollCollectionLocations s).
Definition Toll_set_TollCollectionLocations (v : slice TollCollectionLocation) (s : Toll) : Toll :=
  Build_Toll (Toll_CountryCode s) (Toll_TollSystemRef s) (Toll_TollSystem s) (Toll_Fares s) v.

Definition Toll_fields : list (field Toll) :=
  [ Field "CountryCode" (js "json:'countryCode'") string_t Toll_CountryCode Toll_set_CountryCode;
    Field "TollSystemRef" (js "json:'tollSystemRef'") int_t Toll_TollSystemRef Toll_set_TollSystemRef;
    Field "TollSystem" (js "json:'tollSystem'") string_t Toll_TollSystem Toll_set_TollSystem;
    Field "Fares" (js "json:'fares'") (slice_t Fare_t) Toll_Fares Toll_set_Fares;
    Field "TollCollectionLocations" (js "json:'tollCollectionLocations'") (slice_t TollCollectionLocation_t) Toll_TollCollectionLocations Toll_set_TollCollectionLocations ].

Definition Toll_zero : Toll :=
  Build_Toll (zero string_t) (zero int_t) (zero string_t) (zero (slice_t Fare_t)) (zero (slice_t TollCollectionLocation_t)).

Definition Toll_t : GoType Toll := struct_t "routingv8.Toll" Toll_zero Toll_fields.

(** A toll system. *)
Record TollSystem : Type := Build_TollSystem {
  TollSystem_ID : int;
  TollSystem_Name : string;
  TollSystem_LanguageCode : string;
}.

Definition TollSystem_set_ID (v : int) (s : TollSystem) : TollSystem :=
  Build_TollSystem v (TollSystem_Name s) (TollSystem_LanguageCode s).
Definition TollSystem_set_Name (v : string) (s : TollSystem) : TollSystem :=
  Build_TollSystem (TollSystem_ID s) v (TollSystem_LanguageCode s).
Definition TollSystem_set_LanguageCode (v : string) (s : TollSystem) : TollSystem :=
  Build_TollSystem (TollSystem_ID s) (TollSystem_Name s) v.

Definition TollSystem_fields : list (field TollSystem) :=
  [ Field "ID" (js "json:'id'") int_t TollSystem_ID TollSystem_set_ID;
    Field "Name" (js "json:'name'") string_t TollSystem_Name TollSystem_set_Name;
    Field "LanguageCode" (js "json:'languageCode'") string_t TollSystem_LanguageCode TollSystem_set_LanguageCode ].

Definition TollSystem_zero : TollSystem :=
  Build_TollSystem (zero int_t) (zero string_t) (zero string_t).

Definition TollSystem_t : GoType TollSystem := struct_t "routingv8.TollSystem" TollSystem_zero TollSystem_fields.

(** Section with the information of the departure, arrival location and summary. *)
Record Section : Type := Build_Section {
  Section_ID : string;
  Section_Type : string;
  Section_Departure : RoutePlace;
  Section_Arrival : RoutePlace;
  Section_Summary : Summary;
  Section_TravelSummary : Summary;
  Section_Polyline : string;
  Section_Spans : slice Span;
  Section_Notices : slice Notice;
  Section_Language : string;
  Section_Transport : Transport;
  Section_Incidents : slice Incident;
  Section_Tolls : slice Toll;
  Section_TollSystems : slice TollSystem;
}.

Definition Section_set_ID (v : string) (s : Section) : Section :=
  Build_Section v (Section_Type s) (Section_Departure s) (Section_Arrival s) (Section_Summary s) (Section_TravelSummary s) (Section_Polyline s) (Section_Spans s) (Section_Notices s) (Section_Language s) (Section_Transport s) (Section_Incidents s) (Section_Tolls s) (Section_TollSystems s).
Definition Section_set_Type (v : string) (s : Section) : Section :=
  Build_Section (Section_ID s) v (Section_Departure s) (Section_Arrival s) (Section_Summary s) (Section_TravelSummary s) (Section_Polyline s) (Section_Spans s) (Section_Notices s) (Section_Language s) (Section_Transport s) (Section_Incidents s) (Section_Tolls s) (Section_TollSystems s).
Definition Section_set_Departure (v : RoutePlace) (s : Section) : Section :=
  Build_Section (Section_ID s) (Section_Type s) v (Section_Arrival s) (Section_Summary s) (Section_TravelSummary s) (Section_Polyline s) (Section_Spans s) (Section_Notices s) (Section_Language s) (Section_Transport s) (Section_Incidents s) (Section_Tolls s) (Section_TollSystems s).
Definition Section_set_Arrival (v : RoutePlace) (s : Section) : Section :=
  Build_Section (Section_ID s) (Section_Type s) (Section_Departure s) v (Section_Summary s) (Section_TravelSummary s) (Section_Polyline s) (Section_Spans s) (Section_Notices s) (Section_Language s) (Section_Transport s) (Section_Incidents s) (Section_Tolls s) (Section_TollSystems s).
Definition Section_set_Summary (v : Summary) (s : Section) : Section :=
  Build_Section (Section_ID s) (Section_Type s) (Section_Departure s) (Section_Arrival s) v (Section_TravelSummary s) (Section_Polyline s) (Section_Spans s) (Section_Notices s) (Section_Language s) (Section_Transport s) (Section_Incidents s) (Section_Tolls s) (Section_TollSystems s).
Definition Section_set_TravelSummary (v : Summary) (s : Section) : Section :=
  Build_Section (Section_ID s) (Section_Type s) (Section_Departure s) (Section_Arrival s) (Section_Summary s) v (Section_Polyline s) (Section_Spans s) (Section_Notices s) (Section_Language s) (Section_Transport s) (Section_Incidents s) (Section_Tolls s) (Section_TollSystems s).
Definition Section_set_Polyline (v : string) (s : Section) : Section :=
  Build_Section (Section_ID s) (Section_Type s) (Section_Departure s) (Section_Arrival s) (Section_Summary s) (Section_TravelSummary s) v (Section_Spans s) (Section_Notices s) (Section_Language s) (Section_Transport s) (Section_Incidents s) (Section_Tolls s) (Section_TollSystems s).
Definition Section_set_Spans (v : slice Span) (s : Section) : Section :=
  Build_Section (Section_ID s) (Section_Type s) (Section_Departure s) (Section_Arrival s) (Section_Summary s) (Section_TravelSummary s) (Section_Polyline s) v (Section_Notices s) (Section_Language s) (Section_Transport s) (Section_Incidents s) (Section_Tolls s) (Section_TollSystems s).
Definition Section_set_Notices (v : slice Notice) (s : Section) : Section :=
  Build_Section (Section_ID s) (Section_Type s) (Section_Departure s) (Section_Arrival s) (Section_Summary s) (Section_TravelSummary s) (Section_Polyline s) (Section_Spans s) v (Section_Language s) (Section_Transport s) (Section_Incidents s) (Section_Tolls s) (Section_TollSystems s).
Definition Section_set_Language (v : string) (s : Section) : Section :=
  Build_Section (Section_ID s) (Section_Type s) (Section_Departure s) (Section_Arrival s) (Section_Summary s) (Section_TravelSummary s) (Section_Polyline s) (Section_Spans s) (Section_Notices s) v (Section_Transport s) (Section_Incidents s) (Section_Tolls s) (Section_TollSystems s).
Definition Section_set_Transport (v : Transport) (s : Section) : Section :=
  Build_Section (Section_ID s) (Section_Type s) (Section_Departure s) (Section_Arrival s) (Section_Summary s) (Section_TravelSummary s) (Section_Polyline s) (Section_Spans s) (Section_Notices s) (Section_Language s) v (Section_Incidents s) (Section_Tolls s) (Section_TollSystems s).
Definition Section_set_Incidents (v : slice Incident) (s : Section) : Section :=
  Build_Section (Section_ID s) (Section_Type s) (Section_Departure s) (Section_Arrival s) (Section_Summary s) (Section_TravelSummary s) (Section_Polyline s) (Section_Spans s) (Section_Notices s) (Section_Language s) (Section_Transport s) v (Section_Tolls s) (Section_TollSystems s).
Definition Section_set_Tolls (v : slice Toll) (s : Section) : Section :=
  Build_Section (Section_ID s) (Section_Type s) (Section_Departure s) (Section_Arrival s) (Section_Summary s) (Section_TravelSummary s) (Section_Polyline s) (Section_Spans s) (Section_Notices s) (Section_Language s) (Section_Transport s) (Section_Incidents s) v (Section_TollSystems s).
Definition Section_set_TollSystems (v : slice TollSystem) (s : Section) : Section :=
  Build_Section (Section_ID s) (Section_Type s) (Section_Departure s) (Section_Arrival s) (Section_Summary s) (Section_TravelSummary s) (Section_Polyline s) (Section_Spans s) (Section_Notices s) (Section_Language s) (Section_Transport s) (Section_Incidents s) (Section_Tolls s) v.

Definition Section_fields : list (field Section) :=
  [ Field "ID" (js "json:'id'") string_t Section_ID Section_set_ID;
    Field "Type" (js "json:'type'") string_t Section_Type Section_set_Type;
    Field "Departure" (js "json:'departure'") RoutePlace_t Section_Departure Section_set_Departure;
    Field "Arrival" (js "json:'arrival'") RoutePlace_t Section_Arrival Section_set_Arrival;
    Field "Summary" (js "json:'summary'") Summary_t Section_Summary Section_set_Summary;
    Field "TravelSummary" (js "json:'travelSummary'") Summary_t Section_TravelSummary Section_set_TravelSummary;
    Field "Polyline" (js "json:'polyline'") string_t Section_Polyline Section_set_Polyline;
    Field "Spans" (js "json:'spans'") (slice_t Span_t) Section_Spans Section_set_Spans;
    Field "Notices" (js "json:'notices'") (slice_t Notice_t) Section_Notices Section_set_Notices;
    Field "Language" (js "json:'language'") string_t Section_Language Section_set_Language;
    Field "Transport" (js "json:'transport'") Transport_t Section_Transport Section_set_Transport;
    Field "Incidents" (js "json:'incidents'") (slice_t Incident_t) Section_Incidents Section_set_Incidents;
    Field "Tolls" (js "json:'tolls'") (slice_t Toll_t) Section_Tolls Section_set_Tolls;
    Field "TollSystems" (js "json:'tollSystems'") (slice_t TollSystem_t) Section_TollSystems Section_set_TollSystems ].

Definition Section_zero : Section :=
  Build_Section (zero string_t) (zero string_t) (zero RoutePlace_t) (zero RoutePlace_t) (zero Summary_t) (zero Summary_t) (zero string_t) (zero (slice_t Span_t)) (zero (slice_t Notice_t)) (zero string_t) (zero Transport_t) (zero (slice_t Incident_t)) (zero (slice_t Toll_t)) (zero (slice_t TollSystem_t)).

Definition Section_t : GoType Section := struct_t "routingv8.Section" Section_zero Section_fields.

(** Route contains all the sections of a route. *)
Record Route : Type := Build_Route {
  Route_ID : string;
  Route_Sections : slice Section;
}.

Definition Route_set_ID (v : string) (s : Route) : Route :=
  Build_Route v (Route_Sections s).
Definition Route_set_Sections (v : slice Section) (s : Route) : Route :=
  Build_Route (Route_ID s) v.

Definition Route_fields : list (field Route) :=
  [ Field "ID" (js "json:'id'") string_t Route_ID Route_set_ID;
    Field "Sections" (js "json:'sections'") (slice_t Section_t) Route_Sections Route_set_Sections ].

Definition Route_zero : Route :=
  Build_Route (zero string_t) (zero (slice_t Section_t)).

Definition Route_t : GoType Route := struct_t "routingv8.Route" Route_zero Route_fields.

(** RoutesResponse contains the possible routes. *)
Record RoutesResponse : Type := Build_RoutesResponse {
  RoutesResponse_Routes : slice Route;
  RoutesResponse_ErrorCodes : ErrorCodes;
}.

Definition RoutesResponse_set_Routes (v : slice Route) (s : RoutesResponse) : RoutesResponse :=
  Build_RoutesResponse v (RoutesResponse_ErrorCodes s).
Definition RoutesResponse_set_ErrorCodes (v : ErrorCodes) (s : RoutesResponse) : RoutesResponse :=
  Build_RoutesResponse (RoutesResponse_Routes s) v.

Definition RoutesResponse_fields : list (field RoutesResponse) :=
  [ Field "Routes" (js "json:'routes'") (slice_t Route_t) RoutesResponse_Routes RoutesResponse_set_Routes;
    Field "ErrorCodes" (js "json:'errorCodes'") ErrorCodes_t RoutesResponse_ErrorCodes RoutesResponse_set_ErrorCodes ].

Definition RoutesResponse_zero : RoutesResponse :=
  Build_RoutesResponse (zero (slice_t Route_t)) (zero ErrorCodes_t).

Definition RoutesResponse_t : GoType RoutesResponse := struct_t "routingv8.RoutesResponse" RoutesResponse_zero RoutesResponse_fields.

(** MatrixResponse contains the calculated route matrix. *)
Record MatrixResponse : Type := Build_MatrixResponse {
  MatrixResponse_NumOrigins : int;
  MatrixResponse_NumDestinations : int;
  MatrixResponse_TravelTimes : slice int32;
  MatrixResponse_Distances : slice int32;
  MatrixResponse_ErrorCodes : ErrorCodes;
}.

Definition MatrixResponse_set_NumOrigins (v : int) (s : MatrixResponse) : MatrixResponse :=
  Build_MatrixResponse v (MatrixResponse_NumDestinations s) (MatrixResponse_TravelTimes s) (MatrixResponse_Distances s) (MatrixResponse_ErrorCodes s).
Definition MatrixResponse_set_NumDestinations (v : int) (s : MatrixResponse) : MatrixResponse :=
  Build_MatrixResponse (MatrixResponse_NumOrigins s) v (MatrixResponse_TravelTimes s) (MatrixResponse_Distances s) (MatrixResponse_ErrorCodes s).
Definition MatrixResponse_set_TravelTimes (v : slice int32) (s : MatrixResponse) : MatrixResponse :=
  Build_MatrixResponse (MatrixResponse_NumOrigins s) (MatrixResponse_NumDestinations s) v (MatrixResponse_Distances s) (MatrixResponse_ErrorCodes s).
Definition MatrixResponse_set_Distances (v : slice int32) (s : MatrixResponse) : MatrixResponse :=
  Build_MatrixResponse (MatrixResponse_NumOrigins s) (MatrixResponse_NumDestinations s) (MatrixResponse_TravelTimes s) v (MatrixResponse_ErrorCodes s).
Definition MatrixResponse_set_ErrorCodes (v : ErrorCodes) (s : MatrixResponse) : MatrixResponse :=
  Build_MatrixResponse (MatrixResponse_NumOrigins s) (MatrixResponse_NumDestinations s) (MatrixResponse_TravelTimes s) (MatrixResponse_Distances s) v.

Definition MatrixResponse_fields : list (field MatrixResponse) :=
  [ Field "NumOrigins" (js "json:'numOrigins'") int_t MatrixResponse_NumOrigins MatrixResponse_set_NumOrigins;
    Field "NumDestinations" (js "json:'numDestinations'") int_t MatrixResponse_NumDestinations MatrixResponse_set_NumDestinations;
    Field "TravelTimes" (js "json:'travelTimes'") (slice_t int32_t) MatrixResponse_TravelTimes MatrixResponse_set_TravelTimes;
    Field "Distances" (js "json:'distances'") (slice_t int32_t) MatrixResponse_Distances MatrixResponse_set_Distances;
    Field "ErrorCodes" (js "json:'errorCodes'") ErrorCodes_t MatrixResponse_ErrorCodes MatrixResponse_set_ErrorCodes ].

Definition MatrixResponse_zero : MatrixResponse :=
  Build_MatrixResponse (zero int_t) (zero int_t) (zero (slice_t int32_t)) (zero (slice_t int32_t)) (zero ErrorCodes_t).

Definition MatrixResponse_t : GoType MatrixResponse := struct_t "routingv8.MatrixResponse" MatrixResponse_zero MatrixResponse_fields.

(** CalculateMatrixResponse is used to provide results of a matrix calculation. *)
Record CalculateMatrixResponse : Type := Build_CalculateMatrixResponse {
  CalculateMatrixResponse_MatrixID : string;
  CalculateMatrixResponse_Matrix : MatrixResponse;
  CalculateMatrixResponse_RegionDefinition : RegionDefinition;
}.

Definition CalculateMatrixResponse_set_MatrixID (v : string) (s : CalculateMatrixResponse) : CalculateMatrixResponse :=
  Build_CalculateMatrixResponse v (CalculateMatrixResponse_Matrix s) (CalculateMatrixResponse_RegionDefinition s).
Definition CalculateMatrixResponse_set_Matrix (v : MatrixResponse) (s : CalculateMatrixResponse) : CalculateMatrixResponse :=
  Build_CalculateMatrixResponse (CalculateMatrixResponse_MatrixID s) v (CalculateMatrixResponse_RegionDefinition s).
Definition CalculateMatrixResponse_set_RegionDefinition (v : RegionDefinition) (s : CalculateMatrixResponse) : CalculateMatrixResponse :=
  Build_CalculateMatrixResponse (CalculateMatrixResponse_MatrixID s) (CalculateMatrixResponse_Matrix s) v.

Definition CalculateMatrixResponse_fields : list (field CalculateMatrixResponse) :=
  [ Field "MatrixID" (js "json:'matrixId'") string_t CalculateMatrixResponse_MatrixID CalculateMatrixResponse_set_MatrixID;
    Field "Matrix" (js "json:'matrix'") MatrixResponse_t CalculateMatrixResponse_Matrix CalculateMatrixResponse_set_Matrix;
    Field "RegionDefinition" (js "json:'regionDefinition'") RegionDefinition_t CalculateMatrixResponse_RegionDefinition CalculateMatrixResponse_set_RegionDefinition ].

Definition CalculateMatrixResponse_zero : CalculateMatrixResponse :=
  Build_CalculateMatrixResponse (zero string_t) (zero MatrixResponse_t) (zero RegionDefinition_t).

Definition CalculateMatrixResponse_t : GoType CalculateMatrixResponse := struct_t "routingv8.CalculateMatrixResponse" CalculateMatrixResponse_zero CalculateMatrixResponse_fields.

(** HereErrorResponse is returned when an error is returned from the Here Maps API. *)
Record HereErrorResponse : Type := Build_HereErrorResponse {
  HereErrorResponse_Title : string;
  HereErrorResponse_Status : int;
  HereErrorResponse_Code : string;
  HereErrorResponse_Cause : string;
  HereErrorResponse_Action : string;
}.

Definition HereErrorResponse_set_Title (v : string) (s : HereErrorResponse) : HereErrorResponse :=
  Build_HereErrorResponse v (HereErrorResponse_Status s) (HereErrorResponse_Code s) (HereErrorResponse_Cause s) (HereErrorResponse_Action s).
Definition HereErrorResponse_set_Status (v : int) (s : HereErrorResponse) : HereErrorResponse :=
  Build_HereErrorResponse (HereErrorResponse_Title s) v (HereErrorResponse_Code s) (HereErrorResponse_Cause s) (HereErrorResponse_Action s).
Definition HereErrorResponse_set_Code (v : string) (s : HereErrorResponse) : HereErrorResponse :=
  Build_HereErrorResponse (HereErrorResponse_Title s) (HereErrorResponse_Status s) v (HereErrorResponse_Cause s) (HereErrorResponse_Action s).
Definition HereErrorResponse_set_Cause (v : string) (s : HereErrorResponse) : HereErrorResponse :=
  Build_HereErrorResponse (HereErrorResponse_Title s) (HereErrorResponse_Status s) (HereErrorResponse_Code s) v (HereErrorResponse_Action s).
Definition HereErrorResponse_set_Action (v : string) (s : HereErrorResponse) : HereErrorResponse :=
  Build_HereErrorResponse (HereErrorResponse_Title s) (HereErrorResponse_Status s) (HereErrorResponse_Code s) (HereErrorResponse_Cause s) v.

Definition HereErrorResponse_fields : list (field HereErrorResponse) :=
  [ Field "Title" (js "json:'title'") string_t HereErrorResponse_Title HereErrorResponse_set_Title;
    Field "Status" (js "json:'status'") int_t HereErrorResponse_Status HereErrorResponse_set_Status;
    Field "Code" (js "json:'code'") string_t HereErrorResponse_Code HereErrorResponse_set_Code;
    Field "Cause" (js "json:'cause'") string_t HereErrorResponse_Cause HereErrorResponse_set_Cause;
    Field "Action" (js "json:'action'") string_t HereErrorResponse_Action HereErrorResponse_set_Action ].

Definition HereErrorResponse_zero : HereErrorResponse :=
  Build_HereErrorResponse (zero string_t) (zero int_t) (zero string_t) (zero string_t) (zero string_t).

Definition HereErrorResponse_t : GoType HereErrorResponse := struct_t "routingv8.HereErrorResponse" HereErrorResponse_zero HereErrorResponse_fields.

(** *** The Routes call *)

(** [RoutesRequest] is declared in another file; these are the fields
    [Routes] reads. *)
Record RoutesRequest : Type := Build_RoutesRequest {
  RoutesRequest_Origin : GeoWaypoint;
  RoutesRequest_Destination : GeoWaypoint;
  RoutesRequest_TransportMode : TransportMode;
}.

(** The transport collaborator, an interface with two methods.
    [NewRequest(ctx, u, method, query, body)] returns a request or an
    error; [Do(r, &resp)] writes into [resp] and returns an error or nil.
    Both may act on the world. *)
Record Client : Type := Build_Client {
  NewRequest : context_Context -> URL -> string -> string -> option string -> World
               -> (error + Request) * World;
  Do : Request -> RoutesResponse -> World -> (RoutesResponse * option error) * World;
}.

Record RoutingService : Type := Build_RoutingService {
  RoutingService_URL : URL;
  RoutingService_Client : Client;
}.

(** The calls made to the collaborator are recorded next to the world. *)
Inductive Call : Type :=
| CallNewRequest (ctx : context_Context) (u : URL) (method : string) (query : string)
    (body : option string)
| CallDo (r : Request).

Record State : Type := Build_State {
  world : World;
  calls : list Call;
}.

Definition Client_NewRequest (c : Client) (ctx : context_Context) (u : URL) (method query : string)
    (body : option string) (st : State) : (error + Request) * State :=
  let '(res, w) := NewRequest c ctx u method query body (world st) in
  (res, Build_State w (calls st ++ [CallNewRequest ctx u method query body])).

Definition Client_Do (c : Client) (r : Request) (resp : RoutesResponse) (st : State)
  : (RoutesResponse * option error) * State :=
  let '(res, w) := Do c r resp (world st) in
  (res, Build_State w (calls st ++ [CallDo r])).

(** The query of [Routes]: the lines from [values := make(url.Values)] to
    [values.Add("currency", "EUR")], for the transport mode token [tm]. *)
Definition Routes_values (tm : string) (req : RoutesRequest) : Values :=
  let values : Values := ∅ in
  let values :=
    Values_Add "return"
      "summary,polyline,elevation,actions,instructions,travelSummary,tolls,incidents"
      values in
  let values := Values_Add "transportMode" tm values in
  let values :=
    Values_Add "origin"
      (Sprint_v (GeoWaypoint_Lat (RoutesRequest_Origin req)) +:+ "," +:+
       Sprint_v (GeoWaypoint_Long (RoutesRequest_Origin req))) values in
  let values :=
    Values_Add "destination"
      (Sprint_v (GeoWaypoint_Lat (RoutesRequest_Destination req)) +:+ "," +:+
       Sprint_v (GeoWaypoint_Long (RoutesRequest_Destination req))) values in
  let values :=
    Values_Add "spans" "length,duration,maxSpeed,speedLimit,incidents,notices" values in
  let values := Values_Add "alternatives" "6" values in
  let values := Values_Add "currency" "EUR" values in
  values.

(** The method [Routes(ctx, req)] of [RoutingService]: the response
    pointer (nil is [None]) and the error returned, and the state after. *)
Definition Routes (s : RoutingService) (ctx : context_Context) (req : RoutesRequest) (st : State)
  : (option RoutesResponse * option error) * State :=
  let tm := TransportMode_String (RoutesRequest_TransportMode req) in
  if String.eqb tm invalid || String.eqb tm unspecified then
    ((None, Some (Errorf "invalid transportmode" [])), st)
  else
    match URL_Parse (RoutingService_URL s) "routes" with
    | inl err => ((None, Some err), st)
    | inr u =>
        let values := Routes_values tm req in
        match Client_NewRequest (RoutingService_Client s) ctx u http_MethodGet
                (Values_Encode values) None st with
        | (inl err, st1) =>
            ((None, Some (Errorf "unable to create get request: %v" [err])), st1)
        | (inr r, st1) =>
            let resp : RoutesResponse := RoutesResponse_zero in
            match Client_Do (RoutingService_Client s) r resp st1 with
            | ((_, Some err), st2) => ((None, Some err), st2)
            | ((resp, None), st2) => ((Some resp, None), st2)
            end
        end
    end.

(** A [Do] that decodes a given body into the response, as a collaborator
    backed by encoding/json does.  When the decoding fails the response is
    returned as it was: [Routes] drops it. *)
Definition decode_body (body : string) (resp : RoutesResponse) : RoutesResponse * option error :=
  match json_Unmarshal RoutesResponse_t body resp with
  | inr resp' => (resp', None)
  | inl err => (resp, Some err)
  end.

(** *** Notions used in the statements *)

(** A transport mode token that passes the check of [Routes]. *)
Definition mode_ok (tm : string) : Prop := tm <> invalid /\ tm <> unspecified.

(** The wire form of an integer. *)
Definition num (n : Z) : json := JNum (FormatInt n).

(** What a decoding step leaves behind apart from the value: the error
    that stopped it, or the saved error. *)
Definition outcome {A : Type} (r : error + (A * savedError)) : error + savedError :=
  match r with
  | inl err => inl err
  | inr (_, d) => inr d
  end.

(** Two properties all the decoders here have: whether a value is
    accepted does not depend on what the target holds, and an error once
    saved stays. *)
Record lawful {A : Type} (t : GoType A) : Prop := Lawful {
  indep : forall j a a' d, outcome (decode t j a d) = outcome (decode t j a' d);
  sticky : forall j a e a' d', decode t j a (Some e) = inr (a', d') -> d' = Some e;
}.

(** The fields of a struct are apart: writing one does not change what
    another holds; and no two have the same Go name. *)
Definition apart {S : Type} (fs : list (field S)) : Prop :=
  NoDup (map f_name fs)
  /\ Forall (fun f => Forall (fun g => f_name f <> f_name g ->
                                      forall a s, f_get f (f_set g a s) = f_get f s) fs) fs.

(** The entities of the data model, [ErrorCodes] apart: each struct type
    with its fields. *)
Record entity : Type := Entity {
  e_type : Type;
  e_t : GoType e_type;
  e_fields : list (field e_type);
}.

Definition entities : list entity :=
  [ Entity Summary Summary_t Summary_fields;
    Entity Place Place_t Place_fields;
    Entity RoutePlace RoutePlace_t RoutePlace_fields;
    Entity Span Span_t Span_fields;
    Entity NoticeDetail NoticeDetail_t NoticeDetail_fields;
    Entity Notice Notice_t Notice_fields;
    Entity Transport Transport_t Transport_fields;
    Entity Incident Incident_t Incident_fields;
    Entity Price Price_t Price_fields;
    Entity Fare Fare_t Fare_fields;
    Entity TollCollectionLocation TollCollectionLocation_t TollCollectionLocation_fields;
    Entity Toll Toll_t Toll_fields;
    Entity TollSystem TollSystem_t TollSystem_fields;
    Entity Section Section_t Section_fields;
    Entity Route Route_t Route_fields;
    Entity RoutesResponse RoutesResponse_t RoutesResponse_fields;
    Entity MatrixResponse MatrixResponse_t MatrixResponse_fields;
    Entity CalculateMatrixResponse CalculateMatrixResponse_t CalculateMatrixResponse_fields;
    Entity HereErrorResponse HereErrorResponse_t HereErrorResponse_fields ].

(** What holds of an entity: it is decoded as a struct, field by
    field; the zero value of the struct has zero fields, and the empty
    object is decoded into it without error and without a change; a field
    that no key of an object names (up to case) is left as it was by the
    decoding of the object; and an object that is decoded without error is
    still decoded without error when members are taken out of it.

    And for the members that are on the wire: every field has a wire
    name; what is stored into a field is what is read from it; a member
    under the wire name of a field (up to case) is decoded by the decoder
    of the type of the field, from the value the field holds at that
    point, and the result is stored into the field before the decoding
    goes on with the members that follow; so that, the object being
    decoded without error, the field holds in the end what its decoder
    made of the last member under its name. *)
Definition entity_ok (e : entity) : Prop :=
  let t := e_t e in
  let fs := e_fields e in
  decode t = decode_struct (type_name t) fs
  /\ Forall (fun f => f_get f (zero t) = zero (f_t f)) fs
  /\ decode t (JObj []) (zero t) None = inr (zero t, None)
  /\ (forall f kvs s d s' d',
        In f fs ->
        (forall k v, In (k, v) kvs -> folded_match k f = false) ->
        decode t (JObj kvs) s d = inr (s', d') ->
        f_get f s' = f_get f s)
  /\ (forall keep kvs s s1,
        decode t (JObj kvs) s None = inr (s1, None) ->
        exists s2, decode t (JObj (List.filter keep kvs)) s None = inr (s2, None))
  /\ (forall f, In f fs -> exists n, json_name f = Some n /\ folded_match n f = true)
  /\ (forall f a s, In f fs -> f_get f (f_set f a s) = a)
  /\ (forall f pre k v post s d,
        In f fs -> folded_match k f = true ->
        decode t (JObj (pre ++ (k, v) :: post)) s d
        = match decode t (JObj pre) s d with
          | inl err => inl err
          | inr (s1, d1) =>
              match decode (f_t f) v (f_get f s1) d1 with
              | inl err => inl err
              | inr (a, d2) => decode t (JObj post) (f_set f a s1) d2
              end
          end)
  /\ (forall f pre k v post s d s' d',
        In f fs -> folded_match k f = true ->
        (forall k' v', In (k', v') post -> folded_match k' f = false) ->
        decode t (JObj (pre ++ (k, v) :: post)) s d = inr (s', d') ->
        exists s1 d1 d2,
          decode t (JObj pre) s d = inr (s1, d1)
          /\ decode (f_t f) v (f_get f s1) d1 = inr (f_get f s', d2)).

(** An element of the wire array that is an integer: a literal that
    [strconv.ParseInt] reads as a 64-bit integer. *)
Definition integer_elem (j : json) : bool :=
  match j with
  | JNum lit => match ParseInt lit 64 with Some _ => true | None => false end
  | _ => false
  end.

(** An element that ends up as a code: an integer or [null]. *)
Definition accepted_elem (j : json) : bool :=
  match j with
  | JNull => true
  | _ => integer_elem j
  end.

(** The error the decoder saves for an element it does not accept. *)
Definition elem_error (j : json) : error :=
  UnmarshalTypeError (match j with JNum lit => "number " +:+ lit | _ => kind_of j end) "int".

(** What [json.Marshal] writes for a [[]int] that is not nil: the integers
    in decimal, separated by commas, between brackets. *)
Definition ints_text (l : list Z) : string := String.concat "," (map FormatInt l) +:+ "]".

Definition wire_ints (l : list Z) : string := String "[" (ints_text l).

(** The tokens of [ints_text]. *)
Fixpoint toks (l : list Z) : list token :=
  match l with
  | [] => [TRBrack]
  | x :: l' =>
      TNum (FormatInt x) :: match l' with
                            | [] => [TRBrack]
                            | _ => TComma :: toks l'
                            end
  end.

(** A text that starts with a comma or a closing bracket. *)
Definition delimited (rest : string) : Prop :=
  exists c tl, rest = String c tl /\ (byte_of c = 44 \/ byte_of c = 93).

(** The number of times a byte occurs in a text. *)
Fixpoint str_count (c : ascii) (s : string) : nat :=
  match s with
  | EmptyString => 0%nat
  | String a tl => ((if Ascii.eqb a c then 1 else 0) + str_count c tl)%nat
  end.

(** The code an accepted element of the wire array ends up as: the
    integer of the literal, and 0 for [null]. *)
Definition elem_code (j : json) : int :=
  match j with
  | JNum lit => default 0 (ParseInt lit 64)
  | _ => 0
  end.

(** A member of an object whose key selects a field. *)
Definition known_key {S : Type} (fs : list (field S)) (kv : string * json) : bool :=
  match find_field fs (fst kv) with
  | Some _ => true
  | None => false
  end.

(** The names of the fields on the wire, folded as the decoder folds a
    key before it compares. *)
Definition folded_names {S : Type} (fs : list (field S)) : list (option string) :=
  map (fun f => option_map foldName (json_name f)) fs.

(** Two objects with the same values in the same order, under keys that
    are the same up to case. *)
Definition same_keys (kvs kvs' : list (string * json)) : Prop :=
  Forall2 (fun kv kv' => foldName (fst kv) = foldName (fst kv') /\ snd kv = snd kv') kvs kvs'.

(** What [json.Marshal] writes for a slice of integers. *)
Definition wire_slice (v : slice Z) : json :=
  match v with
  | None => JNull
  | Some l => JArr (map num l)
  end.

End Model.

(** ** An environment to run the model in

    The model below is parameterised by what the package takes from
    elsewhere.  This is one way to fill the parameters in, used for the
    examples: a time is kept as the text it has on the wire, a number is
    read into a [float64] only on the exact path of [strconv] (a mantissa
    below 2^53 and at most 22 decimals, no exponent) and a [float64] is
    written with all the decimals it has. *)

Definition ex_Time : Type := string.

Definition ex_Time_t : GoType ex_Time :=
  MkGoType "0001-01-01T00:00:00Z" "time.Time"
    (fun j v d =>
       match j with
       | JNull => inr (v, d)
       | JStr s => inr (s, d)
       | _ => inl (OtherError "Time.UnmarshalJSON: input is not a JSON string")
       end)
    (fun v => inr (JStr v))
    (fun _ => false).

Fixpoint fixed_digits (k : nat) (n : Z) (acc : string) : string :=
  match k with
  | O => acc
  | S k' => fixed_digits k' (n / 10) (String (chr (48 + n mod 10)) acc)
  end.

Fixpoint strip_zeros (k : nat) (n : Z) : nat * Z :=
  match k with
  | O => (O, n)
  | S k' => if n mod 10 =? 0 then strip_zeros k' (n / 10) else (k, n)
  end.

(** The decimal expansion of [m * 2^e], which is finite. *)
Definition exact_decimal (m e : Z) : string :=
  if 0 <=? e then FormatInt (m * 2 ^ e)
  else
    let '(k, n) := strip_zeros (Z.to_nat (- e)) (m * 5 ^ (- e)) in
    let ip := FormatInt (n / 10 ^ Z.of_nat k) in
    match k with
    | O => ip
    | _ => ip +:+ "." +:+ fixed_digits k (n mod 10 ^ Z.of_nat k) ""
    end.

Definition ex_Sprint_v (x : float64) : string :=
  match FloatOps.Prim2SF x with
  | SpecFloat.S754_zero s => if s then "-0" else "0"
  | SpecFloat.S754_infinity s => if s then "-Inf" else "+Inf"
  | SpecFloat.S754_nan => "NaN"
  | SpecFloat.S754_finite s m e =>
      (if s then "-" else "") +:+ exact_decimal (Z.pos m) e
  end.

Definition float_of_Z (n : Z) : float64 := PrimFloat.of_uint63 (Uint63.of_Z n).

Definition ex_ParseFloat (lit : string) : option float64 :=
  let '(sg, s1) := scan_sign lit in
  let '(ip, s2) := take_digits s1 in
  let '(fr, s3) :=
    match s2 with
    | String c tl => if byte_of c =? 46 then take_digits tl else (EmptyString, s2)
    | EmptyString => (EmptyString, s2)
    end in
  match ip, s3, ParseUint_digits (ip +:+ fr) 0 with
  | String _ _, EmptyString, Some m =>
      if (m <? 2 ^ 53) && (Z.of_nat (String.length fr) <=? 22) then
        let x := PrimFloat.div (float_of_Z m) (float_of_Z (10 ^ Z.of_nat (String.length fr))) in
        Some (match sg with EmptyString => x | _ => PrimFloat.opp x end)
      else None
  | _, _, _ => None
  end.

Definition ex_float64_t : GoType float64 :=
  MkGoType PrimFloat.zero "float64"
    (fun j v d =>
       match j with
       | JNull => inr (v, d)
       | JNum lit =>
           match ex_ParseFloat lit with
           | Some x => inr (x, d)
           | None => inr (v, saveError (UnmarshalTypeError ("number " +:+ lit) "float64") d)
           end
       | _ => mismatch "float64" j v d
       end)
    (fun x => inr (JNum (ex_Sprint_v x)))
    (fun x => PrimFloat.eqb x PrimFloat.zero).

Definition GeoWaypoint_set_Lat (v : float64) (s : GeoWaypoint) : GeoWaypoint :=
  Build_GeoWaypoint v (GeoWaypoint_Long s).
Definition GeoWaypoint_set_Long (v : float64) (s : GeoWaypoint) : GeoWaypoint :=
  Build_GeoWaypoint (GeoWaypoint_Lat s) v.

Definition ex_GeoWaypoint_t : GoType GeoWaypoint :=
  struct_t "routingv8.GeoWaypoint" (Build_GeoWaypoint PrimFloat.zero PrimFloat.zero)
    [ Field "Lat" (js "json:'lat'") ex_float64_t GeoWaypoint_Lat GeoWaypoint_set_Lat;
      Field "Long" (js "json:'lng'") ex_float64_t GeoWaypoint_Long GeoWaypoint_set_Long ].

Definition ex_RegionDefinition : Type := unit.

Definition ex_RegionDefinition_t : GoType ex_RegionDefinition :=
  struct_t "routingv8.RegionDefinition" tt [].

Inductive ex_TransportMode : Type := ModeUnspecified | ModeCar | ModePedestrian | ModeInvalid.

Definition ex_TransportMode_String (m : ex_TransportMode) : string :=
  match m with
  | ModeUnspecified => "unspecified"
  | ModeCar => "car"
  | ModePedestrian => "pedestrian"
  | ModeInvalid => "invalid"
  end.

(** A base URL is kept as text and a reference is appended to it. *)
Definition ex_URL_Parse (u ref : string) : error + string :=
  match u with
  | EmptyString => inl (OtherError "parse: empty url")
  | _ => inr (u +:+ ref)
  end.

Definition ex_Env : Env :=
  Build_Env ex_Time ex_Time_t ex_float64_t ex_GeoWaypoint_t
    ex_RegionDefinition ex_RegionDefinition_t ex_Sprint_v
    string ex_URL_Parse unit string nat
    ex_TransportMode ex_TransportMode_String "invalid" "unspecified".

(** The environment of the examples, with a collaborator that builds a
    request out of its arguments and answers every request with a given
    body, counting the exchanges. *)

Definition ex_Client (body : string) : Client (env := ex_Env) :=
  Build_Client (env := ex_Env)
    (fun _ u method query _ w => (inr (method +:+ " " +:+ u +:+ "?" +:+ query), w))
    (fun _ resp w =>
       (decode_body (env := ex_Env) body resp, S w)).

(** A collaborator that cannot build a request. *)
Definition ex_Client_down : Client (env := ex_Env) :=
  Build_Client (env := ex_Env)
    (fun _ _ _ _ _ w => (inl (OtherError "no transport"), w))
    (fun _ resp w => (resp, None, w)).

Definition ex_Routes := Routes (env := ex_Env).

Definition ex_service (body : string) : RoutingService (env := ex_Env) :=
  Build_RoutingService (env := ex_Env)
    "https://router.example/v8/" (ex_Client body).

Definition ex_request (m : ex_TransportMode) : RoutesRequest (env := ex_Env) :=
  Build_RoutesRequest (env := ex_Env)
    (Build_GeoWaypoint 1.5%float 2.5%float) (Build_GeoWaypoint 3.0%float 4.0%float) m.

Definition ex_state : State (env := ex_Env) := Build_State (env := ex_Env) O [].

Definition ex_body : string := js "{'routes':[{'id':'r1','sections':[]}],'errorCodes':[0]}".

Definition ex_query : string :=
  "alternatives=6&currency=EUR&destination=3%2C4&origin=1.5%2C2.5"
  +:+ "&return=summary%2Cpolyline%2Celevation%2Cactions%2Cinstructions%2CtravelSummary"
  +:+ "%2Ctolls%2Cincidents"
  +:+ "&spans=length%2Cduration%2CmaxSpeed%2CspeedLimit%2Cincidents%2Cnotices"
  +:+ "&transportMode=car".

(** ** Properties *)

Section Properties.

Context {env : Env}.

Lemma mode_ok_eqb (tm : string) :
  mode_ok tm -> String.eqb tm invalid || String.eqb tm unspecified = false.
Proof.
  intros [H1 H2]. apply orb_false_intro; apply String.eqb_neq; assumption.
Qed.

(** C10: [ErrorCodes.UnmarshalJSON] is atomic in its receiver.  For every
    input [b] and receiver [e], if the call returns an error then the
    receiver is what it was: [*e] is assigned only once the integers have
    been parsed. *)
Theorem ErrorCodes_UnmarshalJSON_atomic (b : string) (e : ErrorCodes) :
  snd (ErrorCodes_UnmarshalJSON b e) <> None ->
  fst (ErrorCodes_UnmarshalJSON b e) = e.
Proof.
  unfold ErrorCodes_UnmarshalJSON, ErrorCodes_UnmarshalJSON_scanned.
  destruct (json_Unmarshal_scanned (slice_t int_t) (parse b) make) as [err | ints]; simpl.
  - reflexivity.
  - intros H. contradiction H. reflexivity.
Qed.

(** C3: when the transport mode of the request resolves to the token
    [invalid] or to the token [unspecified], [Routes] returns a nil
    response with the validation error, and the state is untouched: no
    call to [NewRequest] or [Do] is recorded and the world is the same. *)
Theorem Routes_rejects_mode (s : RoutingService) (ctx : context_Context) (req : RoutesRequest)
    (st : State) :
  TransportMode_String (RoutesRequest_TransportMode req) = invalid
  \/ TransportMode_String (RoutesRequest_TransportMode req) = unspecified ->
  Routes s ctx req st = ((None, Some (Errorf "invalid transportmode" [])), st)
  /\ calls (snd (Routes s ctx req st)) = calls st
  /\ world (snd (Routes s ctx req st)) = world st.
Proof.
  intros H. unfold Routes.
  assert (Hb : String.eqb (TransportMode_String (RoutesRequest_TransportMode req)) invalid
               || String.eqb (TransportMode_String (RoutesRequest_TransportMode req)) unspecified
               = true).
  { apply orb_true_iff. destruct H as [H | H]; [left | right]; apply String.eqb_eq; exact H. }
  rewrite Hb. repeat split.
Qed.

(** C7: the failures of [Routes].  With a transport mode that passes the
    check: an error of the URL parser is returned as it is; an error of
    [NewRequest] is returned inside
    [fmt.Errorf("unable to create get request: %v", err)]; an error of [Do]
    is returned as it is; each time the response is nil.  And whatever
    happens, the response is nil exactly when the error is not. *)
Theorem Routes_failure (s : RoutingService) (ctx : context_Context) (req : RoutesRequest) (st : State) :
  let tm := TransportMode_String (RoutesRequest_TransportMode req) in
  let c := RoutingService_Client s in
  let query := Values_Encode (Routes_values tm req) in
  (forall e, mode_ok tm -> URL_Parse (RoutingService_URL s) "routes" = inl e ->
     Routes s ctx req st = ((None, Some e), st))
  /\ (forall u e st1, mode_ok tm -> URL_Parse (RoutingService_URL s) "routes" = inr u ->
        Client_NewRequest c ctx u http_MethodGet query None st = (inl e, st1) ->
        Routes s ctx req st
        = ((None, Some (Errorf "unable to create get request: %v" [e])), st1))
  /\ (forall u r st1 resp e st2, mode_ok tm ->
        URL_Parse (RoutingService_URL s) "routes" = inr u ->
        Client_NewRequest c ctx u http_MethodGet query None st = (inr r, st1) ->
        Client_Do c r RoutesResponse_zero st1 = ((resp, Some e), st2) ->
        Routes s ctx req st = ((None, Some e), st2))
  /\ (fst (fst (Routes s ctx req st)) = None <-> snd (fst (Routes s ctx req st)) <> None).
Proof.
  intros tm c query. unfold Routes. fold tm. fold c. fold query.
  repeat split.
  - intros e Hm Hu. rewrite (mode_ok_eqb _ Hm), Hu. reflexivity.
  - intros u e st1 Hm Hu Hn. rewrite (mode_ok_eqb _ Hm), Hu, Hn. reflexivity.
  - intros u r st1 resp e st2 Hm Hu Hn Hd. rewrite (mode_ok_eqb _ Hm), Hu, Hn, Hd. reflexivity.
  - destruct (String.eqb tm invalid || String.eqb tm unspecified); [discriminate |].
    destruct (URL_Parse (RoutingService_URL s) "routes") as [e | u]; [discriminate |].
    destruct (Client_NewRequest c ctx u http_MethodGet query None st) as [[e | r] st1];
      [discriminate |].
    destruct (Client_Do c r RoutesResponse_zero st1) as [[resp [e | ]] st2]; simpl;
      [discriminate | intros H; discriminate H].
  - destruct (String.eqb tm invalid || String.eqb tm unspecified); [reflexivity |].
    destruct (URL_Parse (RoutingService_URL s) "routes") as [e | u]; [reflexivity |].
    destruct (Client_NewRequest c ctx u http_MethodGet query None st) as [[e | r] st1];
      [reflexivity |].
    destruct (Client_Do c r RoutesResponse_zero st1) as [[resp [e | ]] st2]; simpl;
      [reflexivity | intros H; contradiction H; reflexivity].
Qed.

(** C4: the query of a valid request.  When the transport mode passes the
    check and the URL is parsed, the first thing [Routes] does with the
    collaborator is [NewRequest] with method GET and the encoding of a
    value set that has exactly seven keys: [origin] and [destination] hold
    latitude and longitude as [%v] prints them, joined by a comma;
    [alternatives] is 6, [currency] is EUR, [transportMode] is the token,
    [return] and [spans] are the two fixed lists. *)
Theorem Routes_query (s : RoutingService) (ctx : context_Context) (req : RoutesRequest) (st : State)
    (u : URL) :
  let tm := TransportMode_String (RoutesRequest_TransportMode req) in
  let values := Routes_values tm req in
  mode_ok tm ->
  URL_Parse (RoutingService_URL s) "routes" = inr u ->
  (exists more,
     calls (snd (Routes s ctx req st))
     = calls st ++ CallNewRequest ctx u "GET" (Values_Encode values) None :: more)
  /\ values !! "origin"
     = Some [Sprint_v (GeoWaypoint_Lat (RoutesRequest_Origin req)) +:+ "," +:+
             Sprint_v (GeoWaypoint_Long (RoutesRequest_Origin req))]
  /\ values !! "destination"
     = Some [Sprint_v (GeoWaypoint_Lat (RoutesRequest_Destination req)) +:+ "," +:+
             Sprint_v (GeoWaypoint_Long (RoutesRequest_Destination req))]
  /\ values !! "alternatives" = Some ["6"]
  /\ values !! "currency" = Some ["EUR"]
  /\ values !! "transportMode" = Some [tm]
  /\ values !! "return"
     = Some ["summary,polyline,elevation,actions,instructions,travelSummary,tolls,incidents"]
  /\ values !! "spans" = Some ["length,duration,maxSpeed,speedLimit,incidents,notices"]
  /\ dom values = list_to_set ["return"; "transportMode"; "origin"; "destination"; "spans";
                               "alternatives"; "currency"].
Proof.
  intros tm values Hm Hu. split.
  - unfold Routes. fold tm. fold values. rewrite (mode_ok_eqb _ Hm), Hu.
    unfold Client_NewRequest, Client_Do, http_MethodGet.
    destruct (NewRequest (RoutingService_Client s) ctx u "GET" (Values_Encode values) None
                (world st)) as [[e | r] w1]; simpl.
    + exists []. reflexivity.
    + destruct (Do (RoutingService_Client s) r RoutesResponse_zero w1) as [[resp [e | ]] w2];
        simpl; rewrite <- app_assoc; eexists; reflexivity.
  - subst values. unfold Routes_values, Values_Add.
    repeat split; simplify_map_eq; reflexivity.
Qed.

(** C6: the end-to-end scenario.  When the mode passes the check, the URL
    is parsed, [NewRequest] gives a request, and [Do] fills the response
    from the body
    [{"routes":[{"id":"r1","sections":[]}],"errorCodes":[0]}],
    [Routes] returns, with a nil error, a response that has one route, of
    ID [r1] and with an empty sequence of sections, and whose error codes
    are the one-element sequence [ErrorCodeSuccess]. *)
Theorem Routes_end_to_end (s : RoutingService) (ctx : context_Context) (req : RoutesRequest)
    (st : State) (u : URL) (r : Request) (w1 : World) :
  let tm := TransportMode_String (RoutesRequest_TransportMode req) in
  let c := RoutingService_Client s in
  let body := js "{'routes':[{'id':'r1','sections':[]}],'errorCodes':[0]}" in
  mode_ok tm ->
  URL_Parse (RoutingService_URL s) "routes" = inr u ->
  NewRequest c ctx u "GET" (Values_Encode (Routes_values tm req)) None (world st) = (inr r, w1) ->
  (forall resp w, fst (Do c r resp w) = decode_body body resp) ->
  fst (Routes s ctx req st)
  = (Some (Build_RoutesResponse
             (Some [Build_Route "r1" (Some [])])
             (Some [mkErrorCode ErrorCodeSuccess])),
     None).
Proof.
  intros tm c body Hm Hu Hn Hd. unfold Routes. fold tm. fold c.
  rewrite (mode_ok_eqb _ Hm), Hu.
  unfold Client_NewRequest, Client_Do, http_MethodGet. rewrite Hn. cbn [world].
  specialize (Hd RoutesResponse_zero w1).
  destruct (Do c r RoutesResponse_zero w1) as [res w2]. simpl in Hd. subst res.
  reflexivity.
Qed.

(** C8, as the code has it: the tag of [Notice.Details] has the key
    [jsopn], so the field has no [json] name of its own and is written
    under its Go name, [Details], not [details].  (A key [details] is
    still read into it, names being matched up to case.) *)
Theorem Notice_Details_written_as_Details :
  map json_name Notice_fields
  = [Some "title"; Some "code"; Some "severity"; Some "Details"]
  /\ json_Marshal Notice_t (Build_Notice "t" "c" "s" None)
     = inr (JObj [("title", JStr "t"); ("code", JStr "c"); ("severity", JStr "s");
                  ("Details", JNull)])
  /\ json_Unmarshal Notice_t (js "{'details':[{'type':'x'}]}") Notice_zero
     = inr (Build_Notice "" "" "" (Some [Build_NoticeDetail "x" "" 0])).
Proof. vm_compute. repeat split; reflexivity. Qed.

(** *** Printing and reading integers *)

Lemma byte_of_chr (z : Z) : 0 <= z < 256 -> byte_of (chr z) = z.
Proof.
  intros H. unfold byte_of, chr. rewrite N_ascii_embedding; lia.
Qed.

Lemma digit_char (k : Z) :
  0 <= k < 10 -> isDigit (chr (48 + k)) = true /\ byte_of (chr (48 + k)) - 48 = k.
Proof.
  intros H. unfold isDigit, between. rewrite byte_of_chr by lia. split; lia.
Qed.

Lemma str_app_cons (x : ascii) (a b : string) : String x a +:+ b = String x (a +:+ b).
Proof. reflexivity. Qed.

Lemma str_app_assoc (a b c : string) : (a +:+ b) +:+ c = a +:+ b +:+ c.
Proof.
  induction a as [| x a IH]; [reflexivity |]. rewrite !str_app_cons. f_equal. exact IH.
Qed.

Lemma str_app_nil_r (a : string) : a +:+ "" = a.
Proof.
  induction a as [| x a IH]; [reflexivity |]. rewrite str_app_cons. f_equal. exact IH.
Qed.

Lemma str_length_app (a b : string) :
  String.length (a +:+ b) = (String.length a + String.length b)%nat.
Proof.
  induction a as [| x a IH]; [reflexivity |]. rewrite str_app_cons. simpl. rewrite IH.
  reflexivity.
Qed.

Lemma str_forallb_app (p : ascii -> bool) (a b : string) :
  str_forallb p (a +:+ b) = str_forallb p a && str_forallb p b.
Proof.
  induction a as [| x a IH]; [reflexivity |]. rewrite str_app_cons. simpl. rewrite IH.
  apply andb_assoc.
Qed.

Lemma formatBits_app (f : nat) (n : Z) (acc : string) :
  formatBits f n acc = formatBits f n "" +:+ acc.
Proof.
  revert n acc. induction f as [| f IH]; intros n acc; simpl; [reflexivity |].
  destruct (n <? 10); [reflexivity |].
  rewrite (IH _ (String _ acc)), (IH _ (String _ "")).
  rewrite str_app_assoc. reflexivity.
Qed.

(** Fuel [f] is enough for [n] when [n < 2^f]. *)
Lemma formatBits_step (f : nat) (n : Z) :
  10 <= n < 2 ^ Z.of_nat (S f) -> 0 < n / 10 < 2 ^ Z.of_nat f /\ (1 <= f)%nat.
Proof.
  intros [H1 H2]. rewrite Nat2Z.inj_succ, Z.pow_succ_r in H2 by lia.
  assert (1 <= f)%nat.
  { destruct f; [simpl in H2; lia | lia]. }
  repeat split; try lia.
  - apply Z.div_str_pos. lia.
  - apply Z.div_lt_upper_bound; lia.
Qed.

Lemma ParseUint_formatBits (f : nat) (n : Z) (acc : string) :
  (1 <= f)%nat -> 0 <= n < 2 ^ Z.of_nat f ->
  ParseUint_digits (formatBits f n acc) 0 = ParseUint_digits acc n.
Proof.
  revert n acc. induction f as [| f IH]; intros n acc Hf Hn; [lia |].
  simpl. destruct (Z.ltb_spec n 10) as [Hlt | Hge].
  - simpl. destruct (digit_char (n mod 10)) as [Hd Hv]; [apply Z.mod_pos_bound; lia |].
    rewrite Hd, Hv. rewrite Z.mod_small by lia. reflexivity.
  - destruct (formatBits_step f n) as [Hq Hf']; [lia |].
    rewrite IH by lia. simpl.
    destruct (digit_char (n mod 10)) as [Hd Hv]; [apply Z.mod_pos_bound; lia |].
    rewrite Hd, Hv. f_equal. pose proof (Z.div_mod n 10). lia.
Qed.

(** The digits of a number: all digits, the first not 0 unless the number
    is 0. *)
Lemma formatBits_digits (f : nat) (n : Z) :
  (1 <= f)%nat -> 0 <= n < 2 ^ Z.of_nat f ->
  exists c tl, formatBits f n "" = String c tl
               /\ isDigit c = true
               /\ str_forallb isDigit tl = true
               /\ (0 < n -> between 49 57 c = true)
               /\ (n = 0 -> tl = "" /\ byte_of c = 48).
Proof.
  revert n. induction f as [| f IH]; intros n Hf Hn; [lia |].
  simpl. destruct (Z.ltb_spec n 10) as [Hlt | Hge].
  - exists (chr (48 + n mod 10)), "".
    destruct (digit_char (n mod 10)) as [Hd Hv]; [apply Z.mod_pos_bound; lia |].
    rewrite Z.mod_small in * by lia.
    split; [reflexivity |]. split; [exact Hd |]. split; [reflexivity |]. split.
    + intros Hpos. unfold between. rewrite byte_of_chr by lia. lia.
    + intros ->. split; [reflexivity | apply byte_of_chr; lia].
  - destruct (formatBits_step f n) as [Hq Hf']; [lia |].
    destruct (IH (n / 10)) as (c & tl & Heq & Hc & Htl & Hpos & _); [lia | lia |].
    rewrite formatBits_app, Heq. exists c, (tl +:+ String (chr (48 + n mod 10)) "").
    split; [reflexivity |]. split; [exact Hc |]. split; [| split].
    + rewrite str_forallb_app, Htl. simpl.
      destruct (digit_char (n mod 10)) as [Hd _]; [apply Z.mod_pos_bound; lia |].
      rewrite Hd. reflexivity.
    + intros _. apply Hpos. lia.
    + lia.
Qed.

Lemma log2_fuel (n : Z) : 0 <= n -> n < 2 ^ Z.of_nat (S (Z.to_nat (Z.log2 n))).
Proof.
  intros H. rewrite Nat2Z.inj_succ, Z2Nat.id by apply Z.log2_nonneg.
  destruct (Z.eq_dec n 0) as [-> | Hne]; [reflexivity |].
  apply Z.log2_spec. lia.
Qed.

Lemma ParseInt_FormatInt (n : Z) : is_int n -> ParseInt (FormatInt n) 64 = Some n.
Proof.
  intros [Hlo Hhi]. unfold FormatInt.
  destruct (Z.ltb_spec n 0) as [Hneg | Hpos].
  - set (f := S (Z.to_nat (Z.log2 (- n)))).
    assert (Hf : - n < 2 ^ Z.of_nat f) by (apply log2_fuel; lia).
    destruct (formatBits_digits f (- n)) as (c & tl & Heq & _); [subst f; lia | lia |].
    unfold ParseInt. change (byte_of "-" =? 43) with false. change (byte_of "-" =? 45) with true.
    cbv iota. rewrite Heq. rewrite <- Heq.
    rewrite ParseUint_formatBits by (subst f; lia). simpl ParseUint_digits.
    cbn [negb andb].
    destruct (Z.ltb_spec (2 ^ (64 - 1)) (- n)) as [Hbad | _]; [lia |].
    f_equal. lia.
  - set (f := S (Z.to_nat (Z.log2 n))).
    assert (Hf : n < 2 ^ Z.of_nat f) by (apply log2_fuel; lia).
    destruct (formatBits_digits f n) as (c & tl & Heq & Hc & _); [subst f; lia | lia |].
    pose proof (ParseUint_formatBits f n "" ltac:(subst f; lia) ltac:(lia)) as HP.
    rewrite Heq in *. unfold ParseInt.
    unfold isDigit, between in Hc.
    destruct (Z.eqb_spec (byte_of c) 43) as [E | _]; [lia |].
    destruct (Z.eqb_spec (byte_of c) 45) as [E | _]; [lia |].
    rewrite HP. simpl ParseUint_digits.
    cbn [negb andb].
    destruct (Z.leb_spec (2 ^ (64 - 1)) n) as [Hbad | _]; [lia |].
    reflexivity.
Qed.

Lemma decode_int_FormatInt (bits : Z) (name : string) (n v : Z) (d : savedError) :
  is_int n -> - 2 ^ (bits - 1) <= n < 2 ^ (bits - 1) ->
  decode_int bits name (JNum (FormatInt n)) v d = inr (n, d).
Proof.
  intros Hn Hb. unfold decode_int. rewrite ParseInt_FormatInt by exact Hn.
  destruct (Z.leb_spec (- 2 ^ (bits - 1)) n); [| lia].
  destruct (Z.ltb_spec n (2 ^ (bits - 1))); [| lia].
  reflexivity.
Qed.

Lemma is_int32_is_int (n : Z) : is_int32 n -> is_int n.
Proof. unfold is_int32, is_int. lia. Qed.

Lemma decode_elems_nums (bits : Z) (t : GoType Z) (l : list Z) (cur : list Z) (d : savedError) :
  decode t = decode_int bits (type_name t) ->
  Forall is_int l -> Forall (fun n => - 2 ^ (bits - 1) <= n < 2 ^ (bits - 1)) l ->
  decode_elems t (map num l) cur d = inr (l, d).
Proof.
  intros Ht. revert cur. induction l as [| n l IH]; intros cur H1 H2; simpl; [reflexivity |].
  inversion H1; subst. inversion H2; subst.
  rewrite Ht. unfold num at 1. rewrite decode_int_FormatInt by assumption.
  rewrite IH by assumption. reflexivity.
Qed.

(** *** Decoding structs: what a member can and cannot do *)

Lemma lawful_decode_int (bits : Z) (name : string) (t : GoType Z) :
  decode t = decode_int bits name -> lawful t.
Proof.
  intros Ht. split; rewrite Ht; unfold decode_int, mismatch.
  - intros j a a' d. destruct j; try reflexivity.
    destruct (ParseInt lit 64) as [n |]; [| reflexivity].
    destruct ((- 2 ^ (bits - 1) <=? n) && (n <? 2 ^ (bits - 1))); reflexivity.
  - intros j a e a' d' H. destruct j; try (injection H as _ <-; reflexivity).
    destruct (ParseInt lit 64) as [n |]; [| injection H as _ <-; reflexivity].
    destruct ((- 2 ^ (bits - 1) <=? n) && (n <? 2 ^ (bits - 1)));
      injection H as _ <-; reflexivity.
Qed.

Lemma lawful_int_t : lawful int_t.
Proof. apply (lawful_decode_int 64 "int"). reflexivity. Qed.

Lemma lawful_int32_t : lawful int32_t.
Proof. apply (lawful_decode_int 32 "int32"). reflexivity. Qed.

Lemma lawful_string_t : lawful string_t.
Proof.
  split; simpl; unfold decode_string, mismatch.
  - intros j a a' d. destruct j; reflexivity.
  - intros j a e a' d' H. destruct j; injection H as _ <-; reflexivity.
Qed.

Lemma decode_elems_indep {A : Type} (t : GoType A) (xs : list json) :
  lawful t -> forall cur cur' d,
  outcome (decode_elems t xs cur d) = outcome (decode_elems t xs cur' d).
Proof.
  intros Ht. induction xs as [| x xs IH]; intros cur cur' d; simpl; [reflexivity |].
  pose proof (indep t Ht x (hd (zero t) cur) (hd (zero t) cur') d) as Hx.
  destruct (decode t x (hd (zero t) cur) d) as [e1 | [a1 d1]],
           (decode t x (hd (zero t) cur') d) as [e2 | [a2 d2]]; simpl in Hx;
    try discriminate; [exact Hx |].
  injection Hx as ->.
  specialize (IH (tl cur) (tl cur') d2).
  destruct (decode_elems t xs (tl cur) d2) as [e1 | [l1 d1']],
           (decode_elems t xs (tl cur') d2) as [e2 | [l2 d2']]; simpl in IH |- *;
    try discriminate; exact IH.
Qed.

Lemma decode_elems_sticky {A : Type} (t : GoType A) (xs : list json) :
  lawful t -> forall cur e l d',
  decode_elems t xs cur (Some e) = inr (l, d') -> d' = Some e.
Proof.
  intros Ht. induction xs as [| x xs IH]; intros cur e l d' H; simpl in H.
  - injection H as _ <-. reflexivity.
  - destruct (decode t x (hd (zero t) cur) (Some e)) as [e1 | [a1 d1]] eqn:Hx; [discriminate |].
    apply (sticky t Ht) in Hx. subst d1.
    destruct (decode_elems t xs (tl cur) (Some e)) as [e2 | [l2 d2]] eqn:Hxs; [discriminate |].
    injection H as _ <-. eapply IH. exact Hxs.
Qed.

Lemma lawful_slice_t {A : Type} (t : GoType A) : lawful t -> lawful (slice_t t).
Proof.
  intros Ht. split; simpl; unfold decode_slice, mismatch.
  - intros j a a' d. destruct j; try reflexivity.
    pose proof (decode_elems_indep t xs Ht (elems a) (elems a') d) as H.
    destruct (decode_elems t xs (elems a) d) as [e1 | [l1 d1]],
             (decode_elems t xs (elems a') d) as [e2 | [l2 d2]]; simpl in H |- *;
      try discriminate; exact H.
  - intros j a e a' d' H. destruct j; try (injection H as _ <-; reflexivity).
    destruct (decode_elems t xs (elems a) (Some e)) as [e1 | [l1 d1]] eqn:Hxs; [discriminate |].
    injection H as _ <-. eapply decode_elems_sticky; eassumption.
Qed.

Lemma lawful_ErrorCodes_t : lawful ErrorCodes_t.
Proof.
  split; simpl; unfold decode_ErrorCodes, ErrorCodes_UnmarshalJSON_scanned.
  - intros j a a' d.
    destruct (json_Unmarshal_scanned (slice_t int_t) (Some j) make); reflexivity.
  - intros j a e a' d' H.
    destruct (json_Unmarshal_scanned (slice_t int_t) (Some j) make); [discriminate |].
    injection H as _ <-. reflexivity.
Qed.

Lemma find_field_elem {S : Type} (fs : list (field S)) (k : string) (f : field S) :
  find_field fs k = Some f -> In f fs /\ folded_match k f = true.
Proof.
  unfold find_field. destruct (List.find (exact_match k) fs) as [g |] eqn:Hex.
  - intros [= <-]. apply List.find_some in Hex as [Hin Hm]. split; [exact Hin |].
    unfold exact_match in Hm. unfold folded_match.
    destruct (json_name g) as [n |]; [| discriminate].
    apply String.eqb_eq in Hm. subst n. apply String.eqb_refl.
  - intros Hf. apply List.find_some in Hf. exact Hf.
Qed.

Lemma decode_members_indep {S : Type} (fs : list (field S)) :
  Forall (fun f => lawful (f_t f)) fs ->
  forall kvs s s' d,
  outcome (decode_members fs kvs s d) = outcome (decode_members fs kvs s' d).
Proof.
  intros Hfs. induction kvs as [| [k v] kvs IH]; intros s s' d; simpl; [reflexivity |].
  destruct (find_field fs k) as [f |] eqn:Hf; [| apply IH].
  apply find_field_elem in Hf as [Hin _].
  pose proof (proj1 (List.Forall_forall _ _) Hfs f Hin) as Hl.
  pose proof (indep _ Hl v (f_get f s) (f_get f s') d) as Hx.
  destruct (decode (f_t f) v (f_get f s) d) as [e1 | [a1 d1]],
           (decode (f_t f) v (f_get f s') d) as [e2 | [a2 d2]]; simpl in Hx;
    try discriminate; [exact Hx |].
  injection Hx as ->. apply IH.
Qed.

Lemma decode_members_sticky {S : Type} (fs : list (field S)) :
  Forall (fun f => lawful (f_t f)) fs ->
  forall kvs s e s' d', decode_members fs kvs s (Some e) = inr (s', d') -> d' = Some e.
Proof.
  intros Hfs. induction kvs as [| [k v] kvs IH]; intros s e s' d' H; simpl in H.
  - injection H as _ <-. reflexivity.
  - destruct (find_field fs k) as [f |] eqn:Hf; [| eapply IH; exact H].
    apply find_field_elem in Hf as [Hin _].
    pose proof (proj1 (List.Forall_forall _ _) Hfs f Hin) as Hl.
    destruct (decode (f_t f) v (f_get f s) (Some e)) as [e1 | [a1 d1]] eqn:Hx; [discriminate |].
    apply (sticky _ Hl) in Hx. subst d1. eapply IH. exact H.
Qed.

Lemma lawful_struct_t {S : Type} (name : string) (z : S) (fs : list (field S)) :
  Forall (fun f => lawful (f_t f)) fs -> lawful (struct_t name z fs).
Proof.
  intros Hfs. split; simpl; unfold decode_struct, mismatch.
  - intros j a a' d. destruct j; try reflexivity. apply decode_members_indep. exact Hfs.
  - intros j a e a' d' H. destruct j; try (injection H as _ <-; reflexivity).
    eapply decode_members_sticky; eassumption.
Qed.

(** Dropping members from an object that is decoded without error leaves
    an object that is decoded without error. *)
Lemma decode_members_filter {S : Type} (fs : list (field S)) (keep : string * json -> bool) :
  Forall (fun f => lawful (f_t f)) fs ->
  forall kvs s s' s1,
  decode_members fs kvs s None = inr (s1, None) ->
  exists s2, decode_members fs (List.filter keep kvs) s' None = inr (s2, None).
Proof.
  intros Hfs. induction kvs as [| [k v] kvs IH]; intros s s' s1 H; simpl in H |- *.
  - exists s'. reflexivity.
  - destruct (find_field fs k) as [f |] eqn:Hf.
    + pose proof Hf as Hf'. apply find_field_elem in Hf' as [Hin _].
      pose proof (proj1 (List.Forall_forall _ _) Hfs f Hin) as Hl.
      destruct (decode (f_t f) v (f_get f s) None) as [e1 | [a1 d1]] eqn:Hx; [discriminate |].
      assert (d1 = None) as ->.
      { destruct d1 as [e |]; [| reflexivity].
        apply (decode_members_sticky fs Hfs) in H. discriminate. }
      destruct (keep (k, v)); simpl.
      * rewrite Hf.
        pose proof (indep _ Hl v (f_get f s) (f_get f s') None) as Hi.
        rewrite Hx in Hi. simpl in Hi.
        destruct (decode (f_t f) v (f_get f s') None) as [e2 | [a2 d2]]; simpl in Hi;
          [discriminate |].
        injection Hi as <-. eapply IH. exact H.
      * eapply IH. exact H.
    + destruct (keep (k, v)); simpl.
      * rewrite Hf. eapply IH. exact H.
      * eapply IH. exact H.
Qed.

Lemma same_name_same_field {S : Type} (fs : list (field S)) (f g : field S) :
  NoDup (map f_name fs) -> In f fs -> In g fs -> f_name f = f_name g -> f = g.
Proof.
  induction fs as [| h fs IH]; simpl; intros Hnd Hf Hg Hn; [contradiction |].
  apply NoDup_cons in Hnd as [Hh Hnd].
  destruct Hf as [<- | Hf], Hg as [<- | Hg].
  - reflexivity.
  - exfalso. apply Hh. rewrite Hn. apply list_elem_of_In. apply List.in_map. exact Hg.
  - exfalso. apply Hh. rewrite <- Hn. apply list_elem_of_In. apply List.in_map. exact Hf.
  - apply IH; assumption.
Qed.

(** A field that no key of the object selects (no key is its name, up to
    case) holds after the decoding what it held before. *)
Lemma decode_members_untouched {S : Type} (fs : list (field S)) (f : field S) :
  apart fs -> In f fs ->
  forall kvs s d s' d',
  (forall k v, In (k, v) kvs -> folded_match k f = false) ->
  decode_members fs kvs s d = inr (s', d') ->
  f_get f s' = f_get f s.
Proof.
  intros [Hnd Hap] Hin. induction kvs as [| [k v] kvs IH]; intros s d s' d' Habs H; simpl in H.
  - injection H as <- _. reflexivity.
  - assert (Habs' : forall k' v', In (k', v') kvs -> folded_match k' f = false).
    { intros k' v' Hk. apply (Habs k' v'). right. exact Hk. }
    destruct (find_field fs k) as [g |] eqn:Hg; [| eapply IH; eassumption].
    apply find_field_elem in Hg as [Hgin Hgm].
    destruct (decode (f_t g) v (f_get g s) d) as [e1 | [a1 d1]]; [discriminate |].
    rewrite (IH _ _ _ _ Habs' H).
    pose proof (proj1 (List.Forall_forall _ _) Hap f Hin) as Hf.
    pose proof (proj1 (List.Forall_forall _ _) Hf g Hgin) as Hfg.
    apply Hfg. intros Hn.
    assert (f = g) as -> by (eapply same_name_same_field; eassumption).
    rewrite (Habs k v) in Hgm; [discriminate | left; reflexivity].
Qed.

Hypothesis time_Time_lawful : lawful time_Time_t.
Hypothesis float64_lawful : lawful float64_t.
Hypothesis GeoWaypoint_lawful : lawful GeoWaypoint_t.
Hypothesis RegionDefinition_lawful : lawful RegionDefinition_t.

Create HintDb lawful.
#[local] Hint Resolve lawful_int_t lawful_int32_t lawful_string_t lawful_ErrorCodes_t
  lawful_slice_t time_Time_lawful float64_lawful GeoWaypoint_lawful RegionDefinition_lawful
  : lawful.

Ltac lawful_fields :=
  repeat first [ apply List.Forall_nil
               | apply List.Forall_cons; [simpl; auto with lawful |] ].

Lemma lawful_Summary_t : lawful Summary_t.
Proof. apply lawful_struct_t. lawful_fields. Qed.
#[local] Hint Resolve lawful_Summary_t : lawful.

Lemma lawful_Place_t : lawful Place_t.
Proof. apply lawful_struct_t. lawful_fields. Qed.
#[local] Hint Resolve lawful_Place_t : lawful.

Lemma lawful_RoutePlace_t : lawful RoutePlace_t.
Proof. apply lawful_struct_t. lawful_fields. Qed.
#[local] Hint Resolve lawful_RoutePlace_t : lawful.

Lemma lawful_Span_t : lawful Span_t.
Proof. apply lawful_struct_t. lawful_fields. Qed.
#[local] Hint Resolve lawful_Span_t : lawful.

Lemma lawful_NoticeDetail_t : lawful NoticeDetail_t.
Proof. apply lawful_struct_t. lawful_fields. Qed.
#[local] Hint Resolve lawful_NoticeDetail_t : lawful.

Lemma lawful_Notice_t : lawful Notice_t.
Proof. apply lawful_struct_t. lawful_fields. Qed.
#[local] Hint Resolve lawful_Notice_t : lawful.

Lemma lawful_Transport_t : lawful Transport_t.
Proof. apply lawful_struct_t. lawful_fields. Qed.
#[local] Hint Resolve lawful_Transport_t : lawful.

Lemma lawful_Incident_t : lawful Incident_t.
Proof. apply lawful_struct_t. lawful_fields. Qed.
#[local] Hint Resolve lawful_Incident_t : lawful.

Lemma lawful_Price_t : lawful Price_t.
Proof. apply lawful_struct_t. lawful_fields. Qed.
#[local] Hint Resolve lawful_Price_t : lawful.

Lemma lawful_Fare_t : lawful Fare_t.
Proof. apply lawful_struct_t. lawful_fields. Qed.
#[local] Hint Resolve lawful_Fare_t : lawful.

Lemma lawful_TollCollectionLocation_t : lawful TollCollectionLocation_t.
Proof. apply lawful_struct_t. lawful_fields. Qed.
#[local] Hint Resolve lawful_TollCollectionLocation_t : lawful.

Lemma lawful_Toll_t : lawful Toll_t.
Proof. apply lawful_struct_t. lawful_fields. Qed.
#[local] Hint Resolve lawful_Toll_t : lawful.

Lemma lawful_TollSystem_t : lawful TollSystem_t.
Proof. apply lawful_struct_t. lawful_fields. Qed.
#[local] Hint Resolve lawful_TollSystem_t : lawful.

Lemma lawful_Section_t : lawful Section_t.
Proof. apply lawful_struct_t. lawful_fields. Qed.
#[local] Hint Resolve lawful_Section_t : lawful.

Lemma lawful_Route_t : lawful Route_t.
Proof. apply lawful_struct_t. lawful_fields. Qed.
#[local] Hint Resolve lawful_Route_t : lawful.

Lemma lawful_RoutesResponse_t : lawful RoutesResponse_t.
Proof. apply lawful_struct_t. lawful_fields. Qed.
#[local] Hint Resolve lawful_RoutesResponse_t : lawful.

Lemma lawful_MatrixResponse_t : lawful MatrixResponse_t.
Proof. apply lawful_struct_t. lawful_fields. Qed.
#[local] Hint Resolve lawful_MatrixResponse_t : lawful.

Lemma lawful_CalculateMatrixResponse_t : lawful CalculateMatrixResponse_t.
Proof. apply lawful_struct_t. lawful_fields. Qed.
#[local] Hint Resolve lawful_CalculateMatrixResponse_t : lawful.

Lemma lawful_HereErrorResponse_t : lawful HereErrorResponse_t.
Proof. apply lawful_struct_t. lawful_fields. Qed.
#[local] Hint Resolve lawful_HereErrorResponse_t : lawful.

Ltac apart_fields :=
  split;
  [ apply (bool_decide_unpack _); vm_compute; exact I
  | repeat first
      [ apply List.Forall_nil
      | apply List.Forall_cons;
        [ repeat first
            [ apply List.Forall_nil
            | apply List.Forall_cons;
              [ intros Hne a s; first [reflexivity | exfalso; apply Hne; reflexivity] |] ]
        |] ] ].

Lemma apart_Summary_fields : apart Summary_fields.
Proof. apart_fields. Qed.

Lemma apart_Place_fields : apart Place_fields.
Proof. apart_fields. Qed.

Lemma apart_RoutePlace_fields : apart RoutePlace_fields.
Proof. apart_fields. Qed.

Lemma apart_Span_fields : apart Span_fields.
Proof. apart_fields. Qed.

Lemma apart_NoticeDetail_fields : apart NoticeDetail_fields.
Proof. apart_fields. Qed.

Lemma apart_Notice_fields : apart Notice_fields.
Proof. apart_fields. Qed.

Lemma apart_Transport_fields : apart Transport_fields.
Proof. apart_fields. Qed.

Lemma apart_Incident_fields : apart Incident_fields.
Proof. apart_fields. Qed.

Lemma apart_Price_fields : apart Price_fields.
Proof. apart_fields. Qed.

Lemma apart_Fare_fields : apart Fare_fields.
Proof. apart_fields. Qed.

Lemma apart_TollCollectionLocation_fields : apart TollCollectionLocation_fields.
Proof. apart_fields. Qed.

Lemma apart_Toll_fields : apart Toll_fields.
Proof. apart_fields. Qed.

Lemma apart_TollSystem_fields : apart TollSystem_fields.
Proof. apart_fields. Qed.

Lemma apart_Section_fields : apart Section_fields.
Proof. apart_fields. Qed.

Lemma apart_Route_fields : apart Route_fields.
Proof. apart_fields. Qed.

Lemma apart_RoutesResponse_fields : apart RoutesResponse_fields.
Proof. apart_fields. Qed.

Lemma apart_MatrixResponse_fields : apart MatrixResponse_fields.
Proof. apart_fields. Qed.

Lemma apart_CalculateMatrixResponse_fields : apart CalculateMatrixResponse_fields.
Proof. apart_fields. Qed.

Lemma apart_HereErrorResponse_fields : apart HereErrorResponse_fields.
Proof. apart_fields. Qed.

Lemma decode_members_app {S : Type} (fs : list (field S)) (pre rest : list (string * json))
    (s : S) (d : savedError) :
  decode_members fs (pre ++ rest) s d
  = match decode_members fs pre s d with
    | inl err => inl err
    | inr (s', d') => decode_members fs rest s' d'
    end.
Proof.
  revert s d. induction pre as [| [k v] pre IH]; intros s d; simpl; [reflexivity |].
  destruct (find_field fs k) as [f |]; [| apply IH].
  destruct (decode (f_t f) v (f_get f s) d) as [err | [a d1]]; [reflexivity | apply IH].
Qed.

Lemma NoDup_map_inj {A B : Type} (h : A -> B) (l : list A) (x y : A) :
  NoDup (map h l) -> In x l -> In y l -> h x = h y -> x = y.
Proof.
  induction l as [| a l IH]; simpl; intros Hnd Hx Hy Hh; [contradiction |].
  apply NoDup_cons in Hnd as [Ha Hnd].
  destruct Hx as [<- | Hx], Hy as [<- | Hy].
  - reflexivity.
  - exfalso. apply Ha. rewrite Hh. apply list_elem_of_In. apply List.in_map. exact Hy.
  - exfalso. apply Ha. rewrite <- Hh. apply list_elem_of_In. apply List.in_map. exact Hx.
  - apply IH; assumption.
Qed.

Lemma folded_match_names {S : Type} (k : string) (f : field S) :
  folded_match k f = true <-> option_map foldName (json_name f) = Some (foldName k).
Proof.
  unfold folded_match. destruct (json_name f) as [n |]; simpl.
  - rewrite String.eqb_eq. split; [intros -> | intros [= ->]]; reflexivity.
  - split; discriminate.
Qed.

Lemma find_field_unique {S : Type} (fs : list (field S)) (k : string) (f : field S) :
  NoDup (folded_names fs) -> In f fs -> folded_match k f = true -> find_field fs k = Some f.
Proof.
  intros Hnd Hin Hm. destruct (find_field fs k) as [g |] eqn:Hg.
  - apply find_field_elem in Hg as [Hgin Hgm]. f_equal.
    apply (NoDup_map_inj _ fs g f Hnd Hgin Hin).
    apply folded_match_names in Hm. apply folded_match_names in Hgm. congruence.
  - exfalso. unfold find_field in Hg.
    destruct (List.find (exact_match k) fs); [discriminate |].
    pose proof (List.find_none _ _ Hg f Hin) as Hno. congruence.
Qed.

Lemma wire_name_exists {S : Type} (fs : list (field S)) (f : field S) :
  NoDup (None :: folded_names fs) -> In f fs ->
  exists n, json_name f = Some n /\ folded_match n f = true.
Proof.
  intros Hnd Hin. apply NoDup_cons in Hnd as [Hnone _].
  destruct (json_name f) as [n |] eqn:Hn.
  - exists n. split; [reflexivity |]. unfold folded_match. rewrite Hn. apply String.eqb_refl.
  - exfalso. apply Hnone. apply list_elem_of_In.
    change None with (option_map foldName (@None string)). rewrite <- Hn.
    apply (List.in_map (fun f => option_map foldName (json_name f))). exact Hin.
Qed.

(** A member under the name of a field is decoded by the decoder of the
    field and stored, between the members before it and those after. *)
Lemma decode_members_member {S : Type} (fs : list (field S)) (f : field S)
    (pre : list (string * json)) (k : string) (v : json) (post : list (string * json))
    (s : S) (d : savedError) :
  NoDup (folded_names fs) -> In f fs -> folded_match k f = true ->
  decode_members fs (pre ++ (k, v) :: post) s d
  = match decode_members fs pre s d with
    | inl err => inl err
    | inr (s1, d1) =>
        match decode (f_t f) v (f_get f s1) d1 with
        | inl err => inl err
        | inr (a, d2) => decode_members fs post (f_set f a s1) d2
        end
    end.
Proof.
  intros Hnd Hin Hm. rewrite decode_members_app.
  destruct (decode_members fs pre s d) as [err | [s1 d1]]; [reflexivity |].
  cbn [decode_members]. rewrite (find_field_unique fs k f Hnd Hin Hm). reflexivity.
Qed.

Lemma entity_ok_struct {S : Type} (name : string) (z : S) (fs : list (field S)) :
  Forall (fun f => lawful (f_t f)) fs -> apart fs ->
  Forall (fun f => f_get f z = zero (f_t f)) fs ->
  NoDup (None :: folded_names fs) ->
  Forall (fun f => forall a s, f_get f (f_set f a s) = a) fs ->
  entity_ok (Entity S (struct_t name z fs) fs).
Proof.
  intros Hl Ha Hz Hnd Hgs. unfold entity_ok. simpl.
  assert (Hnd' : NoDup (folded_names fs)) by (apply NoDup_cons in Hnd as [_ Hnd]; exact Hnd).
  split; [reflexivity |]. split; [exact Hz |]. split; [reflexivity |].
  split; [| split; [| split; [| split; [| split; [| ]]]]].
  - intros f kvs s d s' d' Hin Habs H. eapply decode_members_untouched; eassumption.
  - intros keep kvs s s1 H. eapply decode_members_filter; eassumption.
  - intros f Hin. apply (wire_name_exists fs f Hnd Hin).
  - intros f a s Hin. exact (proj1 (List.Forall_forall _ _) Hgs f Hin a s).
  - intros f pre k v post s d Hin Hm. apply decode_members_member; assumption.
  - intros f pre k v post s d s' d' Hin Hm Habs H.
    rewrite (decode_members_member fs f pre k v post s d Hnd' Hin Hm) in H.
    destruct (decode_members fs pre s d) as [err | [s1 d1]]; [discriminate |].
    destruct (decode (f_t f) v (f_get f s1) d1) as [err | [a d2]] eqn:Hf; [discriminate |].
    exists s1, d1, d2. split; [reflexivity |]. rewrite Hf.
    rewrite (decode_members_untouched fs f Ha Hin post _ _ _ _ Habs H).
    rewrite (proj1 (List.Forall_forall _ _) Hgs f Hin a s1). reflexivity.
Qed.


(** *** Integers and what is not one *)

Lemma ParseUint_digits_nonneg (s : string) (acc n : Z) :
  0 <= acc -> ParseUint_digits s acc = Some n -> 0 <= n.
Proof.
  revert acc. induction s as [| c s IH]; intros acc Hacc H; simpl in H.
  - injection H as <-. exact Hacc.
  - destruct (isDigit c) eqn:Hc; [| discriminate].
    unfold isDigit, between in Hc. eapply IH; [| exact H]. lia.
Qed.

Lemma ParseInt_range (lit : string) (n : Z) : ParseInt lit 64 = Some n -> is_int n.
Proof.
  unfold ParseInt, is_int. destruct lit as [| c tl]; [discriminate |].
  change (2 ^ (64 - 1)) with (2 ^ 63).
  destruct (byte_of c =? 43); [| destruct (byte_of c =? 45)].
  - destruct tl as [| c' tl']; [discriminate |].
    destruct (ParseUint_digits (String c' tl') 0) as [un |] eqn:Hu; [| discriminate].
    apply ParseUint_digits_nonneg in Hu; [| lia]. cbn [negb andb].
    destruct (Z.leb_spec (2 ^ 63) un); [discriminate |]. intros [= <-]. lia.
  - destruct tl as [| c' tl']; [discriminate |].
    destruct (ParseUint_digits (String c' tl') 0) as [un |] eqn:Hu; [| discriminate].
    apply ParseUint_digits_nonneg in Hu; [| lia]. cbn [negb andb].
    destruct (Z.ltb_spec (2 ^ 63) un); [discriminate |]. intros [= <-]. lia.
  - destruct (ParseUint_digits (String c tl) 0) as [un |] eqn:Hu; [| discriminate].
    apply ParseUint_digits_nonneg in Hu; [| lia]. cbn [negb andb].
    destruct (Z.leb_spec (2 ^ 63) un); [discriminate |]. intros [= <-]. lia.
Qed.

Lemma decode_elems_cons {A : Type} (t : GoType A) (x : json) (xs : list json) (cur : list A)
    (d : savedError) :
  decode_elems t (x :: xs) cur d
  = match decode t x (hd (zero t) cur) d with
    | inl err => inl err
    | inr (a, d1) =>
        match decode_elems t xs (tl cur) d1 with
        | inl err => inl err
        | inr (l, d2) => inr (a :: l, d2)
        end
    end.
Proof. reflexivity. Qed.

Lemma decode_elems_int (xs : list json) (cur : list int) (d : savedError) :
  exists l,
    decode_elems int_t xs cur d
    = inr (l, match d with
              | Some _ => d
              | None => option_map elem_error (List.find (fun j => negb (accepted_elem j)) xs)
              end).
Proof.
  revert cur d. induction xs as [| x xs IH]; intros cur d.
  - exists []. destruct d; reflexivity.
  - assert (Hx : exists a, decode int_t x (hd (zero int_t) cur) d
                           = inr (a, if accepted_elem x then d else saveError (elem_error x) d)).
    { simpl. unfold decode_int, mismatch, accepted_elem, integer_elem, elem_error.
      destruct x; try (eexists; reflexivity).
      destruct (ParseInt lit 64) as [n |] eqn:Hp; [| eexists; reflexivity].
      apply ParseInt_range in Hp. destruct Hp as [Hlo Hhi].
      change (2 ^ (64 - 1)) with (2 ^ 63).
      destruct (Z.leb_spec (- 2 ^ 63) n); [| lia].
      destruct (Z.ltb_spec n (2 ^ 63)); [| lia].
      eexists; reflexivity. }
    destruct Hx as [a Hx]. rewrite decode_elems_cons, Hx.
    destruct (IH (tl cur) (if accepted_elem x then d else saveError (elem_error x) d))
      as [l Hl].
    rewrite Hl. exists (a :: l). f_equal. f_equal.
    simpl List.find. destruct (accepted_elem x); simpl; [reflexivity |].
    destruct d; reflexivity.
Qed.

Lemma decode_members_found {S : Type} (fs : list (field S)) (k : string) (v : json)
    (rest : list (string * json)) (f : field S) (s : S) (d : savedError) :
  find_field fs k = Some f ->
  decode_members fs ((k, v) :: rest) s d
  = match decode (f_t f) v (f_get f s) d with
    | inl err => inl err
    | inr (a, d1) => decode_members fs rest (f_set f a s) d1
    end.
Proof. intros H. simpl. rewrite H. reflexivity. Qed.

Lemma ErrorCodes_scanned_rejects (xs : list json) (bad : json) (e : ErrorCodes) :
  List.find (fun j => negb (accepted_elem j)) xs = Some bad ->
  ErrorCodes_UnmarshalJSON_scanned (Some (JArr xs)) e = (e, Some (elem_error bad)).
Proof.
  intros Hbad. unfold ErrorCodes_UnmarshalJSON_scanned, json_Unmarshal_scanned.
  simpl decode. unfold decode_slice.
  destruct (decode_elems_int xs [] None) as [l Hl]. rewrite Hl, Hbad. reflexivity.
Qed.

Lemma struct_with_bad_codes_fails {S : Type} (name : string) (z : S) (fs : list (field S))
    (get : S -> ErrorCodes) (set : ErrorCodes -> S -> S) (tag : string)
    (xs : list json) (bad : json) (pre post : list (string * json)) (v : S) :
  find_field fs "errorCodes" = Some (Field "ErrorCodes" tag ErrorCodes_t get set) ->
  List.find (fun j => negb (accepted_elem j)) xs = Some bad ->
  exists err,
    json_Unmarshal_scanned (struct_t name z fs)
      (Some (JObj (pre ++ ("errorCodes", JArr xs) :: post))) v = inl err.
Proof.
  intros Hf Hbad. unfold json_Unmarshal_scanned. simpl decode. unfold decode_struct.
  rewrite decode_members_app.
  destruct (decode_members fs pre v None) as [err | [s d]]; [exists err; reflexivity |].
  rewrite (decode_members_found _ _ _ _ _ _ _ Hf). simpl decode. unfold decode_ErrorCodes.
  rewrite (ErrorCodes_scanned_rejects xs bad _ Hbad). eexists. reflexivity.
Qed.

(** C2, amended: an element of the array that is neither an integer of
    the range of [int] nor [null] (a string, a boolean, an array, an
    object, a number with a fraction or an exponent, an integer out of
    range) makes [UnmarshalJSON] return the decoder's error for the first
    such element and leave the receiver alone; and a response, routes or
    matrix, whose [errorCodes] member is such an array is not decoded:
    [json.Unmarshal] returns an error. *)
Theorem ErrorCodes_rejects_non_integers (xs : list json) (bad : json) (e : ErrorCodes) :
  List.find (fun j => negb (accepted_elem j)) xs = Some bad ->
  (forall b, parse b = Some (JArr xs) ->
     ErrorCodes_UnmarshalJSON b e = (e, Some (elem_error bad)))
  /\ (forall b pre post v,
        parse b = Some (JObj (pre ++ ("errorCodes", JArr xs) :: post)) ->
        exists err, json_Unmarshal RoutesResponse_t b v = inl err)
  /\ (forall b pre post v,
        parse b = Some (JObj (pre ++ ("errorCodes", JArr xs) :: post)) ->
        exists err, json_Unmarshal MatrixResponse_t b v = inl err).
Proof.
  intros Hbad. split; [| split].
  - intros b Hb. unfold ErrorCodes_UnmarshalJSON. rewrite Hb.
    apply ErrorCodes_scanned_rejects. exact Hbad.
  - intros b pre post v Hb. unfold json_Unmarshal. rewrite Hb.
    eapply struct_with_bad_codes_fails; [reflexivity | exact Hbad].
  - intros b pre post v Hb. unfold json_Unmarshal. rewrite Hb.
    eapply struct_with_bad_codes_fails; [reflexivity | exact Hbad].
Qed.

Lemma decode_struct_t {S : Type} (name : string) (z : S) (fs : list (field S)) :
  decode (struct_t name z fs) = decode_struct name fs.
Proof. reflexivity. Qed.

Lemma find_field_numOrigins :
  find_field MatrixResponse_fields "numOrigins"
  = Some (Field "NumOrigins" (js "json:'numOrigins'") int_t
            MatrixResponse_NumOrigins MatrixResponse_set_NumOrigins).
Proof. reflexivity. Qed.

Lemma find_field_numDestinations :
  find_field MatrixResponse_fields "numDestinations"
  = Some (Field "NumDestinations" (js "json:'numDestinations'") int_t
            MatrixResponse_NumDestinations MatrixResponse_set_NumDestinations).
Proof. reflexivity. Qed.

Lemma find_field_travelTimes :
  find_field MatrixResponse_fields "travelTimes"
  = Some (Field "TravelTimes" (js "json:'travelTimes'") (slice_t int32_t)
            MatrixResponse_TravelTimes MatrixResponse_set_TravelTimes).
Proof. reflexivity. Qed.

Lemma find_field_travelTimes_fold (k : string) :
  foldName k = "TRAVELTIMES" ->
  find_field MatrixResponse_fields k
  = Some (Field "TravelTimes" (js "json:'travelTimes'") (slice_t int32_t)
            MatrixResponse_TravelTimes MatrixResponse_set_TravelTimes).
Proof.
  intros Hk. unfold find_field, MatrixResponse_fields.
  assert (Hex : forall name (f : field MatrixResponse),
            json_name f = Some name -> foldName name <> "TRAVELTIMES" ->
            exact_match k f = false /\ folded_match k f = false).
  { intros name f Hn Hne. unfold exact_match, folded_match. rewrite Hn, Hk. split.
    - apply String.eqb_neq. intros ->. apply Hne. exact Hk.
    - apply String.eqb_neq. exact Hne. }
  cbn [List.find].
  destruct (Hex "numOrigins"
              (Field "NumOrigins" (js "json:'numOrigins'") int_t
                 MatrixResponse_NumOrigins MatrixResponse_set_NumOrigins)
              eq_refl ltac:(discriminate)) as [-> H1].
  destruct (Hex "numDestinations"
              (Field "NumDestinations" (js "json:'numDestinations'") int_t
                 MatrixResponse_NumDestinations MatrixResponse_set_NumDestinations)
              eq_refl ltac:(discriminate)) as [-> H2].
  destruct (Hex "distances"
              (Field "Distances" (js "json:'distances'") (slice_t int32_t)
                 MatrixResponse_Distances MatrixResponse_set_Distances)
              eq_refl ltac:(discriminate)) as [-> H4].
  destruct (Hex "errorCodes"
              (Field "ErrorCodes" (js "json:'errorCodes'") ErrorCodes_t
                 MatrixResponse_ErrorCodes MatrixResponse_set_ErrorCodes)
              eq_refl ltac:(discriminate)) as [-> H5].
  destruct (exact_match k
              (Field "TravelTimes" (js "json:'travelTimes'") (slice_t int32_t)
                 MatrixResponse_TravelTimes MatrixResponse_set_TravelTimes)); [reflexivity |].
  rewrite H1, H2.
  assert (H3 : folded_match k
                 (Field "TravelTimes" (js "json:'travelTimes'") (slice_t int32_t)
                    MatrixResponse_TravelTimes MatrixResponse_set_TravelTimes) = true).
  { unfold folded_match.
    change (json_name (Field "TravelTimes" (js "json:'travelTimes'") (slice_t int32_t)
                         MatrixResponse_TravelTimes MatrixResponse_set_TravelTimes))
      with (Some "travelTimes").
    rewrite Hk. reflexivity. }
  rewrite H3. reflexivity.
Qed.

(** C5, amended: a decoded [MatrixResponse] holds the [travelTimes] of the
    wire as they are, whatever their number and whatever [numOrigins] and
    [numDestinations] say: the last member named [travelTimes] (up to
    case), an array of 32-bit integers, is what the response holds, and an
    object with two origins, three destinations and any such array is
    decoded without error.  When no member of the object is named
    [travelTimes] the decoding yields a nil collection, and it succeeds. *)
Theorem MatrixResponse_travelTimes_as_sent :
  (forall pre k ts post m,
     foldName k = "TRAVELTIMES" -> Forall is_int32 ts ->
     (forall k' v', In (k', v') post -> foldName k' <> "TRAVELTIMES") ->
     json_Unmarshal_scanned MatrixResponse_t
       (Some (JObj (pre ++ (k, JArr (map num ts)) :: post))) MatrixResponse_zero = inr m ->
     MatrixResponse_TravelTimes m = Some ts)
  /\ (forall n m ts, is_int n -> is_int m -> Forall is_int32 ts ->
        json_Unmarshal_scanned MatrixResponse_t
          (Some (JObj [("numOrigins", num n); ("numDestinations", num m);
                       ("travelTimes", JArr (map num ts))]))
          MatrixResponse_zero
        = inr (Build_MatrixResponse n m (Some ts) None None))
  /\ (forall n m, is_int n -> is_int m ->
        json_Unmarshal_scanned MatrixResponse_t
          (Some (JObj [("numOrigins", num n); ("numDestinations", num m)]))
          MatrixResponse_zero
        = inr (Build_MatrixResponse n m None None None))
  /\ (forall kvs m,
        (forall k v, In (k, v) kvs -> foldName k <> "TRAVELTIMES") ->
        json_Unmarshal_scanned MatrixResponse_t (Some (JObj kvs)) MatrixResponse_zero = inr m ->
        MatrixResponse_TravelTimes m = None).
Proof.
  assert (Hun : forall kvs s d s' d',
            (forall k v, In (k, v) kvs -> foldName k <> "TRAVELTIMES") ->
            decode_members MatrixResponse_fields kvs s d = inr (s', d') ->
            MatrixResponse_TravelTimes s' = MatrixResponse_TravelTimes s).
  { intros kvs s d s' d' Habs Hd.
    apply (decode_members_untouched MatrixResponse_fields
             (Field "TravelTimes" (js "json:'travelTimes'") (slice_t int32_t)
                MatrixResponse_TravelTimes MatrixResponse_set_TravelTimes)
             apart_MatrixResponse_fields) in Hd.
    - exact Hd.
    - simpl. tauto.
    - intros k v Hk. apply String.eqb_neq. intros Heq. apply (Habs k v Hk).
      symmetry. exact Heq. }
  split; [| split; [| split]].
  - intros pre k ts post m Hk Hts Hpost H.
    unfold json_Unmarshal_scanned, MatrixResponse_t in H. rewrite decode_struct_t in H.
    unfold decode_struct in H. rewrite decode_members_app in H.
    destruct (decode_members MatrixResponse_fields pre MatrixResponse_zero None)
      as [err | [s1 d1]]; [discriminate |].
    rewrite (decode_members_found _ _ _ _ _ _ _ (find_field_travelTimes_fold k Hk)) in H.
    cbn [decode f_t f_get f_set slice_t] in H. unfold decode_slice in H.
    rewrite (decode_elems_nums 32 int32_t ts _ _ eq_refl) in H;
      [| eapply Forall_impl; [exact Hts | apply is_int32_is_int] | exact Hts].
    match type of H with
    | context [decode_members ?fs post ?s ?d] =>
        destruct (decode_members fs post s d) as [err | [m' [err |]]] eqn:Hd
    end; try discriminate.
    injection H as ->. rewrite (Hun _ _ _ _ _ Hpost Hd). reflexivity.
  - intros n m ts Hn Hm Hts. unfold json_Unmarshal_scanned, MatrixResponse_t.
    rewrite decode_struct_t. unfold decode_struct.
    rewrite (decode_members_found _ _ _ _ _ _ _ find_field_numOrigins).
    cbn [decode f_t f_get f_set int_t]. unfold num at 1.
    rewrite decode_int_FormatInt by (assumption || exact Hn).
    rewrite (decode_members_found _ _ _ _ _ _ _ find_field_numDestinations).
    cbn [decode f_t f_get f_set int_t]. unfold num at 1.
    rewrite decode_int_FormatInt by (assumption || exact Hm).
    rewrite (decode_members_found _ _ _ _ _ _ _ find_field_travelTimes).
    cbn [decode f_t f_get f_set slice_t]. unfold decode_slice.
    rewrite (decode_elems_nums 32 int32_t ts _ _ eq_refl).
    + reflexivity.
    + eapply Forall_impl; [exact Hts | apply is_int32_is_int].
    + exact Hts.
  - intros n m Hn Hm. unfold json_Unmarshal_scanned, MatrixResponse_t.
    rewrite decode_struct_t. unfold decode_struct.
    rewrite (decode_members_found _ _ _ _ _ _ _ find_field_numOrigins).
    cbn [decode f_t f_get f_set int_t]. unfold num at 1.
    rewrite decode_int_FormatInt by (assumption || exact Hn).
    rewrite (decode_members_found _ _ _ _ _ _ _ find_field_numDestinations).
    cbn [decode f_t f_get f_set int_t]. unfold num at 1.
    rewrite decode_int_FormatInt by (assumption || exact Hm).
    reflexivity.
  - intros kvs m Habs H. unfold json_Unmarshal_scanned, MatrixResponse_t in H.
    rewrite decode_struct_t in H. unfold decode_struct in H.
    revert H.
    destruct (decode_members MatrixResponse_fields kvs MatrixResponse_zero None)
      as [err | [m' [err |]]] eqn:Hd; intros H; try discriminate.
    injection H as ->. apply (Hun _ _ _ _ _ Habs Hd).
Qed.

(** *** The text of an array of integers *)

Lemma byte_of_inj (c c' : ascii) : byte_of c = byte_of c' -> c = c'.
Proof.
  unfold byte_of. intros H. apply N2Z.inj in H.
  rewrite <- (ascii_N_embedding c), <- (ascii_N_embedding c'), H. reflexivity.
Qed.

Lemma take_digits_app (ds rest : string) :
  str_forallb isDigit ds = true -> delimited rest -> take_digits (ds +:+ rest) = (ds, rest).
Proof.
  intros Hds (c & tl & -> & Hc). induction ds as [| a ds IH].
  - simpl. unfold isDigit, between.
    destruct (Z.leb_spec 48 (byte_of c)); destruct (Z.leb_spec (byte_of c) 57);
      simpl; try reflexivity; lia.
  - rewrite str_app_cons. simpl in Hds |- *. apply andb_true_iff in Hds as [Ha Hds].
    rewrite Ha, (IH Hds). reflexivity.
Qed.

Lemma FormatInt_shape (n : Z) :
  exists sg c tl,
    FormatInt n = sg +:+ String c tl
    /\ (sg = "" \/ sg = "-")
    /\ isDigit c = true /\ str_forallb isDigit tl = true
    /\ (byte_of c = 48 -> tl = "").
Proof.
  unfold FormatInt. destruct (Z.ltb_spec n 0) as [Hneg | Hpos].
  - destruct (formatBits_digits (S (Z.to_nat (Z.log2 (- n)))) (- n))
      as (c & tl & Heq & Hc & Htl & Hp & _); [lia | split; [lia | apply log2_fuel; lia] |].
    exists "-", c, tl. rewrite Heq. split; [reflexivity |]. split; [right; reflexivity |].
    split; [exact Hc |]. split; [exact Htl |].
    intros H48. specialize (Hp ltac:(lia)). unfold between in Hp. lia.
  - destruct (formatBits_digits (S (Z.to_nat (Z.log2 n))) n)
      as (c & tl & Heq & Hc & Htl & Hp & Hz); [lia | split; [lia | apply log2_fuel; lia] |].
    exists "", c, tl. rewrite Heq. split; [reflexivity |]. split; [left; reflexivity |].
    split; [exact Hc |]. split; [exact Htl |].
    intros H48. destruct (Z.eq_dec n 0) as [-> | Hne]; [apply Hz; reflexivity |].
    specialize (Hp ltac:(lia)). unfold between in Hp. lia.
Qed.

Lemma scan_number_FormatInt (n : Z) (rest : string) :
  delimited rest -> scan_number (FormatInt n +:+ rest) = Some (FormatInt n, rest).
Proof.
  intros Hrest. destruct (FormatInt_shape n) as (sg & c & tl & -> & Hsg & Hc & Htl & Hz).
  assert (Hint : scan_int_part (String c tl +:+ rest) = Some (String c tl, rest)).
  { rewrite str_app_cons. unfold scan_int_part.
    destruct (Z.eqb_spec (byte_of c) 48) as [H48 | Hn48].
    - rewrite (Hz H48). f_equal. f_equal. f_equal. apply byte_of_inj. rewrite H48. reflexivity.
    - unfold isDigit, between in Hc. unfold between.
      destruct (Z.leb_spec 49 (byte_of c)); [| lia].
      destruct (Z.leb_spec (byte_of c) 57); [| lia]. simpl.
      rewrite (take_digits_app tl rest Htl Hrest). reflexivity. }
  assert (Htail : scan_frac rest = Some ("", rest) /\ scan_exp rest = Some ("", rest)).
  { destruct Hrest as (c' & tl' & -> & Hc'). unfold scan_frac, scan_exp.
    destruct (Z.eqb_spec (byte_of c') 46); [lia |].
    destruct (Z.eqb_spec (byte_of c') 101); [lia |].
    destruct (Z.eqb_spec (byte_of c') 69); [lia |]. split; reflexivity. }
  destruct Htail as [Hfr Hex].
  assert (Hsign : scan_sign (sg +:+ String c tl +:+ rest) = (sg, String c tl +:+ rest)).
  { destruct Hsg as [-> | ->].
    - change ("" +:+ String c tl +:+ rest) with (String c (tl +:+ rest)).
      unfold scan_sign. unfold isDigit, between in Hc.
      destruct (Z.eqb_spec (byte_of c) 45); [lia | reflexivity].
    - reflexivity. }
  unfold scan_number. rewrite str_app_assoc, Hsign, Hint, Hfr, Hex.
  rewrite !str_app_nil_r. reflexivity.
Qed.

Lemma lex_number (c : ascii) (tl : string) (f : nat) :
  byte_of c = 45 \/ isDigit c = true ->
  lex (S f) (String c tl)
  = match scan_number (String c tl) with
    | Some (lit, rest) => option_map (cons (TNum lit)) (lex f rest)
    | None => None
    end.
Proof.
  intros Hc. simpl lex. unfold isSpace, isDigit, between in *.
  assert (H : byte_of c = 45 \/ 48 <= byte_of c <= 57) by (destruct Hc; [left | right]; lia).
  repeat match goal with
         | |- context [Z.eqb (byte_of c) ?k] => destruct (Z.eqb_spec (byte_of c) k); [lia |]
         end.
  simpl orb. cbv iota.
  destruct (Z.eqb_spec (byte_of c) 45) as [E | E].
  - reflexivity.
  - destruct (Z.leb_spec 48 (byte_of c)); [| lia].
    destruct (Z.leb_spec (byte_of c) 57); [| lia]. reflexivity.
Qed.

Lemma FormatInt_first (n : Z) :
  exists c tl, FormatInt n = String c tl /\ (byte_of c = 45 \/ isDigit c = true).
Proof.
  destruct (FormatInt_shape n) as (sg & c & tl & -> & [-> | ->] & Hc & _).
  - exists c, tl. split; [reflexivity | right; exact Hc].
  - exists "-"%char, (String c tl). split; [reflexivity | left; reflexivity].
Qed.

Lemma ints_text_cons (x : Z) (l : list Z) :
  ints_text (x :: l)
  = FormatInt x +:+ match l with
                    | [] => "]"
                    | _ => String "," (ints_text l)
                    end.
Proof.
  unfold ints_text. destruct l as [| y l]; [reflexivity |].
  change (String.concat "," (map FormatInt (x :: y :: l)))
    with (FormatInt x +:+ "," +:+ String.concat "," (map FormatInt (y :: l))).
  rewrite !str_app_assoc. reflexivity.
Qed.

Lemma lex_ints (l : list Z) (f : nat) :
  (String.length (ints_text l) < f)%nat -> lex f (ints_text l) = Some (toks l).
Proof.
  revert f. induction l as [| x l IH]; intros f Hf.
  - change (ints_text []) with "]" in *. simpl in Hf.
    destruct f as [| [| f]]; try lia. reflexivity.
  - rewrite ints_text_cons in *. rewrite str_length_app in Hf.
    destruct (FormatInt_first x) as (c & tl & Hx & Hc).
    destruct f as [| f]; [lia |].
    assert (Hlen : (1 <= String.length (FormatInt x))%nat) by (rewrite Hx; simpl; lia).
    set (rest := match l with [] => "]" | _ => String "," (ints_text l) end) in *.
    assert (Hrest : delimited rest).
    { subst rest. destruct l; eexists _, _; (split; [reflexivity |]); [right | left];
        reflexivity. }
    assert (Hlex : lex f rest = Some (match l with [] => [TRBrack] | _ => TComma :: toks l end)).
    { subst rest. destruct l as [| y l].
      - simpl in Hf. destruct f as [| [| f]]; try lia. reflexivity.
      - destruct f as [| f]; [simpl in Hf; lia |].
        change (lex (S f) (String "," (ints_text (y :: l))))
          with (option_map (cons TComma) (lex f (ints_text (y :: l)))).
        rewrite IH; [reflexivity |]. simpl in Hf. lia. }
    pose proof (scan_number_FormatInt x rest Hrest) as Hs.
    rewrite Hx in Hs |- *. rewrite str_app_cons in Hs |- *.
    rewrite (lex_number c _ f Hc), Hs, Hlex. cbn [toks option_map]. rewrite Hx. reflexivity.
Qed.

Lemma parse_elems_toks (l : list Z) (x : Z) (f : nat) (depth : Z) :
  (List.length l + 1 < f)%nat ->
  parse_elems f depth (toks (x :: l)) = Some (map num (x :: l), []).
Proof.
  revert x f. induction l as [| y l IH]; intros x f Hf.
  - destruct f as [| [| f]]; simpl in Hf; try lia. reflexivity.
  - destruct f as [| [| f]]; simpl in Hf; try lia.
    change (toks (x :: y :: l)) with (TNum (FormatInt x) :: TComma :: toks (y :: l)).
    change (parse_elems (S (S f)) depth (TNum (FormatInt x) :: TComma :: toks (y :: l)))
      with (match parse_elems (S f) depth (toks (y :: l)) with
            | Some (xs, r') => Some (JNum (FormatInt x) :: xs, r')
            | None => None
            end).
    rewrite IH by lia. reflexivity.
Qed.

Lemma toks_length (l : list Z) : (List.length l < List.length (toks l))%nat.
Proof.
  induction l as [| x l IH]; simpl; [lia |]. destruct l; simpl in *; lia.
Qed.

(** The text of an array of integers is scanned as the array of their
    literals. *)
Lemma parse_wire_ints (l : list Z) : parse (wire_ints l) = Some (JArr (map num l)).
Proof.
  unfold parse, wire_ints.
  change (lex (S (String.length (String "[" (ints_text l)))) (String "[" (ints_text l)))
    with (option_map (cons TLBrack) (lex (String.length (String "[" (ints_text l))) (ints_text l))).
  rewrite lex_ints by (simpl; lia). simpl option_map.
  pose proof (toks_length l) as Hlen.
  destruct l as [| x l].
  - reflexivity.
  - set (f := (2 * List.length (TLBrack :: toks (x :: l)) + 2)%nat).
    assert (Hf : (List.length l + 3 < f)%nat) by (subst f; simpl in *; lia).
    destruct f as [| f]; [lia |].
    change (parse_value (S f) 0 (TLBrack :: toks (x :: l)))
      with (match parse_elems f (0 + 1) (toks (x :: l)) with
            | Some (xs, r') => Some (JArr xs, r')
            | None => None
            end).
    rewrite parse_elems_toks by lia. reflexivity.
Qed.

Lemma fold_append_codes (l : list int) (acc : list ErrorCode) :
  fold_left (fun codes errorCode => append codes (mkErrorCode errorCode)) l (Some acc)
  = Some (acc ++ map mkErrorCode l).
Proof.
  revert acc. induction l as [| x l IH]; intros acc; simpl.
  - rewrite app_nil_r. reflexivity.
  - unfold append at 2. simpl elems. rewrite IH, <- app_assoc. reflexivity.
Qed.

Lemma ErrorCodes_scanned_ints (l : list Z) (e : ErrorCodes) :
  Forall is_int l ->
  ErrorCodes_UnmarshalJSON_scanned (Some (JArr (map num l))) e
  = (Some (map mkErrorCode l), None).
Proof.
  intros Hl. unfold ErrorCodes_UnmarshalJSON_scanned, json_Unmarshal_scanned.
  cbn [decode slice_t]. unfold decode_slice.
  rewrite (decode_elems_nums 64 int_t l _ _ eq_refl Hl).
  - cbn [elems]. unfold make. rewrite fold_append_codes. reflexivity.
  - eapply Forall_impl; [exact Hl |]. intros n Hn. exact Hn.
Qed.

(** C1: for every sequence [codes] of Go integers, the text
    [json.Marshal] writes for it, and any text that is scanned as the
    array of these integers, is decoded without error, whatever the
    receiver held, into the sequence of the same integers as [ErrorCode]s:
    the same length, the same order, nothing dropped, none refused for not
    being one of the named constants; reading the integers back gives
    [codes]. *)
Theorem ErrorCodes_roundtrip (codes : list Z) (e : ErrorCodes) :
  Forall is_int codes ->
  ErrorCodes_UnmarshalJSON (wire_ints codes) e = (Some (map mkErrorCode codes), None)
  /\ (forall b, parse b = Some (JArr (map num codes)) ->
        ErrorCodes_UnmarshalJSON b e = (Some (map mkErrorCode codes), None))
  /\ map ErrorCode_int (map mkErrorCode codes) = codes
  /\ List.length (map mkErrorCode codes) = List.length codes.
Proof.
  intros Hc. split; [| split; [| split]].
  - unfold ErrorCodes_UnmarshalJSON. rewrite parse_wire_ints.
    apply ErrorCodes_scanned_ints. exact Hc.
  - intros b Hb. unfold ErrorCodes_UnmarshalJSON. rewrite Hb.
    apply ErrorCodes_scanned_ints. exact Hc.
  - rewrite List.map_map. simpl. apply List.map_id.
  - apply List.length_map.
Qed.

(** *** More on the Routes call *)

Lemma eqb_mode_ok (tm : string) :
  String.eqb tm invalid || String.eqb tm unspecified = false -> mode_ok tm.
Proof.
  intros H. apply orb_false_elim in H as [H1 H2].
  split; apply String.eqb_neq; assumption.
Qed.

(** X1: the calls [Routes] makes.  Whatever the request, the service and
    the collaborator, the calls recorded before stay, and what is added is
    nothing at all (and then the state is the one [Routes] was given), or
    one [NewRequest], or one [NewRequest] followed by one [Do]; a
    [NewRequest] is made only with a mode that passes the check and the
    parsed URL, with the method GET, the encoded query of the request and
    no body; a [Do] is made only on the request that this [NewRequest]
    returned. *)
Theorem Routes_call_discipline (s : RoutingService) (ctx : context_Context)
    (req : RoutesRequest) (st : State) :
  let tm := TransportMode_String (RoutesRequest_TransportMode req) in
  let c := RoutingService_Client s in
  let query := Values_Encode (Routes_values tm req) in
  exists l,
    calls (snd (Routes s ctx req st)) = calls st ++ l
    /\ ((l = [] /\ snd (Routes s ctx req st) = st)
        \/ exists u,
             mode_ok tm
             /\ URL_Parse (RoutingService_URL s) "routes" = inr u
             /\ ((l = [CallNewRequest ctx u "GET" query None]
                  /\ exists e w, NewRequest c ctx u "GET" query None (world st) = (inl e, w))
                 \/ exists r w,
                      NewRequest c ctx u "GET" query None (world st) = (inr r, w)
                      /\ l = [CallNewRequest ctx u "GET" query None; CallDo r])).
Proof.
  intros tm c query. unfold Routes. fold tm. fold c. fold query.
  destruct (String.eqb tm invalid || String.eqb tm unspecified) eqn:Hm.
  { exists []. rewrite app_nil_r. split; [reflexivity | left; split; reflexivity]. }
  apply eqb_mode_ok in Hm.
  destruct (URL_Parse (RoutingService_URL s) "routes") as [e | u] eqn:Hu.
  { exists []. rewrite app_nil_r. split; [reflexivity | left; split; reflexivity]. }
  unfold Client_NewRequest, Client_Do, http_MethodGet.
  destruct (NewRequest c ctx u "GET" query None (world st)) as [[e | r] w1] eqn:Hn.
  - exists [CallNewRequest ctx u "GET" query None]. split; [reflexivity |].
    right. exists u. split; [exact Hm |]. split; [reflexivity |].
    left. split; [reflexivity |]. exists e, w1. exact Hn.
  - cbn [world calls].
    destruct (Do c r RoutesResponse_zero w1) as [[resp [e | ]] w2];
      (exists [CallNewRequest ctx u "GET" query None; CallDo r]; split;
       [ cbn [snd calls]; rewrite <- app_assoc; reflexivity
       | right; exists u; split; [exact Hm |]; split; [reflexivity |];
         right; exists r, w1; split; [exact Hn | reflexivity] ]).
Qed.

(** X2: when [Routes] succeeds.  It returns a response, with a nil error,
    exactly when the mode passes the check, the URL is parsed,
    [NewRequest] returns a request and [Do], given that request and a
    zero response, returns a nil error; the response is then the one [Do]
    left, and the state the one [Do] left. *)
Theorem Routes_success_iff (s : RoutingService) (ctx : context_Context)
    (req : RoutesRequest) (st : State) (resp : RoutesResponse) (st' : State) :
  let tm := TransportMode_String (RoutesRequest_TransportMode req) in
  let c := RoutingService_Client s in
  let query := Values_Encode (Routes_values tm req) in
  Routes s ctx req st = ((Some resp, None), st')
  <-> (mode_ok tm
       /\ exists u r st1,
            URL_Parse (RoutingService_URL s) "routes" = inr u
            /\ Client_NewRequest c ctx u http_MethodGet query None st = (inr r, st1)
            /\ Client_Do c r RoutesResponse_zero st1 = ((resp, None), st')).
Proof.
  intros tm c query. unfold Routes. fold tm. fold c. fold query. split.
  - destruct (String.eqb tm invalid || String.eqb tm unspecified) eqn:Hm; [discriminate |].
    apply eqb_mode_ok in Hm.
    destruct (URL_Parse (RoutingService_URL s) "routes") as [e | u] eqn:Hu; [discriminate |].
    destruct (Client_NewRequest c ctx u http_MethodGet query None st) as [[e | r] st1] eqn:Hn;
      [discriminate |].
    destruct (Client_Do c r RoutesResponse_zero st1) as [[resp' [e | ]] st2] eqn:Hd;
      [discriminate |].
    intros [= -> ->]. split; [exact Hm |]. exists u, r, st1.
    split; [reflexivity |]. split; [exact Hn | exact Hd].
  - intros (Hm & u & r & st1 & Hu & Hn & Hd).
    rewrite (mode_ok_eqb _ Hm), Hu, Hn, Hd. reflexivity.
Qed.

Lemma QueryEscape_app (a b : string) :
  QueryEscape (a +:+ b) = QueryEscape a +:+ QueryEscape b.
Proof.
  induction a as [| c a IH]; [reflexivity |].
  rewrite str_app_cons. simpl QueryEscape. rewrite IH.
  destruct (byte_of c =? 32); [reflexivity |]. destruct (shouldEscape c); reflexivity.
Qed.

Lemma Values_Encode_seven (tm o d : string) :
  Values_Encode
    (Values_Add "currency" "EUR"
       (Values_Add "alternatives" "6"
          (Values_Add "spans" "length,duration,maxSpeed,speedLimit,incidents,notices"
             (Values_Add "destination" d
                (Values_Add "origin" o
                   (Values_Add "transportMode" tm
                      (Values_Add "return"
                         "summary,polyline,elevation,actions,instructions,travelSummary,tolls,incidents"
                         ∅)))))))
  = "alternatives=6&currency=EUR&destination=" +:+ QueryEscape d
    +:+ "&origin=" +:+ QueryEscape o
    +:+ "&return=summary%2Cpolyline%2Celevation%2Cactions%2Cinstructions%2CtravelSummary%2Ctolls%2Cincidents&spans=length%2Cduration%2CmaxSpeed%2CspeedLimit%2Cincidents%2Cnotices&transportMode="
    +:+ QueryEscape tm.
Proof. vm_compute. reflexivity. Qed.

(** X3: the query string of [Routes].  The text handed to [NewRequest]
    has the seven parameters in the order of their names, joined by [&];
    the fixed lists and the coordinate pairs have their commas written
    [%2C]; latitude, longitude and mode token are escaped as query
    components. *)
Theorem Routes_query_string (tm : string) (req : RoutesRequest) :
  Values_Encode (Routes_values tm req)
  = "alternatives=6&currency=EUR&destination="
    +:+ QueryEscape (Sprint_v (GeoWaypoint_Lat (RoutesRequest_Destination req)))
    +:+ "%2C" +:+ QueryEscape (Sprint_v (GeoWaypoint_Long (RoutesRequest_Destination req)))
    +:+ "&origin="
    +:+ QueryEscape (Sprint_v (GeoWaypoint_Lat (RoutesRequest_Origin req)))
    +:+ "%2C" +:+ QueryEscape (Sprint_v (GeoWaypoint_Long (RoutesRequest_Origin req)))
    +:+ "&return=summary%2Cpolyline%2Celevation%2Cactions%2Cinstructions%2CtravelSummary%2Ctolls%2Cincidents&spans=length%2Cduration%2CmaxSpeed%2CspeedLimit%2Cincidents%2Cnotices&transportMode="
    +:+ QueryEscape tm.
Proof.
  unfold Routes_values. rewrite Values_Encode_seven.
  rewrite !QueryEscape_app. change (QueryEscape ",") with "%2C".
  rewrite !str_app_assoc. reflexivity.
Qed.

Lemma str_count_app (c : ascii) (a b : string) :
  str_count c (a +:+ b) = (str_count c a + str_count c b)%nat.
Proof.
  induction a as [| x a IH]; [reflexivity |].
  rewrite str_app_cons. simpl. rewrite IH. lia.
Qed.

Lemma upperhex_kept (a : ascii) :
  shouldEscape (upperhex (byte_of a / 16)) = false
  /\ shouldEscape (upperhex (byte_of a mod 16)) = false.
Proof. destruct a as [[] [] [] [] [] [] [] []]; vm_compute; split; reflexivity. Qed.

(** A byte that [QueryEscape] escapes, other than the two it writes
    itself, is in no escaped text. *)
Lemma QueryEscape_count (c : ascii) (s : string) :
  shouldEscape c = true -> c <> "%"%char -> c <> "+"%char ->
  str_count c (QueryEscape s) = 0%nat.
Proof.
  intros Hc Hp Hplus.
  assert (Hne : forall a, shouldEscape a = false -> Ascii.eqb a c = false).
  { intros a Ha. apply Ascii.eqb_neq. intros ->. congruence. }
  induction s as [| a s IH]; [reflexivity |].
  simpl QueryEscape. destruct (byte_of a =? 32).
  { cbn [str_count]. rewrite IH. apply Ascii.eqb_neq in Hplus.
    rewrite (Ascii.eqb_sym "+" c), Hplus. reflexivity. }
  destruct (shouldEscape a) eqn:Ha.
  - destruct (upperhex_kept a) as [Hhi Hlo]. cbn [str_count].
    rewrite (Hne _ Hhi), (Hne _ Hlo), IH.
    apply Ascii.eqb_neq in Hp. rewrite (Ascii.eqb_sym "%" c), Hp. reflexivity.
  - cbn [str_count]. rewrite (Hne _ Ha), IH. reflexivity.
Qed.

(** X4: the query of [Routes] always has seven parameters.  Whatever the
    mode token is and however the coordinates are printed, the text
    handed to [NewRequest] has exactly six [&] and seven [=]: nothing in
    a value can end a parameter or start another. *)
Theorem Routes_query_seven_parameters (tm : string) (req : RoutesRequest) :
  str_count "&" (Values_Encode (Routes_values tm req)) = 6%nat
  /\ str_count "=" (Values_Encode (Routes_values tm req)) = 7%nat.
Proof.
  unfold Routes_values. rewrite Values_Encode_seven.
  rewrite !QueryEscape_app. change (QueryEscape ",") with "%2C".
  split; rewrite !str_count_app, !QueryEscape_count by (reflexivity || discriminate);
    reflexivity.
Qed.

(** *** More on [ErrorCodes.UnmarshalJSON] *)

Lemma decode_elems_int_codes (xs : list json) (d : savedError) :
  forallb accepted_elem xs = true ->
  decode_elems int_t xs [] d = inr (map elem_code xs, d).
Proof.
  induction xs as [| x xs IH]; intros H; [reflexivity |].
  simpl in H. apply andb_true_iff in H as [Hx Hxs].
  rewrite decode_elems_cons, map_cons. cbn [hd tl].
  assert (Hd : decode int_t x (zero int_t) d = inr (elem_code x, d)).
  { destruct x as [| b | lit | s | l | kvs]; try discriminate Hx; [reflexivity |].
    cbn [accepted_elem integer_elem] in Hx. cbn [decode int_t decode_int elem_code].
    destruct (ParseInt lit 64) as [n |] eqn:Hp; [| discriminate Hx].
    pose proof (ParseInt_range _ _ Hp) as Hr. unfold is_int in Hr.
    change (64 - 1) with 63.
    destruct (Z.leb_spec (- 2 ^ 63) n); [| lia].
    destruct (Z.ltb_spec n (2 ^ 63)); [| lia]. reflexivity. }
  rewrite Hd, (IH Hxs). reflexivity.
Qed.

Lemma find_none_forallb (xs : list json) :
  List.find (fun j => negb (accepted_elem j)) xs = None -> forallb accepted_elem xs = true.
Proof.
  induction xs as [| x xs IH]; [reflexivity |]. simpl.
  destruct (accepted_elem x); [exact IH | discriminate].
Qed.

Lemma ErrorCodes_scanned_array (xs : list json) (e : ErrorCodes) :
  ErrorCodes_UnmarshalJSON_scanned (Some (JArr xs)) e
  = match List.find (fun j => negb (accepted_elem j)) xs with
    | Some bad => (e, Some (elem_error bad))
    | None => (Some (map (fun j => mkErrorCode (elem_code j)) xs), None)
    end.
Proof.
  destruct (List.find (fun j => negb (accepted_elem j)) xs) as [bad |] eqn:Hf.
  - apply ErrorCodes_scanned_rejects. exact Hf.
  - apply find_none_forallb in Hf.
    unfold ErrorCodes_UnmarshalJSON_scanned, json_Unmarshal_scanned.
    cbn [decode slice_t decode_slice make elems].
    rewrite (decode_elems_int_codes _ _ Hf). cbn [elems].
    unfold make. rewrite fold_append_codes, app_nil_l, map_map. reflexivity.
Qed.

(** X5: what [UnmarshalJSON] does with an array.  When the text is
    scanned as an array, the result is decided by the first element that
    is neither [null] nor an integer literal of 64 bits: if there is one,
    its type error is returned and the receiver is left as it was; if
    there is none, the error is nil and the receiver holds one code for
    each element, in order, the integer of a literal and 0 for a [null],
    whatever it held before. *)
Theorem ErrorCodes_UnmarshalJSON_array (b : string) (xs : list json) (e : ErrorCodes) :
  parse b = Some (JArr xs) ->
  ErrorCodes_UnmarshalJSON b e
  = match List.find (fun j => negb (accepted_elem j)) xs with
    | Some bad => (e, Some (elem_error bad))
    | None => (Some (map (fun j => mkErrorCode (elem_code j)) xs), None)
    end.
Proof.
  intros Hb. unfold ErrorCodes_UnmarshalJSON. rewrite Hb. apply ErrorCodes_scanned_array.
Qed.

(** X6: what [UnmarshalJSON] does with a text that is no array.  A text
    the scanner refuses gives a syntax error, and a value other than an
    array and [null] the type error of [[]int] for its kind, the receiver
    being left as it was; [null] gives no error and an empty sequence
    that is not nil. *)
Theorem ErrorCodes_UnmarshalJSON_no_array (b : string) (e : ErrorCodes) :
  (forall xs, parse b <> Some (JArr xs)) ->
  ErrorCodes_UnmarshalJSON b e
  = match parse b with
    | None => (e, Some SyntaxError)
    | Some JNull => (Some [], None)
    | Some j => (e, Some (UnmarshalTypeError (kind_of j) "[]int"))
    end.
Proof.
  intros Hb. unfold ErrorCodes_UnmarshalJSON.
  destruct (parse b) as [[| x | lit | s | xs | kvs] |]; try reflexivity.
  exfalso. apply (Hb xs). reflexivity.
Qed.

(** X7: a successful [UnmarshalJSON] always leaves a sequence that is
    not nil, the empty one included, and the same one whatever the
    receiver held. *)
Theorem ErrorCodes_UnmarshalJSON_fresh (b : string) (e e' : ErrorCodes) :
  ErrorCodes_UnmarshalJSON b e = (e', None) ->
  exists codes,
    e' = Some codes
    /\ forall e2, ErrorCodes_UnmarshalJSON b e2 = (Some codes, None).
Proof.
  unfold ErrorCodes_UnmarshalJSON, ErrorCodes_UnmarshalJSON_scanned.
  destruct (json_Unmarshal_scanned (slice_t int_t) (parse b) make) as [err | l];
    [discriminate |].
  unfold make. rewrite fold_append_codes. intros [= <-].
  eexists. split; [reflexivity |]. intros e2. reflexivity.
Qed.

(** *** More on the decoding of the entities *)

Lemma decode_members_known {S : Type} (fs : list (field S)) (kvs : list (string * json))
    (s : S) (d : savedError) :
  decode_members fs (List.filter (known_key fs) kvs) s d = decode_members fs kvs s d.
Proof.
  revert s d. induction kvs as [| [k v] kvs IH]; intros s d; [reflexivity |].
  cbn [List.filter]. unfold known_key at 1. cbn [fst].
  destruct (find_field fs k) as [f |] eqn:Hf; cbn [decode_members]; rewrite Hf.
  - destruct (decode (f_t f) v (f_get f s) d) as [err | [a d1]]; [reflexivity | apply IH].
  - apply IH.
Qed.

(** X8: members that select no field count for nothing.  For each
    entity, the decoding of an object gives the same result, value and
    error alike, as the decoding of the object without the members whose
    key is the name of no field. *)
Theorem unknown_members_ignored :
  Forall (fun e => forall kvs s d,
            decode (e_t e) (JObj (List.filter (known_key (e_fields e)) kvs)) s d
            = decode (e_t e) (JObj kvs) s d)
    entities.
Proof.
  unfold entities.
  repeat first
    [ apply List.Forall_nil
    | apply List.Forall_cons;
      [ intros kvs s d; cbn [e_t e_fields]; exact (decode_members_known _ kvs s d) |] ].
Qed.

Lemma selected_by_name {S : Type} (fs : list (field S)) (f : field S) :
  NoDup (None :: folded_names fs) -> In f fs ->
  (exists n, json_name f = Some n /\ find_field fs n = Some f)
  /\ forall k, find_field fs k = Some f <-> folded_match k f = true.
Proof.
  intros Hnd Hin. apply NoDup_cons in Hnd as [Hnone Hnd].
  assert (Hk : forall k, find_field fs k = Some f <-> folded_match k f = true).
  { intros k. split; [apply find_field_elem | apply find_field_unique; assumption]. }
  split; [| exact Hk].
  destruct (json_name f) as [n |] eqn:Hn.
  - exists n. split; [reflexivity |]. apply Hk. unfold folded_match. rewrite Hn.
    apply String.eqb_refl.
  - exfalso. apply Hnone. apply list_elem_of_In.
    change None with (option_map foldName (@None string)). rewrite <- Hn.
    apply (List.in_map (fun f => option_map foldName (json_name f))). exact Hin.
Qed.

(** X9: the wire names of an entity select its fields without
    ambiguity.  In each entity every field has a wire name (none is left
    out of the wire), that name selects the field, and a key selects the
    field exactly when it is its wire name up to case: no field hides
    another, also where the tag is not read. *)
Theorem fields_selected_by_name :
  Forall (fun e => forall f, In f (e_fields e) ->
            (exists n, json_name f = Some n /\ find_field (e_fields e) n = Some f)
            /\ forall k, find_field (e_fields e) k = Some f <-> folded_match k f = true)
    entities.
Proof.
  unfold entities.
  repeat first
    [ apply List.Forall_nil
    | apply List.Forall_cons;
      [ intros f; cbn [e_fields]; apply selected_by_name;
        apply (bool_decide_unpack _); vm_compute; exact I |] ].
Qed.

Lemma find_field_folded {S : Type} (fs : list (field S)) (k k' : string) :
  NoDup (folded_names fs) -> foldName k = foldName k' -> find_field fs k = find_field fs k'.
Proof.
  intros Hnd Hk.
  assert (Hm : forall f : field S, folded_match k f = folded_match k' f).
  { intros f. unfold folded_match. rewrite Hk. reflexivity. }
  destruct (find_field fs k) as [f |] eqn:Hf.
  - apply find_field_elem in Hf as [Hin Hf]. symmetry.
    apply find_field_unique; [exact Hnd | exact Hin |]. rewrite <- Hm. exact Hf.
  - destruct (find_field fs k') as [g |] eqn:Hg; [| reflexivity].
    apply find_field_elem in Hg as [Hin Hg]. rewrite <- Hm in Hg.
    rewrite (find_field_unique fs k g Hnd Hin Hg) in Hf. discriminate.
Qed.

Lemma decode_members_same_keys {S : Type} (fs : list (field S))
    (kvs kvs' : list (string * json)) :
  NoDup (folded_names fs) -> same_keys kvs kvs' ->
  forall s d, decode_members fs kvs s d = decode_members fs kvs' s d.
Proof.
  intros Hnd H. induction H as [| [k v] [k' v'] kvs kvs' [Hk Hv] _ IH]; intros s d;
    [reflexivity |].
  cbn [fst snd] in Hk, Hv. subst v'. cbn [decode_members].
  rewrite (find_field_folded fs k k' Hnd Hk).
  destruct (find_field fs k') as [f |]; [| apply IH].
  destruct (decode (f_t f) v (f_get f s) d) as [err | [a d1]]; [reflexivity | apply IH].
Qed.

(** X10: the case of the keys does not count.  For each entity, two
    objects with the same values in the same order, under keys that are
    the same up to case, are decoded to the same result. *)
Theorem keys_up_to_case :
  Forall (fun e => forall kvs kvs' s d,
            same_keys kvs kvs' ->
            decode (e_t e) (JObj kvs) s d = decode (e_t e) (JObj kvs') s d)
    entities.
Proof.
  unfold entities.
  repeat first
    [ apply List.Forall_nil
    | apply List.Forall_cons;
      [ intros kvs kvs' s d H; cbn [e_t e_fields];
        refine (decode_members_same_keys _ kvs kvs' _ H s d);
        apply (bool_decide_unpack _); vm_compute; exact I |] ].
Qed.

(** *** Writing and reading back a [MatrixResponse] *)

Lemma encode_fields_cons {S : Type} (f : field S) (fs : list (field S)) (s : S) (n : string) :
  json_name f = Some n -> omitEmpty f = false ->
  encode_fields (f :: fs) s
  = match encode (f_t f) (f_get f s) with
    | inl err => inl err
    | inr j =>
        match encode_fields fs s with
        | inl err => inl err
        | inr kvs => inr ((n, j) :: kvs)
        end
    end.
Proof. intros Hn Ho. cbn [encode_fields]. rewrite Hn, Ho. reflexivity. Qed.

Ltac written_as n :=
  match goal with
  | |- context [encode_fields (?f :: ?fs) ?s] =>
      rewrite (encode_fields_cons f fs s n eq_refl eq_refl)
  end.

Lemma encode_elems_nums (t : GoType Z) (l : list Z) :
  encode t = (fun n => inr (JNum (FormatInt n))) ->
  encode_elems t l = inr (map num l).
Proof.
  intros Ht. induction l as [| n l IH]; [reflexivity |].
  cbn [encode_elems]. rewrite IH, Ht. reflexivity.
Qed.

Lemma encode_slice_nums (t : GoType Z) (v : slice Z) :
  encode t = (fun n => inr (JNum (FormatInt n))) ->
  encode_slice t v = inr (wire_slice v).
Proof.
  intros Ht. destruct v as [l |]; [| reflexivity].
  unfold encode_slice. rewrite (encode_elems_nums t l Ht). reflexivity.
Qed.

Lemma encode_ErrorCodes (e : ErrorCodes) :
  encode_slice ErrorCode_t e = inr (wire_slice (option_map (map ErrorCode_int) e)).
Proof.
  destruct e as [l |]; [| reflexivity]. unfold encode_slice.
  assert (H : encode_elems ErrorCode_t l = inr (map num (map ErrorCode_int l))).
  { induction l as [| c l IH]; [reflexivity |]. cbn [encode_elems]. rewrite IH. reflexivity. }
  rewrite H. reflexivity.
Qed.

Lemma decode_slice_int32 (v cur : slice int32) (d : savedError) :
  Forall is_int32 (elems v) ->
  decode_slice int32_t (wire_slice v) cur d = inr (v, d).
Proof.
  intros Hv. destruct v as [l |]; [| reflexivity]. cbn [wire_slice decode_slice].
  rewrite (decode_elems_nums 32 int32_t l _ _ eq_refl);
    [reflexivity | eapply Forall_impl; [exact Hv | apply is_int32_is_int] | exact Hv].
Qed.

Lemma decode_ErrorCodes_wire (e cur : ErrorCodes) (d : savedError) :
  Forall (fun c => is_int (ErrorCode_int c)) (elems e) ->
  decode_ErrorCodes (wire_slice (option_map (map ErrorCode_int) e)) cur d
  = inr (Some (elems e), d).
Proof.
  intros He. destruct e as [l |]; [| reflexivity].
  cbn [option_map wire_slice elems] in *. unfold decode_ErrorCodes.
  rewrite ErrorCodes_scanned_ints.
  - rewrite map_map.
    replace (map (fun x => mkErrorCode (ErrorCode_int x)) l) with l; [reflexivity |].
    clear He. induction l as [| [n] l IH]; [reflexivity |]. simpl. rewrite <- IH. reflexivity.
  - apply Forall_map. exact He.
Qed.

Lemma find_field_distances :
  find_field MatrixResponse_fields "distances"
  = Some (Field "Distances" (js "json:'distances'") (slice_t int32_t)
            MatrixResponse_Distances MatrixResponse_set_Distances).
Proof. reflexivity. Qed.

Lemma find_field_errorCodes :
  find_field MatrixResponse_fields "errorCodes"
  = Some (Field "ErrorCodes" (js "json:'errorCodes'") ErrorCodes_t
            MatrixResponse_ErrorCodes MatrixResponse_set_ErrorCodes).
Proof. reflexivity. Qed.

(** X11: a [MatrixResponse] written by [json.Marshal] and read back.
    With its integers in the range of their Go types, a matrix response
    is written without error as an object of five members, in the order
    of the declaration and under the names of the tags, a nil collection
    as [null]; and that object is decoded without error, whatever the
    target held, into the same response but for [ErrorCodes], which comes
    back empty and not nil when it was nil. *)
Theorem MatrixResponse_Marshal_Unmarshal (m : MatrixResponse) :
  is_int (MatrixResponse_NumOrigins m) ->
  is_int (MatrixResponse_NumDestinations m) ->
  Forall is_int32 (elems (MatrixResponse_TravelTimes m)) ->
  Forall is_int32 (elems (MatrixResponse_Distances m)) ->
  Forall (fun c => is_int (ErrorCode_int c)) (elems (MatrixResponse_ErrorCodes m)) ->
  let j := JObj [ ("numOrigins", num (MatrixResponse_NumOrigins m));
                  ("numDestinations", num (MatrixResponse_NumDestinations m));
                  ("travelTimes", wire_slice (MatrixResponse_TravelTimes m));
                  ("distances", wire_slice (MatrixResponse_Distances m));
                  ("errorCodes",
                   wire_slice (option_map (map ErrorCode_int) (MatrixResponse_ErrorCodes m))) ] in
  json_Marshal MatrixResponse_t m = inr j
  /\ forall v,
       json_Unmarshal_scanned MatrixResponse_t (Some j) v
       = inr (MatrixResponse_set_ErrorCodes (Some (elems (MatrixResponse_ErrorCodes m))) m).
Proof.
  intros Hn Hm Ht Hd He j. split.
  - unfold json_Marshal, MatrixResponse_t. cbn [encode struct_t].
    unfold encode_struct, MatrixResponse_fields.
    written_as "numOrigins". written_as "numDestinations". written_as "travelTimes".
    written_as "distances". written_as "errorCodes".
    cbn [f_t f_get encode int_t slice_t ErrorCodes_t encode_fields].
    rewrite !(encode_slice_nums int32_t _ eq_refl), encode_ErrorCodes. reflexivity.
  - intros v. unfold json_Unmarshal_scanned, MatrixResponse_t, j.
    rewrite decode_struct_t. unfold decode_struct.
    rewrite (decode_members_found _ _ _ _ _ _ _ find_field_numOrigins).
    cbn [decode f_t f_get f_set int_t]. unfold num at 1.
    rewrite decode_int_FormatInt by (assumption || exact Hn).
    rewrite (decode_members_found _ _ _ _ _ _ _ find_field_numDestinations).
    cbn [decode f_t f_get f_set int_t]. unfold num at 1.
    rewrite decode_int_FormatInt by (assumption || exact Hm).
    rewrite (decode_members_found _ _ _ _ _ _ _ find_field_travelTimes).
    cbn [decode f_t f_get f_set slice_t]. rewrite (decode_slice_int32 _ _ _ Ht).
    rewrite (decode_members_found _ _ _ _ _ _ _ find_field_distances).
    cbn [decode f_t f_get f_set slice_t]. rewrite (decode_slice_int32 _ _ _ Hd).
    rewrite (decode_members_found _ _ _ _ _ _ _ find_field_errorCodes).
    cbn [decode f_t f_get f_set ErrorCodes_t]. rewrite (decode_ErrorCodes_wire _ _ _ He).
    destruct m. reflexivity.
Qed.

(** *** When the codes of a decoded response are nil *)

Lemma ErrorCodes_scanned_fresh (b : option json) (e e' : ErrorCodes) :
  ErrorCodes_UnmarshalJSON_scanned b e = (e', None) -> e' <> None.
Proof.
  unfold ErrorCodes_UnmarshalJSON_scanned.
  destruct (json_Unmarshal_scanned (slice_t int_t) b make) as [err | l]; [discriminate |].
  unfold make. rewrite fold_append_codes. intros [= <-]. discriminate.
Qed.

Lemma decode_members_codes_set {S : Type} (fs : list (field S)) (tag : string)
    (get : S -> ErrorCodes) (set : ErrorCodes -> S -> S) :
  let f := Field "ErrorCodes" tag ErrorCodes_t get set in
  apart fs -> NoDup (folded_names fs) -> In f fs ->
  (forall a s, get (set a s) = a) ->
  forall kvs s d s' d',
  decode_members fs kvs s d = inr (s', d') ->
  existsb (fun kv => folded_match (fst kv) f) kvs = true ->
  get s' <> None.
Proof.
  intros f Hap Hnd Hin Hgs.
  induction kvs as [| [k v] kvs IH]; intros s d s' d' H Hex; [discriminate |].
  cbn [existsb fst] in Hex. cbn [decode_members] in H.
  destruct (existsb (fun kv => folded_match (fst kv) f) kvs) eqn:Hrest.
  - destruct (find_field fs k) as [g |]; [| exact (IH _ _ _ _ H eq_refl)].
    destruct (decode (f_t g) v (f_get g s) d) as [err | [a d1]]; [discriminate |].
    exact (IH _ _ _ _ H eq_refl).
  - rewrite orb_false_r in Hex.
    rewrite (find_field_unique fs k f Hnd Hin Hex) in H.
    cbn [f_t f_get f_set f decode ErrorCodes_t] in H. unfold decode_ErrorCodes in H.
    destruct (ErrorCodes_UnmarshalJSON_scanned (Some v) (get s)) as [e' [err |]] eqn:Hu;
      [discriminate |].
    apply ErrorCodes_scanned_fresh in Hu.
    assert (Hun : f_get f s' = f_get f (set e' s)).
    { refine (decode_members_untouched fs f Hap Hin kvs _ _ _ _ _ H).
      intros k' v' Hk'. destruct (folded_match k' f) eqn:Hm; [| reflexivity].
      assert (Hsome : existsb (fun kv => folded_match (fst kv) f) kvs = true).
      { apply existsb_exists. exists (k', v'). split; [exact Hk' | exact Hm]. }
      congruence. }
    cbn [f_get f] in Hun. rewrite Hun, Hgs. exact Hu.
Qed.

Lemma codes_nil_iff_absent {S : Type} (name : string) (z : S) (fs : list (field S))
    (tag : string) (get : S -> ErrorCodes) (set : ErrorCodes -> S -> S) :
  let f := Field "ErrorCodes" tag ErrorCodes_t get set in
  apart fs -> NoDup (folded_names fs) -> In f fs ->
  (forall a s, get (set a s) = a) -> get z = None ->
  (forall k, folded_match k f = String.eqb "ERRORCODES" (foldName k)) ->
  forall kvs r,
  json_Unmarshal_scanned (struct_t name z fs) (Some (JObj kvs)) z = inr r ->
  (get r = None <-> forall k v, In (k, v) kvs -> foldName k <> "ERRORCODES").
Proof.
  intros f Hap Hnd Hin Hgs Hz Hfm kvs r H.
  unfold json_Unmarshal_scanned in H. rewrite decode_struct_t in H. unfold decode_struct in H.
  destruct (decode_members fs kvs z None) as [err | [s' [err |]]] eqn:Hd; try discriminate.
  injection H as ->. split.
  - intros Hnil k v Hk Hfold.
    apply (decode_members_codes_set fs tag get set Hap Hnd Hin Hgs _ _ _ _ _ Hd); [| exact Hnil].
    apply existsb_exists. exists (k, v). split; [exact Hk |].
    cbn [fst]. fold f. rewrite Hfm, Hfold. reflexivity.
  - intros Habs.
    rewrite <- Hz. refine (decode_members_untouched fs f Hap Hin kvs _ _ _ _ _ Hd).
    intros k v Hk. rewrite Hfm. apply String.eqb_neq. intros Heq.
    apply (Habs k v Hk). symmetry. exact Heq.
Qed.

(** X12: when the codes of a decoded response are nil.  After a
    [RoutesResponse] or a [MatrixResponse] has been decoded without error
    from an object into a zero value, its [ErrorCodes] are nil exactly
    when the object has no member named [errorCodes], up to case: a
    member [errorCodes] that is an empty array, or [null], leaves codes
    that are empty and not nil. *)
Theorem ErrorCodes_nil_iff_absent :
  (forall kvs r,
     json_Unmarshal_scanned RoutesResponse_t (Some (JObj kvs)) RoutesResponse_zero = inr r ->
     (RoutesResponse_ErrorCodes r = None
      <-> forall k v, In (k, v) kvs -> foldName k <> "ERRORCODES"))
  /\ (forall kvs m,
        json_Unmarshal_scanned MatrixResponse_t (Some (JObj kvs)) MatrixResponse_zero = inr m ->
        (MatrixResponse_ErrorCodes m = None
         <-> forall k v, In (k, v) kvs -> foldName k <> "ERRORCODES")).
Proof.
  split.
  - apply (codes_nil_iff_absent _ _ RoutesResponse_fields (js "json:'errorCodes'")
             RoutesResponse_ErrorCodes RoutesResponse_set_ErrorCodes).
    + exact apart_RoutesResponse_fields.
    + apply (bool_decide_unpack _). vm_compute. exact I.
    + simpl. tauto.
    + reflexivity.
    + reflexivity.
    + reflexivity.
  - apply (codes_nil_iff_absent _ _ MatrixResponse_fields (js "json:'errorCodes'")
             MatrixResponse_ErrorCodes MatrixResponse_set_ErrorCodes).
    + exact apart_MatrixResponse_fields.
    + apply (bool_decide_unpack _). vm_compute. exact I.
    + simpl. tauto.
    + reflexivity.
    + reflexivity.
    + reflexivity.
Qed.

(** *** Writing a [Span] *)

Lemma encode_fields_omitted {S : Type} (f : field S) (fs : list (field S)) (s : S) (n : string) :
  json_name f = Some n -> omitEmpty f = true ->
  encode_fields (f :: fs) s
  = if isEmptyValue (f_t f) (f_get f s) then encode_fields fs s
    else
      match encode (f_t f) (f_get f s) with
      | inl err => inl err
      | inr j =>
          match encode_fields fs s with
          | inl err => inl err
          | inr kvs => inr ((n, j) :: kvs)
          end
      end.
Proof. intros Hn Ho. cbn [encode_fields]. rewrite Hn, Ho. reflexivity. Qed.

Lemma find_field_offset :
  find_field Span_fields "offset"
  = Some (Field "Offset" (js "json:'offset'") int_t Span_Offset Span_set_Offset).
Proof. reflexivity. Qed.

Lemma find_field_length :
  find_field Span_fields "length"
  = Some (Field "Length" (js "json:'length'") int_t Span_Length Span_set_Length).
Proof. reflexivity. Qed.

Lemma find_field_duration :
  find_field Span_fields "duration"
  = Some (Field "Duration" (js "json:'duration'") int_t Span_Duration Span_set_Duration).
Proof. reflexivity. Qed.

(** X13: the speed limit of a [Span] is left out when it is empty.
    [json.Marshal] writes offset, length and duration of a span always,
    zero or not; it writes [speedLimit] after them when the speed limit
    is not empty, and no such member when it is.  An object written
    without the member is decoded, whatever the target held, to the
    three integers of the span and the speed limit of the target, the zero
    one in a fresh value. *)
Theorem Span_SpeedLimit_omitempty (s : Span) :
  is_int (Span_Offset s) -> is_int (Span_Length s) -> is_int (Span_Duration s) ->
  let members := [ ("offset", num (Span_Offset s)); ("length", num (Span_Length s));
                   ("duration", num (Span_Duration s)) ] in
  (isEmptyValue float64_t (Span_SpeedLimit s) = true ->
   json_Marshal Span_t s = inr (JObj members))
  /\ (forall j,
        isEmptyValue float64_t (Span_SpeedLimit s) = false ->
        encode float64_t (Span_SpeedLimit s) = inr j ->
        json_Marshal Span_t s = inr (JObj (members ++ [("speedLimit", j)])))
  /\ (forall v,
        json_Unmarshal_scanned Span_t (Some (JObj members)) v
        = inr (Span_set_SpeedLimit (Span_SpeedLimit v) s)).
Proof.
  intros Ho Hl Hd members.
  assert (Hw : json_Marshal Span_t s
               = if isEmptyValue float64_t (Span_SpeedLimit s) then inr (JObj members)
                 else
                   match encode float64_t (Span_SpeedLimit s) with
                   | inl err => inl err
                   | inr j => inr (JObj (members ++ [("speedLimit", j)]))
                   end).
  { unfold json_Marshal, Span_t. cbn [encode struct_t]. unfold encode_struct, Span_fields.
    written_as "offset". written_as "length". written_as "duration".
    match goal with
    | |- context [encode_fields (?f :: ?fs) ?s] =>
        rewrite (encode_fields_omitted f fs s "speedLimit" eq_refl eq_refl)
    end.
    cbn [f_type f_t f_get encode int_t encode_fields].
    destruct (isEmptyValue float64_t (Span_SpeedLimit s)); [reflexivity |].
    destruct (encode float64_t (Span_SpeedLimit s)); reflexivity. }
  split; [| split].
  - intros He. rewrite Hw, He. reflexivity.
  - intros j He Hj. rewrite Hw, He, Hj. reflexivity.
  - intros v. unfold json_Unmarshal_scanned, Span_t, members.
    rewrite decode_struct_t. unfold decode_struct.
    rewrite (decode_members_found _ _ _ _ _ _ _ find_field_offset).
    cbn [decode f_t f_get f_set int_t]. unfold num at 1.
    rewrite decode_int_FormatInt by (assumption || exact Ho).
    rewrite (decode_members_found _ _ _ _ _ _ _ find_field_length).
    cbn [decode f_t f_get f_set int_t]. unfold num at 1.
    rewrite decode_int_FormatInt by (assumption || exact Hl).
    rewrite (decode_members_found _ _ _ _ _ _ _ find_field_duration).
    cbn [decode f_t f_get f_set int_t]. unfold num at 1.
    rewrite decode_int_FormatInt by (assumption || exact Hd).
    destruct s, v. reflexivity.
Qed.

End Properties.

(** ** The properties at work *)

Lemma ex_mode_ok : mode_ok (env := ex_Env) (ex_TransportMode_String ModeCar).
Proof. split; discriminate. Defined.

(** C1 at the sequence 0, 2, 99, 7 of the specification. *)
Lemma ErrorCodes_roundtrip_witness :
  Forall is_int [0; 2; 99; 7]
  /\ ErrorCodes_UnmarshalJSON "[0,2,99,7]" None
     = (Some [mkErrorCode 0; mkErrorCode 2; mkErrorCode 99; mkErrorCode 7], None).
Proof.
  assert (H : Forall is_int [0; 2; 99; 7]) by (repeat constructor; discriminate).
  split; [exact H | exact (proj1 (ErrorCodes_roundtrip [0; 2; 99; 7] None H))].
Defined.

(** C2 as stated fails on a [null] element, which is no integer and no
    error: the code 0 stands for it. *)
Lemma null_element_is_no_error :
  ~ (forall b xs e,
       parse b = Some (JArr xs) ->
       existsb (fun j => negb (integer_elem j)) xs = true ->
       snd (ErrorCodes_UnmarshalJSON b e) <> None)
  /\ ErrorCodes_UnmarshalJSON "[null]" None = (Some [mkErrorCode 0], None)
  /\ json_Unmarshal MatrixResponse_t (js "{'errorCodes':[null]}") MatrixResponse_zero
     = inr (Build_MatrixResponse 0 0 None None (Some [mkErrorCode 0])).
Proof.
  split; [| split; reflexivity].
  intros H. apply (H "[null]" [JNull] None); reflexivity.
Qed.

(** C2, amended, at the array of the specification. *)
Lemma ErrorCodes_rejects_non_integers_witness :
  List.find (fun j => negb (accepted_elem j)) [JStr "a"] = Some (JStr "a")
  /\ ErrorCodes_UnmarshalJSON (js "['a']") (Some [mkErrorCode 5])
     = (Some [mkErrorCode 5], Some (UnmarshalTypeError "string" "int"))
  /\ exists err,
       json_Unmarshal (RoutesResponse_t (env := ex_Env))
         (js "{'routes':[],'errorCodes':['a']}")
         (RoutesResponse_zero (env := ex_Env))
       = inl err.
Proof.
  pose proof (ErrorCodes_rejects_non_integers (env := ex_Env)
                [JStr "a"] (JStr "a") (Some [mkErrorCode 5]) eq_refl) as (H1 & H2 & _).
  split; [reflexivity |]. split.
  - exact (H1 (js "['a']") eq_refl).
  - exact (H2 (js "{'routes':[],'errorCodes':['a']}") [("routes", JArr [])] [] _ eq_refl).
Defined.

(** C3 at a request whose mode is the invalid one. *)
Lemma Routes_rejects_mode_witness :
  ex_TransportMode_String ModeInvalid = "invalid"
  /\ ex_Routes (ex_service ex_body) tt (ex_request ModeInvalid) ex_state
     = ((None, Some (Errorf "invalid transportmode" [])), ex_state).
Proof.
  split; [reflexivity |].
  exact (proj1 (Routes_rejects_mode (env := ex_Env) (ex_service ex_body) tt (ex_request ModeInvalid)
                  ex_state (or_introl eq_refl))).
Defined.

(** C4 at the request of the specification: origin 1.5, 2.5 and
    destination 3.0, 4.0. *)
Lemma Routes_query_witness :
  mode_ok (env := ex_Env) (ex_TransportMode_String ModeCar)
  /\ ex_URL_Parse "https://router.example/v8/" "routes" = inr "https://router.example/v8/routes"
  /\ Routes_values (env := ex_Env) "car" (ex_request ModeCar) !! "origin"
     = Some ["1.5,2.5"]
  /\ Routes_values (env := ex_Env) "car" (ex_request ModeCar) !! "destination"
     = Some ["3,4"]
  /\ Routes_values (env := ex_Env) "car" (ex_request ModeCar) !! "alternatives"
     = Some ["6"]
  /\ Routes_values (env := ex_Env) "car" (ex_request ModeCar) !! "currency"
     = Some ["EUR"].
Proof.
  pose proof (Routes_query (env := ex_Env) (ex_service ex_body) tt (ex_request ModeCar)
                ex_state "https://router.example/v8/routes" ex_mode_ok eq_refl)
    as (_ & H1 & H2 & H3 & H4 & _).
  split; [exact ex_mode_ok |]. split; [reflexivity |].
  split; [exact H1 |]. split; [exact H2 |]. split; [exact H3 | exact H4].
Defined.

(** C6 with the collaborator that answers with the body of the scenario. *)
Lemma Routes_end_to_end_witness :
  fst (ex_Routes (ex_service ex_body) tt (ex_request ModeCar) ex_state)
  = (Some (Build_RoutesResponse (env := ex_Env)
             (Some [Build_Route (env := ex_Env) "r1" (Some [])])
             (Some [mkErrorCode ErrorCodeSuccess])),
     None).
Proof.
  exact (Routes_end_to_end (env := ex_Env) (ex_service ex_body) tt (ex_request ModeCar) ex_state
           "https://router.example/v8/routes"
           ("GET https://router.example/v8/routes?" +:+ ex_query) O
           ex_mode_ok eq_refl eq_refl (fun _ _ => eq_refl)).
Defined.

(** C10 at a text with a string in it and a receiver that holds a code. *)
Lemma ErrorCodes_UnmarshalJSON_atomic_witness :
  snd (ErrorCodes_UnmarshalJSON (js "[1,'a']") (Some [mkErrorCode 5])) <> None
  /\ fst (ErrorCodes_UnmarshalJSON (js "[1,'a']") (Some [mkErrorCode 5]))
     = Some [mkErrorCode 5].
Proof.
  assert (H : snd (ErrorCodes_UnmarshalJSON (js "[1,'a']") (Some [mkErrorCode 5])) <> None)
    by discriminate.
  split; [exact H | exact (ErrorCodes_UnmarshalJSON_atomic _ _ H)].
Defined.

(** C5 as stated fails: an array of one travel time is decoded next to
    two origins and three destinations. *)
Lemma MatrixResponse_length_not_checked :
  ~ (forall b m,
       json_Unmarshal MatrixResponse_t b MatrixResponse_zero = inr m ->
       MatrixResponse_TravelTimes m <> None ->
       len (MatrixResponse_TravelTimes m)
       = MatrixResponse_NumOrigins m * MatrixResponse_NumDestinations m).
Proof.
  intros H.
  specialize (H (js "{'numOrigins':2,'numDestinations':3,'travelTimes':[1]}")
                (Build_MatrixResponse 2 3 (Some [1]) None None) eq_refl).
  discriminate H. discriminate.
Qed.

Lemma lawful_ex_Time_t : lawful ex_Time_t.
Proof.
  split; simpl.
  - intros j a a' d. destruct j; reflexivity.
  - intros j a e a' d' H. destruct j; try discriminate; injection H as _ <-; reflexivity.
Qed.

Lemma lawful_ex_float64_t : lawful ex_float64_t.
Proof.
  split; simpl; unfold mismatch.
  - intros j a a' d. destruct j; try reflexivity. destruct (ex_ParseFloat lit); reflexivity.
  - intros j a e a' d' H. destruct j; try (injection H as _ <-; reflexivity).
    destruct (ex_ParseFloat lit); injection H as _ <-; reflexivity.
Qed.

Lemma lawful_ex_GeoWaypoint_t : lawful ex_GeoWaypoint_t.
Proof.
  apply lawful_struct_t.
  repeat first [ apply List.Forall_nil
               | apply List.Forall_cons; [exact lawful_ex_float64_t |] ].
Qed.

Lemma lawful_ex_RegionDefinition_t : lawful ex_RegionDefinition_t.
Proof. apply lawful_struct_t. apply List.Forall_nil. Qed.


(** X5 at an array with a [null] in it and a receiver that holds a code. *)
Lemma ErrorCodes_UnmarshalJSON_array_witness :
  parse "[3,null,99]" = Some (JArr [JNum "3"; JNull; JNum "99"])
  /\ ErrorCodes_UnmarshalJSON "[3,null,99]" (Some [mkErrorCode 5])
     = (Some [mkErrorCode 3; mkErrorCode 0; mkErrorCode 99], None).
Proof.
  split; [reflexivity |].
  exact (ErrorCodes_UnmarshalJSON_array "[3,null,99]" [JNum "3"; JNull; JNum "99"]
           (Some [mkErrorCode 5]) eq_refl).
Defined.

(** X6 at the text [null]. *)
Lemma ErrorCodes_UnmarshalJSON_no_array_witness :
  (forall xs, parse "null" <> Some (JArr xs))
  /\ ErrorCodes_UnmarshalJSON "null" None = (Some [], None).
Proof.
  assert (H : forall xs, parse "null" <> Some (JArr xs)) by (intros xs; discriminate).
  split; [exact H | exact (ErrorCodes_UnmarshalJSON_no_array "null" None H)].
Defined.

(** X7 at the empty array. *)
Lemma ErrorCodes_UnmarshalJSON_fresh_witness :
  ErrorCodes_UnmarshalJSON "[]" None = (Some [], None)
  /\ exists codes,
       Some [] = Some codes
       /\ forall e2, ErrorCodes_UnmarshalJSON "[]" e2 = (Some codes, None).
Proof.
  split; [reflexivity |].
  exact (ErrorCodes_UnmarshalJSON_fresh "[]" None (Some []) eq_refl).
Defined.

(** X9 at the field of [Notice] whose tag is not read: the key
    [DETAILS] selects it. *)
Lemma fields_selected_by_name_witness :
  let f := Field "Details" (js "jsopn:'details'") (slice_t NoticeDetail_t)
             Notice_Details Notice_set_Details in
  In f Notice_fields
  /\ folded_match "DETAILS" f = true
  /\ find_field Notice_fields "DETAILS" = Some f.
Proof.
  intros f.
  assert (Hin : In f Notice_fields) by (do 3 right; left; reflexivity).
  assert (He : In (Entity Notice Notice_t Notice_fields) (entities (env := ex_Env)))
    by (do 5 right; left; reflexivity).
  split; [exact Hin |]. split; [reflexivity |].
  exact (proj2 (proj2 (proj1 (List.Forall_forall _ _)
                         (fields_selected_by_name (env := ex_Env)) _ He f Hin)
                  "DETAILS") eq_refl).
Defined.

(** X10 at a [MatrixResponse] whose key is in upper case. *)
Lemma keys_up_to_case_witness :
  same_keys [("NUMORIGINS", JNum "2")] [("numOrigins", JNum "2")]
  /\ decode MatrixResponse_t (JObj [("NUMORIGINS", JNum "2")]) MatrixResponse_zero None
     = decode MatrixResponse_t (JObj [("numOrigins", JNum "2")]) MatrixResponse_zero None.
Proof.
  assert (H : same_keys [("NUMORIGINS", JNum "2")] [("numOrigins", JNum "2")])
    by (constructor; [split; [vm_compute; reflexivity | reflexivity] | constructor]).
  assert (He : In (Entity MatrixResponse MatrixResponse_t MatrixResponse_fields)
                 (entities (env := ex_Env)))
    by (do 16 right; left; reflexivity).
  split; [exact H |].
  exact (proj1 (List.Forall_forall _ _) (keys_up_to_case (env := ex_Env)) _ He
           _ _ MatrixResponse_zero None H).
Defined.

(** X11 at a response of two travel times and no codes. *)
Lemma MatrixResponse_Marshal_Unmarshal_witness :
  let m := Build_MatrixResponse 2 3 (Some [10; 20]) None None in
  let j := JObj [ ("numOrigins", JNum "2"); ("numDestinations", JNum "3");
                  ("travelTimes", JArr [JNum "10"; JNum "20"]);
                  ("distances", JNull); ("errorCodes", JNull) ] in
  is_int 2 /\ is_int 3 /\ Forall is_int32 [10; 20]
  /\ json_Marshal MatrixResponse_t m = inr j
  /\ json_Unmarshal_scanned MatrixResponse_t (Some j) MatrixResponse_zero
     = inr (Build_MatrixResponse 2 3 (Some [10; 20]) None (Some [])).
Proof.
  intros m j.
  assert (H2 : is_int 2) by (split; [discriminate | reflexivity]).
  assert (H3 : is_int 3) by (split; [discriminate | reflexivity]).
  assert (Ht : Forall is_int32 [10; 20]) by (repeat constructor; discriminate).
  pose proof (MatrixResponse_Marshal_Unmarshal m H2 H3 Ht (List.Forall_nil _) (List.Forall_nil _))
    as [Hw Hr].
  split; [exact H2 |]. split; [exact H3 |]. split; [exact Ht |].
  split; [exact Hw | exact (Hr MatrixResponse_zero)].
Defined.

(** X12 at an object whose [errorCodes] are [null]. *)
Lemma ErrorCodes_nil_iff_absent_witness :
  json_Unmarshal_scanned MatrixResponse_t (Some (JObj [("errorCodes", JNull)]))
    MatrixResponse_zero
  = inr (Build_MatrixResponse 0 0 None None (Some []))
  /\ ~ (forall k v, In (k, v) [("errorCodes", JNull)] -> foldName k <> "ERRORCODES").
Proof.
  split; [reflexivity |]. intros Habs.
  pose proof (proj2 (proj2 (ErrorCodes_nil_iff_absent (env := ex_Env))
                       [("errorCodes", JNull)]
                       (Build_MatrixResponse 0 0 None None (Some [])) eq_refl)
                Habs) as H.
  discriminate H.
Defined.

(** X13 at a span without a speed limit. *)
Lemma Span_SpeedLimit_omitempty_witness :
  let s := Build_Span 1 2 3 PrimFloat.zero in
  is_int 1 /\ is_int 2 /\ is_int 3
  /\ isEmptyValue ex_float64_t (Span_SpeedLimit s) = true
  /\ json_Marshal (Span_t (env := ex_Env)) s
     = inr (JObj [("offset", JNum "1"); ("length", JNum "2"); ("duration", JNum "3")]).
Proof.
  intros s.
  assert (H1 : is_int 1) by (split; [discriminate | reflexivity]).
  assert (H2 : is_int 2) by (split; [discriminate | reflexivity]).
  assert (H3 : is_int 3) by (split; [discriminate | reflexivity]).
  split; [exact H1 |]. split; [exact H2 |]. split; [exact H3 |]. split; [reflexivity |].
  exact (proj1 (Span_SpeedLimit_omitempty (env := ex_Env) s H1 H2 H3) eq_refl).
Defined.

(** *** Examples *)

Example parse_ex1 :
  parse (js "{'routes':[{'id':'r1','sections':[]}],'errorCodes':[0]}")
  = Some (JObj [("routes", JArr [JObj [("id", JStr "r1"); ("sections", JArr [])]]);
                ("errorCodes", JArr [JNum "0"])]).
Proof. vm_compute. reflexivity. Qed.

Example parse_ex2 : parse (js " [ -1.5e+3 , 'aé\n' , null,true ] ")
  = Some (JArr [JNum "-1.5e+3"; JStr ("a" +:+ String (chr 195) (String (chr 169) (String (chr 10) ""))); JNull; JBool true]).
Proof. vm_compute. reflexivity. Qed.

Example parse_ex4 :
  parse_value 5 9999 [TLBrack; TRBrack] = Some (JArr [], [])
  /\ parse_value 5 10000 [TLBrack; TRBrack] = None.
Proof. vm_compute. split; reflexivity. Qed.

Example parse_ex3 : parse "[01]" = None /\ parse "[1,]" = None /\ parse "1 2" = None
  /\ parse "" = None /\ parse "[1" = None /\ parse "tru" = None /\ parse "-" = None.
Proof. vm_compute. repeat split; reflexivity. Qed.

Example ParseInt_ex :
  ParseInt "0" 64 = Some 0 /\ ParseInt "-12" 64 = Some (-12) /\ ParseInt "1.0" 64 = None
  /\ ParseInt "9223372036854775807" 64 = Some (2 ^ 63 - 1)
  /\ ParseInt "9223372036854775808" 64 = None
  /\ ParseInt "-9223372036854775808" 64 = Some (- 2 ^ 63)
  /\ ParseInt "-" 64 = None /\ ParseInt "1e2" 64 = None.
Proof. vm_compute. repeat split; reflexivity. Qed.

Example FormatInt_ex :
  FormatInt 0 = "0" /\ FormatInt 99 = "99" /\ FormatInt (-120) = "-120"
  /\ FormatInt (2 ^ 63 - 1) = "9223372036854775807" /\ FormatInt 1000 = "1000".
Proof. vm_compute. repeat split; reflexivity. Qed.

Example ErrorCodes_ex1 :
  ErrorCodes_UnmarshalJSON "[0,2,99,7]" None
  = (Some [mkErrorCode 0; mkErrorCode 2; mkErrorCode 99; mkErrorCode 7], None).
Proof. vm_compute. reflexivity. Qed.

Example ErrorCodes_ex2 :
  ErrorCodes_UnmarshalJSON (js "['a']") (Some [mkErrorCode 5])
  = (Some [mkErrorCode 5], Some (UnmarshalTypeError "string" "int")).
Proof. vm_compute. reflexivity. Qed.

Example ErrorCodes_ex4 :
  ErrorCodes_UnmarshalJSON "[-9223372036854775808, 9223372036854775807, -7]" None
  = (Some [mkErrorCode (- 2 ^ 63); mkErrorCode (2 ^ 63 - 1); mkErrorCode (-7)], None)
  /\ ErrorCodes_UnmarshalJSON "[9223372036854775808]" None
     = (None, Some (UnmarshalTypeError "number 9223372036854775808" "int"))
  /\ ErrorCodes_UnmarshalJSON (js "{'a':1}") None
     = (None, Some (UnmarshalTypeError "object" "[]int"))
  /\ ErrorCodes_UnmarshalJSON "[[1]]" None = (None, Some (UnmarshalTypeError "array" "int"))
  /\ ErrorCodes_UnmarshalJSON "[]" None = (Some [], None).
Proof. vm_compute. repeat split; reflexivity. Qed.

Example ErrorCodes_ex3 :
  ErrorCodes_UnmarshalJSON "[null, 3]" None = (Some [mkErrorCode 0; mkErrorCode 3], None)
  /\ ErrorCodes_UnmarshalJSON "null" None = (Some [], None)
  /\ ErrorCodes_UnmarshalJSON "[1.0]" None = (None, Some (UnmarshalTypeError "number 1.0" "int"))
  /\ ErrorCodes_UnmarshalJSON "[1" None = (None, Some SyntaxError).
Proof. vm_compute. repeat split; reflexivity. Qed.

Example ex_Sprint_v_ex :
  ex_Sprint_v 1.5%float = "1.5" /\ ex_Sprint_v 3%float = "3" /\ ex_Sprint_v 0.25%float = "0.25"
  /\ ex_Sprint_v (-52.125)%float = "-52.125" /\ ex_Sprint_v 1024%float = "1024".
Proof. vm_compute. repeat split; reflexivity. Qed.

Example ex_ParseFloat_ex :
  ex_ParseFloat "1.5" = Some 1.5%float /\ ex_ParseFloat "-3" = Some (-3)%float
  /\ ex_ParseFloat "1e5" = None /\ ex_ParseFloat "13.5" = Some 13.5%float.
Proof. vm_compute. repeat split; reflexivity. Qed.

Example Values_Encode_ex :
  Values_Encode (Values_Add "b" "x y" (Values_Add "a" "2" (Values_Add "b" "1,5" ∅)))
  = "a=2&b=1%2C5&b=x+y".
Proof. vm_compute. reflexivity. Qed.

Example Routes_ex_call :
  ex_Routes (ex_service ex_body) tt (ex_request ModeCar) ex_state
  = ((Some (Build_RoutesResponse (env := ex_Env)
              (Some [Build_Route (env := ex_Env) "r1" (Some [])]) (Some [mkErrorCode 0])),
      None),
     Build_State (env := ex_Env) 1%nat
       [ CallNewRequest (env := ex_Env) tt "https://router.example/v8/routes" "GET"
           ex_query None;
         CallDo (env := ex_Env) ("GET https://router.example/v8/routes?" +:+ ex_query) ]).
Proof. reflexivity. Qed.

Example Routes_ex_down :
  ex_Routes (Build_RoutingService (env := ex_Env) "https://router.example/v8/"
               ex_Client_down) tt (ex_request ModePedestrian) ex_state
  = ((None, Some (Errorf "unable to create get request: %v" [OtherError "no transport"])),
     Build_State (env := ex_Env) O
       [ CallNewRequest (env := ex_Env) tt "https://router.example/v8/routes" "GET"
           (Values_Encode (Routes_values (env := ex_Env) "pedestrian"
                             (ex_request ModePedestrian))) None ]).
Proof. reflexivity. Qed.

Example Routes_ex_no_url :
  ex_Routes (Build_RoutingService (env := ex_Env) "" (ex_Client ex_body))
    tt (ex_request ModeCar) ex_state
  = ((None, Some (OtherError "parse: empty url")), ex_state).
Proof. reflexivity. Qed.

Example section_ex :
  json_Unmarshal (Route_t (env := ex_Env))
    (js "{'id':'r','sections':[{'id':'s','TYPE':'vehicle','summary':{'duration':7},'spans':[{'offset':1,'speedLimit':13.5}],'departure':{'time':'2024-01-01T10:00:00+01:00','place':{'location':{'lat':1.5,'lng':2.5}}},'unknown':[1,{}]}]}")
    (Route_zero (env := ex_Env))
  = inr (Build_Route (env := ex_Env) "r"
           (Some [Build_Section (env := ex_Env) "s" "vehicle"
                    (Build_RoutePlace (env := ex_Env) "2024-01-01T10:00:00+01:00"
                       (Build_Place "" (Build_GeoWaypoint 1.5%float 2.5%float)
                          (Build_GeoWaypoint 0%float 0%float)))
                    (Build_RoutePlace (env := ex_Env) "0001-01-01T00:00:00Z"
                       (Build_Place "" (Build_GeoWaypoint 0%float 0%float)
                          (Build_GeoWaypoint 0%float 0%float)))
                    (Build_Summary 7 0 0) (Build_Summary 0 0 0) ""
                    (Some [Build_Span 1 0 0 13.5%float]) None "" (Build_Transport "") None None None])).
Proof. reflexivity. Qed.
